(** * The EXMARaLDA transcript model of [exmaralda_converter/exmaralda.py]

    A shallow embedding of the classes [Speaker], [Timepoint], [Event],
    [Tier] and [ExmaraldaTranscript], of the serializer
    ([pretty_print], [print_transcript]) and of the loader
    ([ExmaraldaTranscript.load]), followed by the properties proved about
    them.

    Conventions of the embedding:
    - a Python [str] is a [string]; every character is a code point below
      256, compared by its code as Python compares code points;
    - a Python [int] is a [Z];
    - a Python [dict] is an association list in insertion order with
      distinct keys ([dict_set] updates in place or appends);
    - a method that mutates [self] returns the new value of [self];
    - what [print] writes is returned as a list of [printed] items;
    - a [KeyError] is a value of [result]. *)

From Stdlib Require Import ZArith Ascii String List Lia.
From stdpp Require Import base tactics option list sets gmap strings pretty sorting.

(** ** Python strings and values *)

(** The double quote, the tab and the line feed of the format strings. *)
Definition dq : string := String "034" "".
Definition tab : string := String "009" "".
Definition nl : string := String "010" "".

(** [os.linesep], on a POSIX platform. *)
Definition linesep : string := nl.

(** [s * n] for a string [s] and an int [n]: empty when [n <= 0]. *)
Fixpoint str_repeat (s : string) (n : nat) : string :=
  match n with
  | O => ""
  | S n' => s +:+ str_repeat s n'
  end.

Definition str_mul (s : string) (n : Z) : string := str_repeat s (Z.to_nat n).

(** [len(s)] *)
Definition len (s : string) : Z := Z.of_nat (String.length s).

(** [sep.join(l)] *)
Fixpoint join (sep : string) (l : list string) : string :=
  match l with
  | [] => ""
  | [x] => x
  | x :: r => x +:+ sep +:+ join sep r
  end.

(** The concatenation of a list of strings. *)
Fixpoint str_concat (l : list string) : string :=
  match l with
  | [] => ""
  | x :: r => x +:+ str_concat r
  end.

(** [s[1:]] *)
Definition drop_first (s : string) : string :=
  match s with
  | "" => ""
  | String _ r => r
  end.

(** [c.isspace()] for a code point below 256: the ASCII white space and
    separators 9-13 and 28-32, NEL (133) and the no-break space (160). *)
Definition isspace (c : ascii) : bool :=
  let n := nat_of_ascii c in
  ((9 <=? n) && (n <=? 13)) || ((28 <=? n) && (n <=? 32)) || (n =? 133) || (n =? 160).

(** [s.lstrip()], [s.rstrip()] and [s.strip()] *)
Fixpoint lstrip (s : string) : string :=
  match s with
  | "" => ""
  | String c r => if isspace c then lstrip r else s
  end.

Fixpoint rstrip (s : string) : string :=
  match s with
  | "" => ""
  | String c r =>
      match rstrip r with
      | "" => if isspace c then "" else String c ""
      | r' => String c r'
      end
  end.

Definition strip (s : string) : string := rstrip (lstrip s).

(** The values held by [time_id] and [time_stamp]: an int (the running id,
    the default time stamp -1, a time stamp in whole units) or a str (what
    the loader reads from an attribute).  Float time stamps are outside the
    model. *)
Inductive pyval :=
| PyInt (z : Z)
| PyStr (s : string).

#[global] Instance pyval_eq_dec : EqDecision pyval.
Proof. solve_decision. Defined.

(** [a == b] on these values: an int never equals a str. *)
Definition py_eq (a b : pyval) : bool := bool_decide (a = b).

(** ['{}'.format(v)] *)
Definition py_format (v : pyval) : string :=
  match v with
  | PyInt z => pretty z
  | PyStr s => s
  end.

(** [a < b], [a <= b], [a > b] and [a >= b] on strings: lexicographic by
    code point. *)
Definition str_lt (a b : string) : bool := String.ltb a b.
Definition str_le (a b : string) : bool := String.leb a b.
Definition str_gt (a b : string) : bool := String.ltb b a.
Definition str_ge (a b : string) : bool := String.leb b a.

(** An argument documented as [str or [str]]. *)
Inductive str_or_list :=
| Str (s : string)
| Lst (l : list string).

(** [sorted(l)] on strings: ascending by code points. *)
Definition sorted (l : list string) : list string := merge_sort String.le l.

(** [set(a) == set(b)] on lists of strings. *)
Definition py_set_eq (a b : list string) : bool :=
  bool_decide ((list_to_set a : gset string) = list_to_set b).

(** ** Python dictionaries *)

Section dict.
Context {K V : Type} `{EqDecision K}.

Definition dict : Type := list (K * V).

(** [d.keys()], in iteration order *)
Definition dict_keys (d : dict) : list K := d.*1.

(** [d.values()] *)
Definition dict_values (d : dict) : list V := d.*2.

(** [k in d.keys()] *)
Definition dict_contains (k : K) (d : dict) : bool := bool_decide (k ∈ dict_keys d).

(** [d[k]]; [None] stands for the [KeyError]. *)
Fixpoint dict_get (k : K) (d : dict) : option V :=
  match d with
  | [] => None
  | (k', v) :: r => if decide (k = k') then Some v else dict_get k r
  end.

(** [d[k] = v]: an existing key keeps its place, a new one goes last. *)
Fixpoint dict_set (k : K) (v : V) (d : dict) : dict :=
  match d with
  | [] => [(k, v)]
  | (k', v') :: r => if decide (k = k') then (k', v) :: r else (k', v') :: dict_set k v r
  end.

(** [d[k].m(...)] for a method [m] that mutates the value held under [k]:
    the value changes where it stands. *)
Fixpoint dict_alter (f : V -> V) (k : K) (d : dict) : dict :=
  match d with
  | [] => []
  | (k', v') :: r => if decide (k = k') then (k', f v') :: r else (k', v') :: dict_alter f k r
  end.

(** [[d[k] for k in ks]] for keys [ks] of [d] (a key that is absent, which
    the callers exclude, contributes nothing). *)
Definition dict_at (d : dict) (ks : list K) : list V := omap (fun k => dict_get k d) ks.

End dict.

Arguments dict : clear implicits.
Arguments dict K V : assert.

(** What a call of [print] writes. *)
Inductive printed :=
| print_keys (ks : list string)   (* print(self.tiers.keys()) *)
| print_text (s : string).        (* print('...') *)

(** A computation that may raise [KeyError]. *)
Inductive result (A : Type) :=
| Ok (a : A)
| KeyError (key : string).
Arguments Ok {A} a.
Arguments KeyError {A} key.

#[global] Instance result_ret : MRet result := fun A a => Ok a.

#[global] Instance result_bind : MBind result := fun A B f r =>
  match r with
  | Ok a => f a
  | KeyError k => KeyError k
  end.

(** ** class Speaker *)

Module Speaker.

Record t := mk {
  speaker_id : string;
  abbreviation : string;
  sex : string;
  languages_used : list string;
  l1 : list string;
  l2 : list string;
  ud_speaker_information : string;
  comment : string
}.

(** [[] if isinstance(x, str) else x] *)
Definition list_unless_str (x : str_or_list) : list string :=
  match x with
  | Str _ => []
  | Lst l => l
  end.

Definition __init__ (speaker_id abbreviation sex : string)
    (languages_used l1 l2 : str_or_list)
    (ud_speaker_information comment : string) : t :=
  {| speaker_id := speaker_id;
     abbreviation := abbreviation;
     sex := sex;
     languages_used := list_unless_str languages_used;
     l1 := list_unless_str l1;
     l2 := list_unless_str l2;
     ud_speaker_information := ud_speaker_information;
     comment := comment |}.

Definition __eq__ (self other : t) : bool :=
  if negb (String.eqb (speaker_id self) (speaker_id other)) then false
  else if negb (String.eqb (abbreviation self) (abbreviation other)) then false
  else if negb (String.eqb (sex self) (sex other)) then false
  else if negb (py_set_eq (languages_used self) (languages_used other)) then false
  else if negb (py_set_eq (l1 self) (l1 other)) then false
  else if negb (py_set_eq (l2 self) (l2 other)) then false
  else if negb (String.eqb (ud_speaker_information self) (ud_speaker_information other)) then false
  else if negb (String.eqb (comment self) (comment other)) then false
  else true.

Definition __ne__ (self other : t) : bool := negb (__eq__ self other).

Definition __lt__ (self other : t) : bool :=
  str_lt (speaker_id self) (speaker_id other).

Definition __le__ (self other : t) : bool :=
  str_le (speaker_id self) (speaker_id other).

Definition __gt__ (self other : t) : bool :=
  str_gt (speaker_id self) (speaker_id other).

(** The source returns [self.speaker_id <= other.speaker_id] here. *)
Definition __ge__ (self other : t) : bool :=
  str_le (speaker_id self) (speaker_id other).

Definition pretty_print (self : t) (indentation_level : Z) : string :=
  let indent := str_mul tab indentation_level in
  let rval := indent +:+ "<speaker id=" +:+ dq +:+ speaker_id self +:+ dq +:+ ">" in
  let rval := rval +:+ (linesep +:+ indent +:+ tab +:+ "<abbreviation>"
                          +:+ abbreviation self +:+ "</abbreviation>" +:+ linesep) in
  let rval := rval +:+ (indent +:+ tab +:+ "<sex value=" +:+ dq +:+ sex self +:+ dq
                          +:+ "/>" +:+ linesep) in
  let rval := rval +:+ (indent +:+ tab +:+ "<languages-used>"
                          +:+ join ", " (languages_used self)
                          +:+ "</languages-used>" +:+ linesep) in
  let rval := rval +:+ (indent +:+ tab +:+ "<l1>" +:+ join ", " (l1 self)
                          +:+ "</l1>" +:+ linesep) in
  let rval := rval +:+ (indent +:+ tab +:+ "<l2>" +:+ join ", " (l2 self)
                          +:+ "</l2>" +:+ linesep) in
  let rval := rval +:+ (indent +:+ tab +:+ "<ud-speaker-information>"
                          +:+ ud_speaker_information self
                          +:+ "</ud-speaker-information>" +:+ linesep) in
  let rval := rval +:+ (indent +:+ tab +:+ "<comment>" +:+ comment self
                          +:+ "</comment>" +:+ linesep) in
  let rval := rval +:+ (indent +:+ "</speaker>") in
  rval.

End Speaker.

(** ** class Timepoint *)

Module Timepoint.

Record t := mk {
  time_stamp : pyval;
  time_id : pyval;
  type : string
}.

(** The class attribute [Timepoint.running_id] is threaded through: the
    constructor reads it for the new [time_id] and advances it. *)
Definition __init__ (running_id : Z) (time_stamp : pyval) (type : string) : t * Z :=
  ({| time_stamp := time_stamp; time_id := PyInt running_id; type := type |},
   (running_id + 1)%Z).

(** [__del__], run when a time point is destroyed. *)
Definition __del__ (running_id : Z) : Z := (running_id - 1)%Z.

Definition __eq__ (self other : t) : bool :=
  py_eq (time_id self) (time_id other) && py_eq (time_stamp self) (time_stamp other).

Definition set_type (self : t) (type : string) : t :=
  {| time_stamp := time_stamp self; time_id := time_id self; type := type |}.

Definition set_time_id (self : t) (time_id : pyval) : t :=
  {| time_stamp := time_stamp self; time_id := time_id; type := type self |}.

Definition set_time_stamp (self : t) (time_stamp : pyval) : t :=
  {| time_stamp := time_stamp; time_id := time_id self; type := type self |}.

Definition get_time_id (self : t) : pyval := time_id self.

Definition pretty_print (self : t) (indentation_level : Z) : string :=
  let indent := str_mul tab indentation_level in
  let rval :=
    if py_eq (time_stamp self) (PyInt (-1))
    then indent +:+ "<tli id=" +:+ dq +:+ "T" +:+ py_format (get_time_id self) +:+ dq
    else indent +:+ "<tli id=" +:+ dq +:+ "T" +:+ py_format (get_time_id self) +:+ dq
           +:+ " time=" +:+ dq +:+ py_format (time_stamp self) +:+ dq in
  if (len (type self) =? 0)%Z then rval +:+ "/>"
  else rval +:+ (" type=" +:+ dq +:+ type self +:+ dq +:+ "/>").

End Timepoint.

(** ** class Event *)

Module Event.

Record t := mk {
  start : Timepoint.t;
  end_ : Timepoint.t;
  content : string
}.

Definition __init__ (start end_ : Timepoint.t) (content : string) : t :=
  {| start := start; end_ := end_; content := content |}.

Definition get_start_id (self : t) : pyval := Timepoint.time_id (start self).

Definition get_end_id (self : t) : pyval := Timepoint.time_id (end_ self).

Definition pretty_print (self : t) (indentation_level : Z) : string :=
  let indent := str_mul tab indentation_level in
  indent +:+ "<event start=" +:+ dq +:+ "T" +:+ py_format (get_start_id self) +:+ dq
    +:+ " end=" +:+ dq +:+ "T" +:+ py_format (get_end_id self) +:+ dq +:+ ">"
    +:+ content self +:+ "</event>".

End Event.

(** ** class Tier *)

Module Tier.

Record t := mk {
  id : string;
  speaker : string;
  category : string;
  type : string;
  display_name : string;
  event_list : list Event.t
}.

Definition __init__ (id speaker category type display_name : string) : t :=
  {| id := id; speaker := speaker; category := category; type := type;
     display_name := display_name; event_list := [] |}.

Definition pretty_print (self : t) (indentation_level : Z) : string :=
  let indent := str_mul tab indentation_level in
  let rval :=
    indent +:+ "<tier id=" +:+ dq +:+ id self +:+ dq
      +:+ (if (len (speaker self) >? 0)%Z
           then " speaker=" +:+ dq +:+ speaker self +:+ dq else "")
      +:+ " category=" +:+ dq +:+ category self +:+ dq
      +:+ " type=" +:+ dq +:+ type self +:+ dq
      +:+ " display-name=" +:+ dq +:+ display_name self +:+ dq +:+ ">" in
  if (Z.of_nat (length (event_list self)) =? 0)%Z then rval +:+ "</tier>"
  else
    let rval := rval +:+ (nl +:+ join nl (map (fun e => Event.pretty_print e (indentation_level + 1))
                                            (event_list self))) in
    let rval := rval +:+ (nl +:+ indent +:+ "</tier>") in
    rval.

Definition is_empty (self : t) : bool := (Z.of_nat (length (event_list self)) =? 0)%Z.

Definition add_event (self : t) (e : Event.t) : t :=
  {| id := id self; speaker := speaker self; category := category self;
     type := type self; display_name := display_name self;
     event_list := event_list self ++ [e] |}.

End Tier.

(** ** xml.etree.ElementTree *)

Module ET.

#[local] Set Warnings "-register-all".

(** An [Element]: its tag, its attributes, the text before its first
    child ([None] when there is none) and its children in document order.
    The text after its end tag ([tail]) is not kept: no code reads it. *)
Inductive Element :=
| mk (tag : string) (attrib : dict string string) (text : option string)
     (children : list Element).

Definition tag (e : Element) : string := let 'mk t _ _ _ := e in t.
Definition attrib (e : Element) : dict string string := let 'mk _ a _ _ := e in a.
Definition text (e : Element) : option string := let 'mk _ _ x _ := e in x.
Definition children (e : Element) : list Element := let 'mk _ _ _ c := e in c.

(** [e.iter(tag)]: [e] and its descendants in document order, those with
    the given tag. *)
Fixpoint iter (tg : string) (e : Element) : list Element :=
  match e with
  | mk t _ _ cs => (if String.eqb t tg then [e] else []) ++ flat_map (iter tg) cs
  end.

(** [e.attrib[k]] *)
Definition attr (k : string) (e : Element) : result string :=
  match dict_get k (attrib e) with
  | Some v => Ok v
  | None => KeyError k
  end.

(** [e.attrib[k] if k in e.attrib.keys() else ''] *)
Definition attr_or_empty (k : string) (e : Element) : string :=
  if dict_contains k (attrib e) then default "" (dict_get k (attrib e)) else "".

(** *** Parsing

    [parse] models [ET.parse(file).getroot()] on the text of the file, for
    the XML that the serializer writes: elements with attributes in double
    quotes, character data, an optional declaration and comments before the
    root.  It returns [None] on text that is not well-formed and on what is
    outside this subset (references with [&], [>] or a carriage return in
    character data, tabs and line feeds in attribute values, names that are
    not ASCII, comments inside the root). *)

Definition code (c : ascii) : nat := nat_of_ascii c.

(** White space: space, tab, line feed, carriage return. *)
Definition is_space (c : ascii) : bool :=
  (code c =? 32) || (code c =? 9) || (code c =? 10) || (code c =? 13).

Definition is_name_start (c : ascii) : bool :=
  ((65 <=? code c) && (code c <=? 90)) || ((97 <=? code c) && (code c <=? 122))
  || (code c =? 95) || (code c =? 58).

Definition is_name_char (c : ascii) : bool :=
  is_name_start c || ((48 <=? code c) && (code c <=? 57)) || (code c =? 45) || (code c =? 46).

(** Character data kept as it is: no [<], [&] or [>], no control
    character but tab and line feed. *)
Definition is_char_data (c : ascii) : bool :=
  negb (code c =? 60) && negb (code c =? 38) && negb (code c =? 62)
  && ((32 <=? code c) || (code c =? 9) || (code c =? 10)).

(** A character of an attribute value kept as it is. *)
Definition is_attr_char (c : ascii) : bool :=
  negb (code c =? 34) && negb (code c =? 60) && negb (code c =? 38) && (32 <=? code c).

(** The longest prefix of characters that satisfy [p], and the rest. *)
Fixpoint span (p : ascii -> bool) (s : string) : string * string :=
  match s with
  | String c r =>
      if p c then let '(a, b) := span p r in (String c a, b) else ("", s)
  | "" => ("", "")
  end.

Definition skip_spaces (s : string) : string := (span is_space s).2.

Definition parse_name (s : string) : option (string * string) :=
  match s with
  | String c _ => if is_name_start c then Some (span is_name_char s) else None
  | "" => None
  end.

(** [= "value"] after an attribute name. *)
Definition parse_attr_value (s : string) : option (string * string) :=
  match skip_spaces s with
  | String "="%char r =>
      match skip_spaces r with
      | String "034"%char r =>
          let '(value, r) := span is_attr_char r in
          match r with
          | String "034"%char r => Some (value, r)
          | _ => None
          end
      | _ => None
      end
  | _ => None
  end.

(** The attributes of a start tag, up to its [>] or [/>]. *)
Fixpoint parse_attributes (fuel : nat) (s : string) : option (dict string string * string) :=
  match fuel with
  | O => None
  | S fuel =>
      let '(ws, r) := span is_space s in
      match r with
      | String c _ =>
          if is_name_start c then
            match ws with
            | "" => None
            | _ =>
                '(name, r) ← parse_name r;
                '(value, r) ← parse_attr_value r;
                '(more, r) ← parse_attributes fuel r;
                if dict_contains name more then None else Some ((name, value) :: more, r)
            end
          else Some ([], r)
      | "" => Some ([], "")
      end
  end.

(** The text of an element: [None] when there is no character data. *)
Definition text_of (s : string) : option string :=
  match s with
  | "" => None
  | _ => Some s
  end.

(** An element whose [<] has been read, and the children of an element up
    to the end tag of the parent (the text after a child, its tail, is read
    and dropped). *)
Fixpoint parse_started (fuel : nat) (s : string) : option (Element * string) :=
  match fuel with
  | O => None
  | S fuel =>
      '(tag, s) ← parse_name s;
      '(attrib, s) ← parse_attributes (String.length s) s;
      match s with
      | String "/"%char (String ">"%char s) => Some (mk tag attrib None [], s)
      | String ">"%char s =>
          let '(text, s) := span is_char_data s in
          '(children, s) ← parse_children fuel s;
          '(tag', s) ← parse_name s;
          if String.eqb tag' tag then
            match skip_spaces s with
            | String ">"%char s => Some (mk tag attrib (text_of text) children, s)
            | _ => None
            end
          else None
      | _ => None
      end
  end
with parse_children (fuel : nat) (s : string) : option (list Element * string) :=
  match fuel with
  | O => None
  | S fuel =>
      match s with
      | String "<"%char (String c s' as s) =>
          if Ascii.eqb c "/" then Some ([], s')
          else
            '(child, s) ← parse_started fuel s;
            let '(_, s) := span is_char_data s in
            '(more, s) ← parse_children fuel s;
            Some (child :: more, s)
      | _ => None
      end
  end.

Definition parse_element (s : string) : option (Element * string) :=
  match s with
  | String "<"%char s => parse_started (String.length s) s
  | _ => None
  end.

(** The text after the first occurrence of a two-character mark. *)
Fixpoint after_mark (a b : ascii) (s : string) : option string :=
  match s with
  | String c r =>
      match r with
      | String c' r' => if Ascii.eqb c a && Ascii.eqb c' b then Some r' else after_mark a b r
      | "" => None
      end
  | "" => None
  end.

(** [s] without the prefix [p], when it starts with it. *)
Fixpoint strip_prefix (p s : string) : option string :=
  match p with
  | "" => Some s
  | String a p' =>
      match s with
      | String c s' => if Ascii.eqb c a then strip_prefix p' s' else None
      | "" => None
      end
  end.

(** White space and comments before the root. *)
Fixpoint skip_misc (fuel : nat) (s : string) : option string :=
  match fuel with
  | O => None
  | S fuel =>
      let s := skip_spaces s in
      match strip_prefix "<!--" s with
      | Some r =>
          match after_mark "-" "-" r with
          | Some (String ">"%char r) => skip_misc fuel r
          | _ => None
          end
      | None => Some s
      end
  end.

(** The declaration, if the text starts with one, then white space and
    comments. *)
Definition skip_prolog (s : string) : option string :=
  match strip_prefix "<?" s with
  | Some r => r ← after_mark "?" ">" r; skip_misc (S (String.length r)) r
  | None => skip_misc (S (String.length s)) s
  end.

Definition parse (contents : string) : option Element :=
  s ← skip_prolog contents;
  '(root, s) ← parse_element s;
  match skip_spaces s with
  | "" => Some root
  | _ => None
  end.

End ET.

(** ** class ExmaraldaTranscript *)

Module ExmaraldaTranscript.

(** The dictionary [meta_information]: its six keys are fixed by the
    constructor, so it is a record. *)
Record meta := mk_meta {
  project_name : string;
  transcription_name : string;
  referenced_file_url : list string;
  ud_meta_information : string;
  comment : string;
  transcription_convention : string
}.

Record t := mk {
  meta_information : meta;
  speaker_table : dict string Speaker.t;
  timeline : dict pyval Timepoint.t;
  tiers : dict string Tier.t
}.

Definition preface : string :=
  "<?xml version=" +:+ dq +:+ "1.0" +:+ dq +:+ " encoding=" +:+ dq +:+ "UTF-8" +:+ dq
    +:+ "?>" +:+ nl +:+ "<!-- (c) http://www.rrz.uni-hamburg.de/exmaralda -->" +:+ nl.

Definition __init__ (project_name transcription_name referenced_file_url
    ud_meta_information comment transcription_convention : string) : t :=
  let meta_information :=
    {| project_name := project_name;
       transcription_name := transcription_name;
       referenced_file_url := [];
       ud_meta_information := ud_meta_information;
       comment := comment;
       transcription_convention := transcription_convention |} in
  let meta_information :=
    if (len (strip referenced_file_url) >? 0)%Z
    then {| project_name := project_name;
            transcription_name := transcription_name;
            referenced_file_url := [] ++ [referenced_file_url];
            ud_meta_information := ud_meta_information;
            comment := comment;
            transcription_convention := transcription_convention |}
    else meta_information in
  {| meta_information := meta_information;
     speaker_table := [];
     timeline := [];
     tiers := [] |}.

(** *** Setters of the meta information *)

Definition with_meta (self : t) (m : meta) : t :=
  {| meta_information := m; speaker_table := speaker_table self;
     timeline := timeline self; tiers := tiers self |}.

Definition set_project_name (self : t) (project_name : string) : t :=
  let m := meta_information self in
  with_meta self
    {| project_name := project_name;
       transcription_name := transcription_name m;
       referenced_file_url := referenced_file_url m;
       ud_meta_information := ud_meta_information m;
       comment := comment m;
       transcription_convention := transcription_convention m |}.

Definition set_transcription_name (self : t) (transcription_name : string) : t :=
  let m := meta_information self in
  with_meta self
    {| project_name := project_name m;
       transcription_name := transcription_name;
       referenced_file_url := referenced_file_url m;
       ud_meta_information := ud_meta_information m;
       comment := comment m;
       transcription_convention := transcription_convention m |}.

Definition set_referenced_file_url (self : t) (referenced_file_url : string) : t :=
  let m := meta_information self in
  with_meta self
    {| project_name := project_name m;
       transcription_name := transcription_name m;
       referenced_file_url := [referenced_file_url];
       ud_meta_information := ud_meta_information m;
       comment := comment m;
       transcription_convention := transcription_convention m |}.

Definition add_referenced_file_url (self : t) (url : string) : t :=
  let m := meta_information self in
  with_meta self
    {| project_name := project_name m;
       transcription_name := transcription_name m;
       referenced_file_url := referenced_file_url m ++ [url];
       ud_meta_information := ud_meta_information m;
       comment := comment m;
       transcription_convention := transcription_convention m |}.

Definition set_ud_meta_information (self : t) (ud_meta_information : string) : t :=
  let m := meta_information self in
  with_meta self
    {| project_name := project_name m;
       transcription_name := transcription_name m;
       referenced_file_url := referenced_file_url m;
       ud_meta_information := ud_meta_information;
       comment := comment m;
       transcription_convention := transcription_convention m |}.

Definition set_comment (self : t) (comment : string) : t :=
  let m := meta_information self in
  with_meta self
    {| project_name := project_name m;
       transcription_name := transcription_name m;
       referenced_file_url := referenced_file_url m;
       ud_meta_information := ud_meta_information m;
       comment := comment;
       transcription_convention := transcription_convention m |}.

Definition set_transcription_convention (self : t) (transcription_convention : string) : t :=
  let m := meta_information self in
  with_meta self
    {| project_name := project_name m;
       transcription_name := transcription_name m;
       referenced_file_url := referenced_file_url m;
       ud_meta_information := ud_meta_information m;
       comment := comment m;
       transcription_convention := transcription_convention |}.

Definition get_project_name (self : t) : string := project_name (meta_information self).
Definition get_transcription_name (self : t) : string :=
  transcription_name (meta_information self).
Definition get_referenced_file_url (self : t) : list string :=
  referenced_file_url (meta_information self).
Definition get_ud_meta_information (self : t) : string :=
  ud_meta_information (meta_information self).
Definition get_comment (self : t) : string := comment (meta_information self).
Definition get_transcription_convention (self : t) : string :=
  transcription_convention (meta_information self).

(** *** Speakers *)

Definition with_speaker_table (self : t) (st : dict string Speaker.t) : t :=
  {| meta_information := meta_information self; speaker_table := st;
     timeline := timeline self; tiers := tiers self |}.

Definition contains_speaker (self : t) (speaker_id : string) : bool :=
  dict_contains speaker_id (speaker_table self).

Definition add_speaker (self : t) (speaker_id abbreviation sex : string)
    (languages_used l1 l2 : str_or_list)
    (ud_speaker_information comment : string) : t :=
  if negb (contains_speaker self speaker_id)
  then with_speaker_table self
         (dict_set speaker_id
            (Speaker.__init__ speaker_id abbreviation sex languages_used l1 l2
               ud_speaker_information comment)
            (speaker_table self))
  else self.

Definition overwrite_speaker (self : t) (speaker_id abbreviation sex : string)
    (languages_used l1 l2 : str_or_list)
    (ud_speaker_information comment : string) : t :=
  with_speaker_table self
    (dict_set speaker_id
       (Speaker.__init__ speaker_id abbreviation sex languages_used l1 l2
          ud_speaker_information comment)
       (speaker_table self)).

(** [None] stands for the [KeyError] of [self.speaker_table[speaker_id]]. *)
Definition get_speaker (self : t) (speaker_id : string) : option Speaker.t :=
  dict_get speaker_id (speaker_table self).

(** *** Tiers and events *)

Definition with_tiers (self : t) (ts : dict string Tier.t) : t :=
  {| meta_information := meta_information self; speaker_table := speaker_table self;
     timeline := timeline self; tiers := ts |}.

Definition with_timeline (self : t) (tl : dict pyval Timepoint.t) : t :=
  {| meta_information := meta_information self; speaker_table := speaker_table self;
     timeline := tl; tiers := tiers self |}.

Definition contains_tier (self : t) (tier_id : string) : bool :=
  dict_contains tier_id (tiers self).

Definition add_tier (self : t) (tier_id speaker tier_category tier_type display_name : string) : t :=
  if negb (dict_contains tier_id (tiers self))
  then with_tiers self
         (dict_set tier_id (Tier.__init__ tier_id speaker tier_category tier_type display_name)
            (tiers self))
  else self.

Definition get_tier (self : t) (tier_id : string) : option Tier.t :=
  dict_get tier_id (tiers self).

(** [add_event]: the new transcript and what was printed. *)
Definition add_event (self : t) (event : Event.t) (tier_id : string) : t * list printed :=
  if dict_contains tier_id (tiers self) then
      let self :=
        with_tiers self (dict_alter (fun tier => Tier.add_event tier event) tier_id (tiers self)) in
      let self :=
        if negb (dict_contains (Timepoint.time_id (Event.start event)) (timeline self))
        then with_timeline self
               (dict_set (Timepoint.time_id (Event.start event)) (Event.start event)
                  (timeline self))
        else self in
      let self :=
        if negb (dict_contains (Timepoint.time_id (Event.end_ event)) (timeline self))
        then with_timeline self
               (dict_set (Timepoint.time_id (Event.end_ event)) (Event.end_ event)
                  (timeline self))
        else self in
      (self, [])
  else
      (self, [print_keys (dict_keys (tiers self))]).

(** *** Printing *)

Definition print_meta_information (self : t) (indentation_level : Z) : string :=
  let indent := str_mul tab indentation_level in
  let rval := indent +:+ "<meta-information>" in
  let rval := rval +:+ (nl +:+ indent +:+ tab +:+ "<project-name>" +:+ get_project_name self
                          +:+ "</project-name>" +:+ nl) in
  let rval := rval +:+ (indent +:+ tab +:+ "<transcription-name>"
                          +:+ get_transcription_name self +:+ "</transcription-name>" +:+ nl) in
  let rval :=
    fold_left (fun rval ref_url =>
                 rval +:+ (indent +:+ tab +:+ "<referenced-file url=" +:+ dq +:+ ref_url
                             +:+ dq +:+ "/>" +:+ nl))
      (get_referenced_file_url self) rval in
  let rval := rval +:+ (indent +:+ tab +:+ "<ud-meta-information>"
                          +:+ get_ud_meta_information self +:+ "</ud-meta-information>" +:+ nl) in
  let rval := rval +:+ (indent +:+ tab +:+ "<comment>" +:+ get_comment self
                          +:+ "</comment>" +:+ nl) in
  let rval := rval +:+ (indent +:+ tab +:+ "<transcription-convention>"
                          +:+ get_transcription_convention self
                          +:+ "</transcription-convention>" +:+ nl) in
  let rval := rval +:+ (indent +:+ "</meta-information>") in
  rval.

Definition print_speaker_table (self : t) (indentation_level : Z) : string :=
  let indent := str_mul tab indentation_level in
  let rval := indent +:+ "<speakertable>" in
  if (Z.of_nat (length (speaker_table self)) =? 0)%Z then rval +:+ "</speakertable>"
  else
    let rval := rval +:+ nl in
    let rval :=
      fold_left (fun rval speaker =>
                   rval +:+ (Speaker.pretty_print speaker (indentation_level + 1) +:+ nl))
        (dict_at (speaker_table self) (sorted (dict_keys (speaker_table self)))) rval in
    rval +:+ (indent +:+ "</speakertable>").

Definition print_head (self : t) (indentation_level : Z) : string :=
  let indent := str_mul tab indentation_level in
  let rval := indent +:+ "<head>" in
  let rval := rval +:+ (nl +:+ print_meta_information self (indentation_level + 1) +:+ nl) in
  let rval := rval +:+ (nl +:+ print_speaker_table self (indentation_level + 1) +:+ nl) in
  let rval := rval +:+ (indent +:+ "</head>") in
  rval.

Definition print_timeline (self : t) (indentation_level : Z) : string :=
  let indent := str_mul tab indentation_level in
  let rval := indent +:+ "<common-timeline>" in
  if (Z.of_nat (length (timeline self)) =? 0)%Z then rval +:+ "</common-timeline>"
  else
    let rval := rval +:+ (nl +:+ join nl (map (fun tp => Timepoint.pretty_print tp (indentation_level + 1))
                                            (dict_at (timeline self) (dict_keys (timeline self))))) in
    let rval := rval +:+ (nl +:+ indent +:+ "</common-timeline>") in
    rval.

Definition print_body (self : t) (indentation_level : Z) : string :=
  let indent := str_mul tab indentation_level in
  let rval := indent +:+ "<basic-body>" in
  let rval := rval +:+ (nl +:+ print_timeline self (indentation_level + 1)) in
  let rval := rval +:+ (nl +:+ join nl (map (fun tier => Tier.pretty_print tier (indentation_level + 1))
                                          (dict_at (tiers self) (dict_keys (tiers self))))) in
  let rval := rval +:+ (nl +:+ indent +:+ "</basic-body>") in
  rval.

Definition print_transcript (self : t) (indentation_level : Z) (with_preface : bool) : string :=
  let indent := str_mul tab indentation_level in
  (if with_preface then preface else "") +:+ indent +:+ "<basic-transcription>" +:+ nl
    +:+ print_head self (indentation_level + 1) +:+ nl
    +:+ print_body self (indentation_level + 1) +:+ nl
    +:+ indent +:+ "</basic-transcription>" +:+ nl.

(** [__str__] *)
Definition __str__ (self : t) : string := print_transcript self 0 false.

(** *** The loader *)

(** [c_info.text.strip() if c_info.text is not None else ''] *)
Definition stripped_text (c_info : ET.Element) : string :=
  match ET.text c_info with
  | Some s => strip s
  | None => ""
  end.

(** The local variables of the speaker loop. *)
Record speaker_vars := mk_speaker_vars {
  v_abbr : string;
  v_sex : string;
  v_lang : list string;
  v_l1 : list string;
  v_l2 : list string;
  v_comment : string
}.

(** The six [if] statements of the body of [for c_child in c_spk_xml],
    each on the local variables. *)
Definition if_abbreviation (v : speaker_vars) (c_child : ET.Element) : speaker_vars :=
  match ET.text c_child with
  | Some x => if String.eqb (ET.tag c_child) "abbreviation"
              then mk_speaker_vars x (v_sex v) (v_lang v) (v_l1 v) (v_l2 v) (v_comment v)
              else v
  | None => v
  end.

Definition if_sex (v : speaker_vars) (c_child : ET.Element) : speaker_vars :=
  if String.eqb (ET.tag c_child) "sex" && dict_contains "value" (ET.attrib c_child)
  then mk_speaker_vars (v_abbr v) (default "" (dict_get "value" (ET.attrib c_child)))
         (v_lang v) (v_l1 v) (v_l2 v) (v_comment v)
  else v.

Definition if_l1 (v : speaker_vars) (c_child : ET.Element) : speaker_vars :=
  match ET.text c_child with
  | Some x => if String.eqb (ET.tag c_child) "l1"
              then mk_speaker_vars (v_abbr v) (v_sex v) (v_lang v) (v_l1 v ++ [x]) (v_l2 v)
                     (v_comment v)
              else v
  | None => v
  end.

Definition if_l2 (v : speaker_vars) (c_child : ET.Element) : speaker_vars :=
  match ET.text c_child with
  | Some x => if String.eqb (ET.tag c_child) "l2"
              then mk_speaker_vars (v_abbr v) (v_sex v) (v_lang v) (v_l1 v) (v_l2 v ++ [x])
                     (v_comment v)
              else v
  | None => v
  end.

Definition if_comment (v : speaker_vars) (c_child : ET.Element) : speaker_vars :=
  match ET.text c_child with
  | Some x => if String.eqb (ET.tag c_child) "comment"
              then mk_speaker_vars (v_abbr v) (v_sex v) (v_lang v) (v_l1 v) (v_l2 v) x
              else v
  | None => v
  end.

Definition if_languages_used (v : speaker_vars) (c_child : ET.Element) : speaker_vars :=
  match ET.text c_child with
  | Some x => if String.eqb (ET.tag c_child) "languages-used"
              then mk_speaker_vars (v_abbr v) (v_sex v) (v_lang v ++ [x]) (v_l1 v) (v_l2 v)
                     (v_comment v)
              else v
  | None => v
  end.

(** One round of [for c_child in c_spk_xml]. *)
Definition load_speaker_child (v : speaker_vars) (c_child : ET.Element) : speaker_vars :=
  let v := if_abbreviation v c_child in
  let v := if_sex v c_child in
  let v := if_l1 v c_child in
  let v := if_l2 v c_child in
  let v := if_comment v c_child in
  let v := if_languages_used v c_child in
  v.

(** One round of [for c_spk_xml in root.iter('speaker')]. *)
Definition load_speaker (rval_transcript : t) (c_spk_xml : ET.Element) : result t :=
  let v := fold_left load_speaker_child (ET.children c_spk_xml)
             (mk_speaker_vars "" "" [] [] [] "") in
  speaker_id ← ET.attr "id" c_spk_xml;
  mret (add_speaker rval_transcript speaker_id (v_abbr v) (v_sex v)
          (Lst (v_lang v)) (Lst (v_l1 v)) (Lst (v_l2 v)) "" (v_comment v)).

(** A loop whose body may raise: the first [KeyError] ends it. *)
Definition for_each {S X : Type} (body : S -> X -> result S) (xs : list X) (s : S) : result S :=
  fold_left (fun r x => s ← r; body s x) xs (Ok s).

(** One round of [for time_info in root.iter('tli')], on the transcript
    and [Timepoint.running_id].  A time point that the assignment to
    [timeline[...]] replaces has no other reference and is destroyed. *)
Definition load_tli (st : t * Z) (time_info : ET.Element) : result (t * Z) :=
  let '(rval_transcript, running_id) := st in
  time ← ET.attr "time" time_info;
  let '(new_tp, running_id) := Timepoint.__init__ running_id (PyStr time) "" in
  id ← ET.attr "id" time_info;
  let new_tp := Timepoint.set_time_id new_tp (PyStr (drop_first id)) in
  let running_id :=
    if dict_contains (Timepoint.time_id new_tp) (timeline rval_transcript)
    then Timepoint.__del__ running_id else running_id in
  mret (with_timeline rval_transcript
          (dict_set (Timepoint.time_id new_tp) new_tp (timeline rval_transcript)),
        running_id).

(** The state of the tier loop: the transcript, [Timepoint.running_id]
    and what was printed so far. *)
Definition load_state : Type := t * Z * list printed.

(** One round of [for event_xml in current_tier_xml]. *)
Definition load_event (c_tier_id : string) (st : load_state) (event_xml : ET.Element)
    : result load_state :=
  let '(rval_transcript, running_id, out) := st in
  if negb (String.eqb (ET.tag event_xml) "event")
  then mret (rval_transcript, running_id,
             out ++ [print_text "Issue: something unexpected in tier "])
  else
    let '(tp1, running_id) := Timepoint.__init__ running_id (PyInt (-1)) "" in
    start ← ET.attr "start" event_xml;
    let tp1 := Timepoint.set_time_id tp1 (PyStr (drop_first start)) in
    let '(tp2, running_id) := Timepoint.__init__ running_id (PyInt (-1)) "" in
    end_ ← ET.attr "end" event_xml;
    let tp2 := Timepoint.set_time_id tp2 (PyStr (drop_first end_)) in
    let '(rval_transcript, pr) :=
      add_event rval_transcript
        (Event.__init__ tp1 tp2 (default "" (ET.text event_xml))) c_tier_id in
    mret (rval_transcript, running_id, out ++ pr).

(** One round of [for current_tier_xml in root.iter('tier')]. *)
Definition load_tier (st : load_state) (current_tier_xml : ET.Element) : result load_state :=
  let '(rval_transcript, running_id, out) := st in
  let c_tier_id := ET.attr_or_empty "id" current_tier_xml in
  let rval_transcript :=
    add_tier rval_transcript c_tier_id
      (ET.attr_or_empty "speaker" current_tier_xml)
      (ET.attr_or_empty "category" current_tier_xml)
      (ET.attr_or_empty "type" current_tier_xml)
      (ET.attr_or_empty "display-name" current_tier_xml) in
  for_each (load_event c_tier_id) (ET.children current_tier_xml)
    (rval_transcript, running_id, out).

(** [load], from the root of the parsed file and the value of
    [Timepoint.running_id] at the call: the transcript, the running id and
    what was printed. *)
Definition load (root : ET.Element) (running_id : Z) : result load_state :=
  let rval_transcript := __init__ "" "" "" "" "" "" in
  (* load meta information *)
  let rval_transcript :=
    fold_left (fun d c_info => set_project_name d (stripped_text c_info))
      (ET.iter "project-name" root) rval_transcript in
  let rval_transcript :=
    fold_left (fun d c_info => set_transcription_name d (stripped_text c_info))
      (ET.iter "transcription-name" root) rval_transcript in
  let rval_transcript :=
    fold_left (fun d c_info => set_transcription_convention d (stripped_text c_info))
      (ET.iter "transcription-convention>" root) rval_transcript in
  let rval_transcript :=
    fold_left (fun d c_info => set_comment d (stripped_text c_info))
      (ET.iter "<comment>" root) rval_transcript in
  (* load speaker information *)
  rval_transcript ← for_each load_speaker (ET.iter "speaker" root) rval_transcript;
  (* load timelines *)
  st ← for_each load_tli (ET.iter "tli" root) (rval_transcript, running_id);
  (* load tiers and events *)
  for_each load_tier (ET.iter "tier" root) (st, []).

End ExmaraldaTranscript.

(** ** Documents built by the public construction operations *)

Module Build.
Import ExmaraldaTranscript.

(** One call of a public construction operation on a transcript. *)
Inductive op :=
| SetProjectName (project_name : string)
| SetTranscriptionName (transcription_name : string)
| SetReferencedFileUrl (referenced_file_url : string)
| AddReferencedFileUrl (referenced_file_url : string)
| SetUdMetaInformation (ud_meta_information : string)
| SetComment (comment : string)
| SetTranscriptionConvention (transcription_convention : string)
| AddSpeaker (speaker_id abbreviation sex : string) (languages_used l1 l2 : str_or_list)
             (ud_speaker_information comment : string)
| OverwriteSpeaker (speaker_id abbreviation sex : string) (languages_used l1 l2 : str_or_list)
                   (ud_speaker_information comment : string)
| AddTier (tier_id speaker tier_category tier_type display_name : string)
| AddEvent (event : Event.t) (tier_id : string).

Definition run_op (d : t) (o : op) : t :=
  match o with
  | SetProjectName s => set_project_name d s
  | SetTranscriptionName s => set_transcription_name d s
  | SetReferencedFileUrl s => set_referenced_file_url d s
  | AddReferencedFileUrl s => add_referenced_file_url d s
  | SetUdMetaInformation s => set_ud_meta_information d s
  | SetComment s => set_comment d s
  | SetTranscriptionConvention s => set_transcription_convention d s
  | AddSpeaker i a s lu l1 l2 ud c => add_speaker d i a s lu l1 l2 ud c
  | OverwriteSpeaker i a s lu l1 l2 ud c => overwrite_speaker d i a s lu l1 l2 ud c
  | AddTier i s c ty dn => add_tier d i s c ty dn
  | AddEvent e i => fst (add_event d e i)
  end.

(** The arguments of the constructor. *)
Record init_args := mk_init_args {
  a_project_name : string;
  a_transcription_name : string;
  a_referenced_file_url : string;
  a_ud_meta_information : string;
  a_comment : string;
  a_transcription_convention : string
}.

Definition construct (a : init_args) : t :=
  __init__ (a_project_name a) (a_transcription_name a) (a_referenced_file_url a)
    (a_ud_meta_information a) (a_comment a) (a_transcription_convention a).

(** The transcript after the constructor and a sequence of operations. *)
Definition build (a : init_args) (ops : list op) : t := fold_left run_op ops (construct a).

(** Every event of every tier has both endpoint identifiers among the keys
    of the timeline. *)
Definition endpoints_in_timeline (d : t) : Prop :=
  forall tier e,
    tier ∈ dict_values (tiers d) -> e ∈ Tier.event_list tier ->
    Event.get_start_id e ∈ dict_keys (timeline d)
    /\ Event.get_end_id e ∈ dict_keys (timeline d).

(** The keys of the speaker table are distinct and each speaker is stored
    under its own identifier. *)
Definition speakers_keyed (d : t) : Prop :=
  NoDup (dict_keys (speaker_table d))
  /\ forall k s, (k, s) ∈ speaker_table d -> Speaker.speaker_id s = k.

(** The timeline after [add_event] on a known tier: the old one, then the
    start point if its identifier was absent, then the end point if its
    identifier is still absent. *)
Definition new_endpoints (tl : dict pyval Timepoint.t) (e : Event.t) : dict pyval Timepoint.t :=
  let s := if dict_contains (Event.get_start_id e) tl then []
           else [(Event.get_start_id e, Event.start e)] in
  let n := if dict_contains (Event.get_end_id e) (tl ++ s) then []
           else [(Event.get_end_id e, Event.end_ e)] in
  s ++ n.

End Build.

(** ** The identifier allocator as a sequence of constructions and destructions *)

Module Allocator.

(** What happens to [Timepoint.running_id]: a call of the constructor, or
    the destruction of a time point (the interpreter runs [__del__]). *)
Inductive step :=
| Construct (time_stamp : pyval) (type : string)
| Destroy.

(** The time points constructed by a sequence of steps, in order, and the
    final running id. *)
Fixpoint run (running_id : Z) (steps : list step) : list Timepoint.t * Z :=
  match steps with
  | [] => ([], running_id)
  | Construct ts ty :: r =>
      let '(tp, running_id) := Timepoint.__init__ running_id ts ty in
      let '(tps, running_id) := run running_id r in
      (tp :: tps, running_id)
  | Destroy :: r => run (Timepoint.__del__ running_id) r
  end.

(** The identifiers minted, in order. *)
Definition minted (running_id : Z) (steps : list step) : list pyval :=
  map Timepoint.time_id (run running_id steps).1.

(** A sequence of steps destroys only time points it has constructed:
    no prefix holds more destructions than constructions. *)
Fixpoint balanced_from (live : nat) (steps : list step) : bool :=
  match steps with
  | [] => true
  | Construct _ _ :: r => balanced_from (S live) r
  | Destroy :: r => match live with O => false | S n => balanced_from n r end
  end.

Definition balanced (steps : list step) : bool := balanced_from 0 steps.

Definition is_construct (s : step) : bool :=
  match s with Construct _ _ => true | Destroy => false end.

(** The number of constructions and of destructions in a sequence. *)
Definition constructions (steps : list step) : Z :=
  Z.of_nat (length (filter (fun s => is_construct s = true) steps)).

Definition destructions (steps : list step) : Z :=
  Z.of_nat (length (filter (fun s => is_construct s = false) steps)).

(** Each identifier is an int strictly greater than every one before it. *)
Definition strictly_increasing (ids : list pyval) : Prop :=
  forall i j a b, (i < j)%nat -> ids !! i = Some a -> ids !! j = Some b ->
    exists x y, a = PyInt x /\ b = PyInt y /\ (x < y)%Z.

End Allocator.

(** ** Vocabulary for the properties of the loader *)

Module Loaded.
Import ExmaraldaTranscript.

(** The stripped text of the last element of a list, empty when the list
    is empty: what a loop of setters over the list leaves in a field. *)
Definition last_stripped_text (l : list ET.Element) : string :=
  match last l with
  | Some c_info => stripped_text c_info
  | None => ""
  end.

(** An element carries the attribute [k]. *)
Definition has_attr (k : string) (e : ET.Element) : Prop := k ∈ dict_keys (ET.attrib e).

(** The attributes that [load] reads without a guard are present: [id]
    on every speaker, [time] and [id] on every [tli], [start] and [end] on
    every event of a tier. *)
Definition required_attributes (root : ET.Element) : Prop :=
  (forall x, x ∈ ET.iter "speaker" root -> has_attr "id" x)
  /\ (forall x, x ∈ ET.iter "tli" root -> has_attr "time" x /\ has_attr "id" x)
  /\ (forall x y, x ∈ ET.iter "tier" root -> y ∈ ET.children x -> ET.tag y = "event" ->
        has_attr "start" y /\ has_attr "end" y).

(** The values of the local variables after the loop over the children of
    a speaker element. *)
Definition speaker_vars_of (c_spk_xml : ET.Element) : speaker_vars :=
  fold_left load_speaker_child (ET.children c_spk_xml) (mk_speaker_vars "" "" [] [] [] "").

(** A tier without its events. *)
Definition tier_header (tier : Tier.t) : Tier.t :=
  Tier.mk (Tier.id tier) (Tier.speaker tier) (Tier.category tier) (Tier.type tier)
    (Tier.display_name tier) [].

(** The speaker that [load] registers for a speaker element that carries
    an [id]. *)
Definition speaker_of_xml (c_spk_xml : ET.Element) : Speaker.t :=
  let v := speaker_vars_of c_spk_xml in
  Speaker.__init__ (default "" (dict_get "id" (ET.attrib c_spk_xml)))
    (v_abbr v) (v_sex v) (Lst (v_lang v)) (Lst (v_l1 v)) (Lst (v_l2 v)) "" (v_comment v).

(** The tiers without their events. *)
Definition tier_headers (ts : dict string Tier.t) : dict string Tier.t :=
  (fun kv => (kv.1, tier_header kv.2)) <$> ts.

(** The tier that [load] registers for a tier element. *)
Definition tier_of_xml (x : ET.Element) : Tier.t :=
  Tier.__init__ (ET.attr_or_empty "id" x) (ET.attr_or_empty "speaker" x)
    (ET.attr_or_empty "category" x) (ET.attr_or_empty "type" x)
    (ET.attr_or_empty "display-name" x).

(** [d[k] = v] unless [k] is a key already. *)
Definition dict_add_absent {K V} `{EqDecision K} (k : K) (v : V) (d : dict K V) : dict K V :=
  if dict_contains k d then d else dict_set k v d.

(** The entries of the elements of a list, each added unless its key is
    taken. *)
Definition register_all {K V X} `{EqDecision K} (key : X -> K) (val : X -> V)
    (l : list X) (d : dict K V) : dict K V :=
  fold_left (fun d x => dict_add_absent (key x) (val x) d) l d.

(** An input whose only tier carries nothing but its identifier, and a
    speaker block with nothing but its identifier. *)
Definition bare_speaker : ET.Element := ET.mk "speaker" [("id", "SPK0")] None [].

Definition bare_input : ET.Element :=
  ET.mk "basic-transcription" [] None
    [ET.mk "head" [] None
       [ET.mk "speakertable" [] None [bare_speaker]];
     ET.mk "basic-body" [] None
       [ET.mk "common-timeline" [] None [];
        ET.mk "tier" [("id", "TIE0")] None []]].

(** A leaf element: a tag, attributes and text, no children. *)
Definition leaf (tag : string) (attrib : dict string string) (text : option string) : ET.Element :=
  ET.mk tag attrib text [].

(** A small input: a head whose project name is padded with blanks and
    whose comment is set, and an empty body. *)
Definition padded_input : ET.Element :=
  ET.mk "basic-transcription" [] None
    [ET.mk "head" [] None
       [ET.mk "meta-information" [] None
          [leaf "project-name" [] (Some " My Test Project ");
           leaf "transcription-name" [] (Some "Exmaralda");
           leaf "comment" [] (Some "This is nonsense.");
           leaf "transcription-convention" [] (Some "Everything goes...")];
        leaf "speakertable" [] None];
     ET.mk "basic-body" [] None [leaf "common-timeline" [] None]].

End Loaded.

(** ** Vocabulary for the serialized text *)

Module Markup.

(** Every character of a string satisfies [p]. *)
Fixpoint str_forallb (p : ascii -> bool) (s : string) : bool :=
  match s with
  | "" => true
  | String c r => p c && str_forallb p r
  end.

(** A string that is kept as it is as the text of an element, as the
    value of an attribute, and one that is a name. *)
Definition text_clean (s : string) : bool := str_forallb ET.is_char_data s.

Definition attr_clean (s : string) : bool := str_forallb ET.is_attr_char s.

Definition good_name (s : string) : bool :=
  match s with
  | String c _ => ET.is_name_start c && str_forallb ET.is_name_char s
  | "" => false
  end.

(** A string is empty or starts with a character that fails [p]. *)
Definition stops (p : ascii -> bool) (s : string) : Prop :=
  match s with
  | "" => True
  | String c _ => p c = false
  end.

(** A string starts with [>] or with [/]: what follows the attributes of
    a start tag. *)
Definition closes (s : string) : Prop :=
  match s with
  | String c _ => c = ">"%char \/ c = "/"%char
  | "" => False
  end.

(** [str] is the text of the attributes [a] of a start tag: whatever
    closes the tag after it, the parser reads [a] from it. *)
Definition attrs_text (str : string) (a : dict string string) : Prop :=
  stops ET.is_name_char str
  /\ forall rest fuel, closes rest -> (String.length (str +:+ rest) <= fuel)%nat ->
       ET.parse_attributes fuel (str +:+ rest) = Some (a, rest).

(** [s] is the text of the element [e] from after its [<]. *)
Definition elem_text (s : string) (e : ET.Element) : Prop :=
  (exists c r, s = String c r /\ ET.is_name_start c = true)
  /\ forall rest fuel, (String.length (s +:+ rest) <= fuel)%nat ->
       ET.parse_started fuel (s +:+ rest) = Some (e, rest).

(** [s] is the text of the children [es], up to the end tag of their
    parent. *)
Definition kids_text (s : string) (es : list ET.Element) : Prop :=
  stops ET.is_char_data s
  /\ forall rest fuel, (String.length (s +:+ "</" +:+ rest) <= fuel)%nat ->
       ET.parse_children fuel (s +:+ "</" +:+ rest) = Some (es, rest).

End Markup.

(** ** The element tree of the serialized text *)

Module Tree.
Import ExmaraldaTranscript.

(** An element that holds text only. *)
Definition text_elem (tag txt : string) : ET.Element := ET.mk tag [] (ET.text_of txt) [].

Definition event_tree (e : Event.t) : ET.Element :=
  ET.mk "event"
    [("start", "T" +:+ py_format (Event.get_start_id e));
     ("end", "T" +:+ py_format (Event.get_end_id e))]
    (ET.text_of (Event.content e)) [].

Definition tli_tree (tp : Timepoint.t) : ET.Element :=
  ET.mk "tli"
    ([("id", "T" +:+ py_format (Timepoint.get_time_id tp))]
       ++ (if py_eq (Timepoint.time_stamp tp) (PyInt (-1)) then []
           else [("time", py_format (Timepoint.time_stamp tp))])
       ++ (if (len (Timepoint.type tp) =? 0)%Z then [] else [("type", Timepoint.type tp)]))
    None [].

Definition tier_tree (indentation_level : Z) (tier : Tier.t) : ET.Element :=
  ET.mk "tier"
    ([("id", Tier.id tier)]
       ++ (if (len (Tier.speaker tier) >? 0)%Z then [("speaker", Tier.speaker tier)] else [])
       ++ [("category", Tier.category tier); ("type", Tier.type tier);
           ("display-name", Tier.display_name tier)])
    (match Tier.event_list tier with
     | [] => None
     | _ => Some (nl +:+ str_mul tab (indentation_level + 1))
     end)
    (map event_tree (Tier.event_list tier)).

Definition speaker_tree (indentation_level : Z) (s : Speaker.t) : ET.Element :=
  ET.mk "speaker" [("id", Speaker.speaker_id s)]
    (Some (linesep +:+ str_mul tab indentation_level +:+ tab))
    [text_elem "abbreviation" (Speaker.abbreviation s);
     ET.mk "sex" [("value", Speaker.sex s)] None [];
     text_elem "languages-used" (join ", " (Speaker.languages_used s));
     text_elem "l1" (join ", " (Speaker.l1 s));
     text_elem "l2" (join ", " (Speaker.l2 s));
     text_elem "ud-speaker-information" (Speaker.ud_speaker_information s);
     text_elem "comment" (Speaker.comment s)].

Definition meta_tree (indentation_level : Z) (d : t) : ET.Element :=
  ET.mk "meta-information" []
    (Some (nl +:+ str_mul tab indentation_level +:+ tab))
    ([text_elem "project-name" (get_project_name d);
      text_elem "transcription-name" (get_transcription_name d)]
       ++ map (fun ref_url => ET.mk "referenced-file" [("url", ref_url)] None [])
            (get_referenced_file_url d)
       ++ [text_elem "ud-meta-information" (get_ud_meta_information d);
           text_elem "comment" (get_comment d);
           text_elem "transcription-convention" (get_transcription_convention d)]).

(** The speakers in the order of the printed table. *)
Definition sorted_speakers (d : t) : list Speaker.t :=
  dict_at (speaker_table d) (sorted (dict_keys (speaker_table d))).

Definition speakertable_tree (indentation_level : Z) (d : t) : ET.Element :=
  ET.mk "speakertable" []
    (match sorted_speakers d with
     | [] => None
     | _ => Some (nl +:+ str_mul tab (indentation_level + 1))
     end)
    (map (speaker_tree (indentation_level + 1)) (sorted_speakers d)).

Definition head_tree (indentation_level : Z) (d : t) : ET.Element :=
  ET.mk "head" [] (Some (nl +:+ str_mul tab (indentation_level + 1)))
    [meta_tree (indentation_level + 1) d; speakertable_tree (indentation_level + 1) d].

(** The time points and the tiers in the order of the printed body. *)
Definition timepoints (d : t) : list Timepoint.t :=
  dict_at (timeline d) (dict_keys (timeline d)).

Definition tier_list (d : t) : list Tier.t := dict_at (tiers d) (dict_keys (tiers d)).

Definition timeline_tree (indentation_level : Z) (d : t) : ET.Element :=
  ET.mk "common-timeline" []
    (match timepoints d with
     | [] => None
     | _ => Some (nl +:+ str_mul tab (indentation_level + 1))
     end)
    (map tli_tree (timepoints d)).

Definition body_tree (indentation_level : Z) (d : t) : ET.Element :=
  ET.mk "basic-body" [] (Some (nl +:+ str_mul tab (indentation_level + 1)))
    (timeline_tree (indentation_level + 1) d
       :: map (tier_tree (indentation_level + 1)) (tier_list d)).

(** The root that the parser builds from [print_transcript]. *)
Definition document_tree (indentation_level : Z) (d : t) : ET.Element :=
  ET.mk "basic-transcription" [] (Some (nl +:+ str_mul tab (indentation_level + 1)))
    [head_tree (indentation_level + 1) d; body_tree (indentation_level + 1) d].

(** [s] is the indentation [indent], a [<] and the text of the element
    [e]. *)
Definition prints (s indent : string) (e : ET.Element) : Prop :=
  exists body, s = indent +:+ "<" +:+ body /\ Markup.elem_text body e.

End Tree.

(** ** Transcripts whose strings the serialized text keeps as they are *)

Module Clean.
Import ExmaraldaTranscript Markup Tree.

Definition event_clean (e : Event.t) : bool :=
  attr_clean (py_format (Event.get_start_id e))
  && attr_clean (py_format (Event.get_end_id e))
  && text_clean (Event.content e).

(** A time point with clean strings whose time stamp is set. *)
Definition timepoint_clean (tp : Timepoint.t) : bool :=
  attr_clean (py_format (Timepoint.time_id tp))
  && attr_clean (py_format (Timepoint.time_stamp tp))
  && attr_clean (Timepoint.type tp)
  && negb (py_eq (Timepoint.time_stamp tp) (PyInt (-1))).

Definition tier_clean (tier : Tier.t) : bool :=
  attr_clean (Tier.id tier) && attr_clean (Tier.speaker tier)
  && attr_clean (Tier.category tier) && attr_clean (Tier.type tier)
  && attr_clean (Tier.display_name tier)
  && forallb event_clean (Tier.event_list tier).

Definition speaker_clean (s : Speaker.t) : bool :=
  attr_clean (Speaker.speaker_id s) && text_clean (Speaker.abbreviation s)
  && attr_clean (Speaker.sex s)
  && text_clean (join ", " (Speaker.languages_used s))
  && text_clean (join ", " (Speaker.l1 s))
  && text_clean (join ", " (Speaker.l2 s))
  && text_clean (Speaker.ud_speaker_information s)
  && text_clean (Speaker.comment s).

Definition meta_clean (m : meta) : bool :=
  text_clean (project_name m) && text_clean (transcription_name m)
  && forallb attr_clean (referenced_file_url m)
  && text_clean (ud_meta_information m) && text_clean (comment m)
  && text_clean (transcription_convention m).

(** A transcript whose strings the text keeps as they are. *)
Definition clean (d : t) : Prop :=
  meta_clean (meta_information d) = true
  /\ forallb speaker_clean (sorted_speakers d) = true
  /\ forallb timepoint_clean (timepoints d) = true
  /\ forallb tier_clean (tier_list d) = true.

End Clean.

(** ** What the loader rebuilds from the printed transcript *)

Module Reload.
Import ExmaraldaTranscript Tree.

(** A language list after a round trip: its entries joined into one, or
    nothing when the joined text is empty. *)
Definition rejoin (l : list string) : list string :=
  match ET.text_of (join ", " l) with
  | Some x => [x]
  | None => []
  end.

Definition reload_speaker (s : Speaker.t) : Speaker.t :=
  Speaker.mk (Speaker.speaker_id s) (Speaker.abbreviation s) (Speaker.sex s)
    (rejoin (Speaker.languages_used s)) (rejoin (Speaker.l1 s)) (rejoin (Speaker.l2 s))
    "" (Speaker.comment s).

(** A time point of the timeline after a round trip: identifier and time
    stamp are the strings that were printed, the type is gone. *)
Definition reload_timepoint (tp : Timepoint.t) : Timepoint.t :=
  Timepoint.mk (PyStr (py_format (Timepoint.time_stamp tp)))
    (PyStr (py_format (Timepoint.time_id tp))) "".

(** The endpoint of an event after a round trip: a time point without
    time stamp that carries the printed identifier. *)
Definition placeholder (time_id : pyval) : Timepoint.t :=
  Timepoint.mk (PyInt (-1)) (PyStr (py_format time_id)) "".

Definition reload_event (e : Event.t) : Event.t :=
  Event.mk (placeholder (Event.get_start_id e)) (placeholder (Event.get_end_id e))
    (Event.content e).

Definition reload_tier (tier : Tier.t) : Tier.t :=
  Tier.mk (Tier.id tier) (Tier.speaker tier) (Tier.category tier) (Tier.type tier)
    (Tier.display_name tier) (map reload_event (Tier.event_list tier)).

Definition reloaded (d : t) : t :=
  mk (mk_meta (strip (get_project_name d)) (strip (get_transcription_name d)) [] "" "" "")
     (map (fun s => (Speaker.speaker_id s, reload_speaker s)) (sorted_speakers d))
     (map (fun tp => (PyStr (py_format (Timepoint.time_id tp)), reload_timepoint tp))
        (timepoints d))
     (map (fun tier => (Tier.id tier, reload_tier tier)) (tier_list d)).

(** The number of events of a transcript. *)
Definition event_count (d : t) : Z :=
  Z.of_nat (length (flat_map Tier.event_list (tier_list d))).

(** What [load] needs of a transcript to rebuild it from its tree: time
    stamps that are set, identifiers of speakers and of tiers that are
    distinct, identifiers of time points that are distinct as printed, and
    the endpoints of the events among them. *)
Definition loadable (d : t) : Prop :=
  Forall (fun tp => py_eq (Timepoint.time_stamp tp) (PyInt (-1)) = false) (timepoints d)
  /\ NoDup (map Speaker.speaker_id (sorted_speakers d))
  /\ NoDup (map (fun tp => py_format (Timepoint.time_id tp)) (timepoints d))
  /\ NoDup (map Tier.id (tier_list d))
  /\ Forall (fun e =>
       py_format (Event.get_start_id e)
         ∈ map (fun tp => py_format (Timepoint.time_id tp)) (timepoints d)
       /\ py_format (Event.get_end_id e)
            ∈ map (fun tp => py_format (Timepoint.time_id tp)) (timepoints d))
       (flat_map Tier.event_list (tier_list d)).

(** Both endpoints of an event are keys of the timeline, as the strings
    that are printed for them. *)
Definition endpoints_loaded (d : t) (e : Event.t) : Prop :=
  PyStr (py_format (Event.get_start_id e)) ∈ dict_keys (timeline d)
  /\ PyStr (py_format (Event.get_end_id e)) ∈ dict_keys (timeline d).

(** The keys of a dictionary are distinct and every value is stored under
    its own identifier. *)
Definition keyed {K V} (key : V -> K) (d : dict K V) : Prop :=
  NoDup (dict_keys d) /\ forall k v, (k, v) ∈ d -> key v = k.

End Reload.

(** ** A small transcript *)

Module Demo.
Import ExmaraldaTranscript Build.

(** Two time points from the constructor, with the running id at 0, and
    an event between them. *)
Definition demo_event : Event.t :=
  let '(s, running_id) := Timepoint.__init__ 0 (PyStr "0.0") "" in
  let '(e, running_id) := Timepoint.__init__ running_id (PyStr "0.1") "" in
  Event.__init__ s e "Hallo".

Definition demo_args : init_args := mk_init_args "My Test Project" "Exmaralda" "" "" "" "".

Definition demo_ops : list op :=
  [AddSpeaker "SPK0" "Anna" "f" (Lst ["deutsch"; "englisch"]) (Lst ["russisch"])
     (Lst ["deutsch"; "englisch"]) "" "";
   AddTier "TIE0" "SPK0" "v" "t" "Anna";
   AddEvent demo_event "TIE0"].

Definition demo : t := build demo_args demo_ops.

End Demo.

(** ** Vocabulary for what the loader visits *)

Module Loading.
Import ExmaraldaTranscript.

(** The tags of an element and of its descendants. *)
Fixpoint tags (e : ET.Element) : list string :=
  match e with
  | ET.mk t _ _ cs => t :: flat_map tags cs
  end.

(** The children of the tier elements, in the order of the tier loop. *)
Definition tier_children (root : ET.Element) : list ET.Element :=
  flat_map ET.children (ET.iter "tier" root).

Definition is_event (y : ET.Element) : bool := String.eqb (ET.tag y) "event".

(** The line that the tier loop prints for a child that is no event. *)
Definition issue : printed := print_text "Issue: something unexpected in tier ".

Definition issues (l : list ET.Element) : list printed :=
  map (fun _ => issue) (List.filter (fun y => negb (is_event y)) l).

(** The event that the tier loop builds from an event element: two fresh
    time points without time stamp that carry the identifiers of the
    [start] and [end] attributes, and the text. *)
Definition attr_tail (k : string) (y : ET.Element) : pyval :=
  PyStr (drop_first (default "" (dict_get k (ET.attrib y)))).

Definition event_of_xml (y : ET.Element) : Event.t :=
  Event.__init__ (Timepoint.mk (PyInt (-1)) (attr_tail "start" y) "")
    (Timepoint.mk (PyInt (-1)) (attr_tail "end" y) "")
    (default "" (ET.text y)).

(** The events of the children of a tier element, added to the tier. *)
Definition add_events (tier_id : string) (ys : list ET.Element) (d : t) : t :=
  fold_left (fun d y => if is_event y then fst (add_event d (event_of_xml y) tier_id) else d)
    ys d.

Definition count_events (ys : list ET.Element) : Z :=
  Z.of_nat (length (List.filter is_event ys)).

(** The key under which the timeline loop stores a [tli] element. *)
Definition tli_key (x : ET.Element) : pyval := attr_tail "id" x.

(** The time point that the timeline loop stores for a [tli] element. *)
Definition timepoint_of_xml (x : ET.Element) : Timepoint.t :=
  Timepoint.mk (PyStr (default "" (dict_get "time" (ET.attrib x)))) (tli_key x) "".

(** The transcript after the tier loop over the elements [xs]. *)
Definition add_tiers (xs : list ET.Element) (d : t) : t :=
  fold_left (fun d x =>
               add_events (ET.attr_or_empty "id" x) (ET.children x)
                 (add_tier d (ET.attr_or_empty "id" x) (ET.attr_or_empty "speaker" x)
                    (ET.attr_or_empty "category" x) (ET.attr_or_empty "type" x)
                    (ET.attr_or_empty "display-name" x)))
    xs d.

(** The timeline after the timeline loop over the elements [xs]. *)
Definition add_tlis (xs : list ET.Element) (tl : dict pyval Timepoint.t)
    : dict pyval Timepoint.t :=
  fold_left (fun tl x => dict_set (tli_key x) (timepoint_of_xml x) tl) xs tl.

(** A file with a tier that holds, besides an event, an element that is
    no event, and with an event that ends at a time point that the
    timeline does not declare. *)
Definition noisy_input : ET.Element :=
  ET.mk "basic-transcription" [] None
    [ET.mk "head" [] None
       [ET.mk "meta-information" [] None
          [ET.mk "project-name" [] (Some "P") [];
           ET.mk "referenced-file" [("url", "a.wav")] None [];
           ET.mk "ud-meta-information" [] (Some "x") [];
           ET.mk "comment" [] (Some "c") [];
           ET.mk "transcription-convention" [] (Some "HIAT") []];
        ET.mk "speakertable" [] None
          [ET.mk "speaker" [("id", "SPK0")] None
             [ET.mk "abbreviation" [] (Some "A") [];
              ET.mk "ud-speaker-information" [] (Some "u") []]]];
     ET.mk "basic-body" [] None
       [ET.mk "common-timeline" [] None
          [ET.mk "tli" [("id", "T0"); ("time", "0.0"); ("type", "appl")] None [];
           ET.mk "tli" [("id", "T1"); ("time", "1.5")] None [];
           ET.mk "tli" [("id", "T0"); ("time", "0.1")] None []];
        ET.mk "tier" [("id", "TIE0"); ("speaker", "SPK0"); ("category", "v"); ("type", "t")]
          None
          [ET.mk "ud-tier-information" [] None [];
           ET.mk "event" [("start", "T0"); ("end", "T1")] (Some "Hallo") [];
           ET.mk "event" [("start", "T1"); ("end", "T2")] (Some "Anna!") []]]].

End Loading.

(** ** generalhelper.TSVDump *)

Module TSVDump.
Import ExmaraldaTranscript.

(** What [generate_cold_data_dump] can raise: the [KeyError] of a lookup
    and the [TypeError] of [str + int]. *)
Inductive raised :=
| RaisedKeyError (key : pyval)
| RaisedTypeError.

Inductive outcome (A : Type) :=
| Returns (a : A)
| Raises (e : raised).
Arguments Returns {A} a.
Arguments Raises {A} e.

(** A loop whose body may raise: the first exception ends it. *)
Definition loop {S X : Type} (body : S -> X -> outcome S) (xs : list X) (s : S) : outcome S :=
  fold_left (fun r x => match r with Returns s => body s x | Raises e => Raises e end)
    xs (Returns s).

(** [s.endswith(suffix)] *)
Definition endswith (s suffix : string) : bool :=
  (String.length suffix <=? String.length s)%nat
  && String.eqb (String.substring (String.length s - String.length suffix)
                   (String.length suffix) s) suffix.

(** The first line of the table. *)
Definition header : string :=
  "Tier-ID" +:+ tab +:+ "Type" +:+ tab +:+ "Display Name" +:+ tab +:+ "Category" +:+ tab
    +:+ "Speaker-ID" +:+ tab +:+ "Abbreviation" +:+ tab +:+ "L1" +:+ tab +:+ "L2" +:+ tab
    +:+ "Languages Used" +:+ tab +:+ "Sex" +:+ tab +:+ "Start" +:+ tab +:+ "End" +:+ tab
    +:+ "String" +:+ nl.

(** [x if len(x) > 0 else 'NA'] on a string, and
    ['_'.join(l) if len(l) > 0 else 'NA'] on a list. *)
Definition or_NA (x : string) : string := if (len x >? 0)%Z then x else "NA".

Definition joined_or_NA (l : list string) : string :=
  if (Z.of_nat (length l) >? 0)%Z then join "_" l else "NA".

(** The text before the time stamps in the lines of a tier. *)
Definition prefix_of (tid typ dname cat sid abb l1 l2 luse sex : string) : string :=
  tid +:+ tab +:+ typ +:+ tab +:+ dname +:+ tab +:+ cat +:+ tab +:+ sid +:+ tab +:+ abb
    +:+ tab +:+ l1 +:+ tab +:+ l2 +:+ tab +:+ luse +:+ tab +:+ sex +:+ tab.

(** The body of the tier loop before the event loop: [cat] and [prefix]. *)
Definition tier_columns (cold_transcript : t) (tid : string) (tier : Tier.t)
    : outcome (string * string) :=
  let typ := or_NA (Tier.type tier) in
  let dname := or_NA (Tier.display_name tier) in
  let cat := or_NA (Tier.category tier) in
  if (len (Tier.speaker tier) >? 0)%Z
     && dict_contains (Tier.speaker tier) (speaker_table cold_transcript)
  then
    let sid := Tier.speaker tier in
    match dict_get sid (speaker_table cold_transcript) with
    | Some spk =>
        Returns (cat,
                 prefix_of tid typ dname cat sid (or_NA (Speaker.abbreviation spk))
                   (joined_or_NA (Speaker.l1 spk)) (joined_or_NA (Speaker.l2 spk))
                   (joined_or_NA (Speaker.languages_used spk)) (or_NA (Speaker.sex spk)))
    | None => Raises (RaisedKeyError (PyStr sid))
    end
  else Returns (cat, prefix_of tid typ dname cat "NA" "NA" "NA" "NA" "NA" "NA").

(** The blank that follows the text of an event that ends a sentence in a
    tier of category [v]. *)
Definition sentence_end (cat content : string) : bool :=
  String.eqb cat "v"
  && (endswith content "." || endswith content "!" || endswith content "?").

(** One round of [for e in tier.event_list]. *)
Definition dump_event (cold_transcript : t) (cat prefix : string) (rval : string)
    (e : Event.t) : outcome string :=
  match dict_get (Timepoint.time_id (Event.start e)) (timeline cold_transcript) with
  | None => Raises (RaisedKeyError (Timepoint.time_id (Event.start e)))
  | Some tp1 =>
      let stime := Timepoint.time_stamp tp1 in
      match dict_get (Timepoint.time_id (Event.end_ e)) (timeline cold_transcript) with
      | None => Raises (RaisedKeyError (Timepoint.time_id (Event.end_ e)))
      | Some tp2 =>
          let etime := Timepoint.time_stamp tp2 in
          match stime, etime with
          | PyStr stime, PyStr etime =>
              let rval := rval +:+ (prefix +:+ stime +:+ tab +:+ etime +:+ tab
                                      +:+ Event.content e) in
              let rval := if sentence_end cat (Event.content e) then rval +:+ " " else rval in
              Returns (rval +:+ nl)
          | _, _ => Raises RaisedTypeError
          end
      end
  end.

(** One round of [for tid in cold_transcript.tiers]. *)
Definition dump_tier (cold_transcript : t) (rval : string) (tid : string) : outcome string :=
  match dict_get tid (tiers cold_transcript) with
  | None => Raises (RaisedKeyError (PyStr tid))
  | Some tier =>
      match tier_columns cold_transcript tid tier with
      | Returns (cat, prefix) =>
          loop (dump_event cold_transcript cat prefix) (Tier.event_list tier) rval
      | Raises e => Raises e
      end
  end.

(** The table of a loaded transcript. *)
Definition dump_transcript (cold_transcript : t) : outcome string :=
  loop (dump_tier cold_transcript) (dict_keys (tiers cold_transcript)) header.

(** [generate_cold_data_dump], from the root of the parsed file and the
    value of [Timepoint.running_id] at the call. *)
Definition generate_cold_data_dump (root : ET.Element) (running_id : Z) : outcome string :=
  match load root running_id with
  | Ok (cold_transcript, _, _) => dump_transcript cold_transcript
  | KeyError key => Raises (RaisedKeyError (PyStr key))
  end.

End TSVDump.

(** ** Vocabulary for the table *)

Module Table.
Import ExmaraldaTranscript TSVDump Loading.

(** The time stamp that the timeline holds for an identifier, as text. *)
Definition stamp_of (cold_transcript : t) (time_id : pyval) : string :=
  match dict_get time_id (timeline cold_transcript) with
  | Some tp => py_format (Timepoint.time_stamp tp)
  | None => ""
  end.

(** The line of an event. *)
Definition row (cold_transcript : t) (cat prefix : string) (e : Event.t) : string :=
  prefix +:+ stamp_of cold_transcript (Event.get_start_id e) +:+ tab
    +:+ stamp_of cold_transcript (Event.get_end_id e) +:+ tab +:+ Event.content e
    +:+ (if sentence_end cat (Event.content e) then " " else "") +:+ nl.

(** The lines of a tier and of a transcript. *)
Definition tier_rows (cold_transcript : t) (tid : string) : list string :=
  match dict_get tid (tiers cold_transcript) with
  | Some tier =>
      match tier_columns cold_transcript tid tier with
      | Returns (cat, prefix) => map (row cold_transcript cat prefix) (Tier.event_list tier)
      | Raises _ => []
      end
  | None => []
  end.

Definition rows (cold_transcript : t) : list string :=
  flat_map (tier_rows cold_transcript) (dict_keys (tiers cold_transcript)).

(** The events of all tiers. *)
Definition all_events (d : t) : list Event.t :=
  flat_map Tier.event_list (dict_values (tiers d)).

(** Both endpoints of an event have a string as time stamp in the
    timeline. *)
Definition is_str (v : pyval) : bool :=
  match v with
  | PyStr _ => true
  | PyInt _ => false
  end.

Definition stamped (cold_transcript : t) (e : Event.t) : bool :=
  match dict_get (Event.get_start_id e) (timeline cold_transcript),
        dict_get (Event.get_end_id e) (timeline cold_transcript) with
  | Some tp1, Some tp2 =>
      is_str (Timepoint.time_stamp tp1) && is_str (Timepoint.time_stamp tp2)
  | _, _ => false
  end.

(** An event element starts and ends at identifiers that [tli] elements
    of the input declare. *)
Definition declared (root y : ET.Element) : bool :=
  bool_decide (attr_tail "start" y ∈ map tli_key (ET.iter "tli" root))
  && bool_decide (attr_tail "end" y ∈ map tli_key (ET.iter "tli" root)).

(** The event elements of the tiers. *)
Definition event_children (root : ET.Element) : list ET.Element :=
  List.filter is_event (tier_children root).

End Table.

(** ** Further methods of Speaker and Timepoint *)

Module SpeakerMethods.


Definition add_l2 (self : Speaker.t) (new_l2 : string) : Speaker.t :=
  Speaker.mk (Speaker.speaker_id self) (Speaker.abbreviation self) (Speaker.sex self)
    (Speaker.languages_used self) (Speaker.l1 self) (Speaker.l2 self ++ [new_l2])
    (Speaker.ud_speaker_information self) (Speaker.comment self).

Definition add_language_used (self : Speaker.t) (new_language_used : string) : Speaker.t :=
  Speaker.mk (Speaker.speaker_id self) (Speaker.abbreviation self) (Speaker.sex self)
    (Speaker.languages_used self ++ [new_language_used]) (Speaker.l1 self) (Speaker.l2 self)
    (Speaker.ud_speaker_information self) (Speaker.comment self).

End SpeakerMethods.

Module TimepointOrder.

(** [a < b] and [a <= b] on the values of a time stamp: numeric on ints,
    by code point on strings; [None] stands for the [TypeError] of a
    comparison between an int and a str. *)
Definition py_lt (a b : pyval) : option bool :=
  match a, b with
  | PyInt x, PyInt y => Some (x <? y)%Z
  | PyStr x, PyStr y => Some (str_lt x y)
  | _, _ => None
  end.

Definition py_le (a b : pyval) : option bool :=
  match a, b with
  | PyInt x, PyInt y => Some (x <=? y)%Z
  | PyStr x, PyStr y => Some (str_le x y)
  | _, _ => None
  end.

(** [a > b] and [a >= b]: for these types Python evaluates the reflected
    comparison of the operands. *)
Definition py_gt (a b : pyval) : option bool :=
  match a, b with
  | PyInt x, PyInt y => Some (x >? y)%Z
  | PyStr x, PyStr y => Some (str_gt x y)
  | _, _ => None
  end.

Definition py_ge (a b : pyval) : option bool :=
  match a, b with
  | PyInt x, PyInt y => Some (x >=? y)%Z
  | PyStr x, PyStr y => Some (str_ge x y)
  | _, _ => None
  end.

Definition __ne__ (self other : Timepoint.t) : bool := negb (Timepoint.__eq__ self other).

Definition __lt__ (self other : Timepoint.t) : option bool :=
  py_lt (Timepoint.time_stamp self) (Timepoint.time_stamp other).

Definition __le__ (self other : Timepoint.t) : option bool :=
  py_le (Timepoint.time_stamp self) (Timepoint.time_stamp other).

Definition __gt__ (self other : Timepoint.t) : option bool :=
  py_gt (Timepoint.time_stamp self) (Timepoint.time_stamp other).

Definition __ge__ (self other : Timepoint.t) : option bool :=
  py_ge (Timepoint.time_stamp self) (Timepoint.time_stamp other).

(** Both values are ints, or both are strings. *)
Definition same_kind (a b : pyval) : bool :=
  match a, b with
  | PyInt _, PyInt _ | PyStr _, PyStr _ => true
  | _, _ => false
  end.

End TimepointOrder.

(** ** generalhelper.GeneralHelper and main_converter *)

Module GeneralHelper.

(** [s.startswith(prefix)] *)
Definition startswith (s prefix : string) : bool := String.prefix prefix s.

(** [os.path.join(a, b)] of [posixpath], with [os.path.sep = '/']. *)
Definition path_join (a b : string) : string :=
  if startswith b "/" then b
  else if String.eqb a "" || TSVDump.endswith a "/" then a +:+ b
  else a +:+ "/" +:+ b.

(** [rec_read_files], on what [os.walk(in_dir)] yields: for every
    directory its path, its subdirectories and its files. *)
Definition rec_read_files (walk : list (string * list string * list string))
    (file_ending : string) : list string :=
  fold_left
    (fun rval '(root, dirs, files) =>
       fold_left
         (fun rval f =>
            if startswith f "." || negb (TSVDump.endswith f file_ending) then rval
            else rval ++ [path_join root f])
         files rval)
    walk [].

End GeneralHelper.

Module MainConverter.

(** [s.rfind(sub)]: the highest index at which [sub] occurs in [s], or
    -1; [rfind_from s sub i] is the same for the text [s] that starts at
    index [i] of the whole. *)
Fixpoint rfind_from (s sub : string) (i : Z) : Z :=
  match s with
  | "" => if String.prefix sub "" then i else (-1)%Z
  | String _ r =>
      let later := rfind_from r sub (i + 1) in
      if (0 <=? later)%Z then later
      else if String.prefix sub s then i else (-1)%Z
  end.

Definition rfind (s sub : string) : Z := rfind_from s sub 0.

(** An index of a slice, brought into the range of the string. *)
Definition clamp (n i : Z) : Z :=
  if (i <? 0)%Z then Z.max 0 (n + i) else Z.min i n.

(** [s[a:b]] *)
Definition slice (s : string) (a b : Z) : string :=
  let a := clamp (len s) a in
  let b := clamp (len s) b in
  if (a <? b)%Z then String.substring (Z.to_nat a) (Z.to_nat (b - a)) s else "".

Definition in_file_ending : string := ".exb".
Definition out_file_ending : string := ".tsv".

(** The name of the output file for the input file [f]:
    [f[f.rfind(os.path.sep)+1:f.rfind(in_file_ending)] + out_file_ending]. *)
Definition out_file (f : string) : string :=
  slice f (rfind f "/" + 1) (rfind f in_file_ending) +:+ out_file_ending.

(** A file name as [os.walk] lists it: it holds no separator. *)
Definition file_name (f : string) : bool :=
  Markup.str_forallb (fun c => negb (Ascii.eqb c "/")) f.

End MainConverter.

(** * Properties *)

(** ** Strings *)

Lemma str_app_nil_l (a : string) : "" +:+ a = a.
Proof. reflexivity. Qed.

Lemma str_app_cons (x : ascii) (a b : string) : String x a +:+ b = String x (a +:+ b).
Proof. reflexivity. Qed.

Lemma str_app_assoc (a b c : string) : (a +:+ b) +:+ c = a +:+ (b +:+ c).
Proof.
  induction a as [|x a IH]; [reflexivity|].
  rewrite !str_app_cons. now rewrite IH.
Qed.

Lemma str_app_nil_r (a : string) : a +:+ "" = a.
Proof.
  induction a as [|x a IH]; [reflexivity|].
  rewrite str_app_cons. now rewrite IH.
Qed.

Lemma str_eqb_true (a b : string) : String.eqb a b = true <-> a = b.
Proof. apply String.eqb_eq. Qed.

(** ** Dictionaries *)

Section dict_facts.
Context {K V : Type} `{EqDecision K}.
Implicit Types (d : dict K V) (k : K) (v : V).

Lemma dict_contains_true k d : dict_contains k d = true <-> k ∈ dict_keys d.
Proof. unfold dict_contains. apply bool_decide_eq_true. Qed.

Lemma dict_contains_false k d : dict_contains k d = false <-> k ∉ dict_keys d.
Proof. unfold dict_contains. apply bool_decide_eq_false. Qed.

Lemma dict_get_None k d : dict_get k d = None <-> k ∉ dict_keys d.
Proof.
  induction d as [|[k' v'] d IH]; simpl.
  - split; [intros _; apply not_elem_of_nil | reflexivity].
  - rewrite not_elem_of_cons. destruct (decide (k = k')) as [->|Hne].
    + split; [discriminate | intros [? _]; congruence].
    + rewrite IH. tauto.
Qed.

Lemma dict_get_is_Some k d : is_Some (dict_get k d) <-> k ∈ dict_keys d.
Proof.
  rewrite <- not_eq_None_Some, dict_get_None.
  destruct (decide (k ∈ dict_keys d)); tauto.
Qed.

Lemma dict_get_elem_of k v d : dict_get k d = Some v -> (k, v) ∈ d.
Proof.
  induction d as [|[k' v'] d IH]; simpl; [discriminate|].
  destruct (decide (k = k')) as [->|Hne].
  - intros [= ->]. apply elem_of_cons. now left.
  - intros Hg. apply elem_of_cons. right. apply IH, Hg.
Qed.

Lemma dict_set_absent k v d : k ∉ dict_keys d -> dict_set k v d = d ++ [(k, v)].
Proof.
  induction d as [|[k' v'] d IH]; simpl; [reflexivity|].
  rewrite not_elem_of_cons. intros [Hne Hni].
  destruct (decide (k = k')); [congruence|]. now rewrite IH.
Qed.

Lemma dict_keys_set_present k v d : k ∈ dict_keys d -> dict_keys (dict_set k v d) = dict_keys d.
Proof.
  induction d as [|[k' v'] d IH]; simpl.
  - intros Hin. now apply elem_of_nil in Hin.
  - intros Hin. destruct (decide (k = k')) as [->|Hne]; [reflexivity|].
    simpl. f_equal. apply IH. apply elem_of_cons in Hin as [?|?]; [congruence | assumption].
Qed.

Lemma dict_get_set_eq k v d : dict_get k (dict_set k v d) = Some v.
Proof.
  induction d as [|[k' v'] d IH]; simpl.
  - now rewrite decide_True.
  - destruct (decide (k = k')) as [->|Hne]; simpl.
    + now rewrite decide_True.
    + now rewrite decide_False.
Qed.

Lemma dict_get_set_ne k k' v d : k <> k' -> dict_get k' (dict_set k v d) = dict_get k' d.
Proof.
  intros Hne. induction d as [|[k0 v0] d IH]; simpl.
  - now rewrite decide_False by congruence.
  - destruct (decide (k = k0)) as [->|Hne0]; simpl.
    + now rewrite !decide_False by congruence.
    + destruct (decide (k' = k0)); [reflexivity | apply IH].
Qed.

Lemma dict_keys_alter f k d : dict_keys (dict_alter f k d) = dict_keys d.
Proof.
  induction d as [|[k' v'] d IH]; simpl; [reflexivity|].
  destruct (decide (k = k')); simpl; [reflexivity | now f_equal].
Qed.

Lemma dict_get_alter_eq f k d : dict_get k (dict_alter f k d) = f <$> dict_get k d.
Proof.
  induction d as [|[k' v'] d IH]; simpl; [reflexivity|].
  destruct (decide (k = k')) as [->|Hne]; simpl.
  - now rewrite decide_True.
  - now rewrite decide_False.
Qed.

Lemma dict_get_alter_ne f k k' d : k <> k' -> dict_get k' (dict_alter f k d) = dict_get k' d.
Proof.
  intros Hne. induction d as [|[k0 v0] d IH]; simpl; [reflexivity|].
  destruct (decide (k = k0)) as [->|Hne0]; simpl.
  - now rewrite !decide_False by congruence.
  - destruct (decide (k' = k0)); [reflexivity | apply IH].
Qed.

Lemma dict_values_alter f k d v :
  v ∈ dict_values (dict_alter f k d) ->
  v ∈ dict_values d \/ exists v0, v0 ∈ dict_values d /\ v = f v0.
Proof.
  unfold dict_values. induction d as [|[k' v'] d IH]; simpl; [now left|].
  destruct (decide (k = k')) as [->|Hne]; simpl; rewrite !elem_of_cons.
  - intros [->|Hin]; [right; exists v'; split; [now left | reflexivity] | left; now right].
  - intros [->|Hin]; [left; now left|].
    destruct (IH Hin) as [?|(v0 & ? & ?)]; [left; now right|].
    right. exists v0. split; [now right | assumption].
Qed.

Lemma dict_keys_set_NoDup k v d : NoDup (dict_keys d) -> NoDup (dict_keys (dict_set k v d)).
Proof.
  intros Hnd. destruct (decide (k ∈ dict_keys d)) as [Hin|Hni].
  - now rewrite dict_keys_set_present.
  - rewrite dict_set_absent by assumption. unfold dict_keys in *.
    rewrite fmap_app. simpl. apply NoDup_app. split; [assumption|].
    split; [|apply NoDup_singleton].
    intros x Hx Hx'. apply list_elem_of_singleton in Hx'. congruence.
Qed.

End dict_facts.

(** ** Speakers *)

Lemma set_eq_true (a b : list string) : py_set_eq a b = true <-> (forall x, x ∈ a <-> x ∈ b).
Proof.
  unfold py_set_eq. rewrite bool_decide_eq_true. split.
  - intros Heq x. rewrite <- !(elem_of_list_to_set (C := gset string)). now rewrite Heq.
  - intros Hx. apply set_eq. intros x. rewrite !elem_of_list_to_set. apply Hx.
Qed.

Lemma set_eq_permutation (a b : list string) : a ≡ₚ b -> py_set_eq a b = true.
Proof. intros Hp. apply set_eq_true. intros x. now rewrite Hp. Qed.

Lemma set_eq_duplicate (x : string) (a : list string) : py_set_eq (x :: x :: a) (x :: a) = true.
Proof. apply set_eq_true. intros y. rewrite !elem_of_cons. tauto. Qed.

Lemma str_le_antisym (a b : string) : str_le a b = true -> str_le b a = true -> a = b.
Proof. apply String.leb_antisym. Qed.

Lemma str_le_total (a b : string) : str_le a b = true \/ str_le b a = true.
Proof. apply String.leb_total. Qed.

Lemma str_le_refl (a : string) : str_le a a = true.
Proof.
  destruct (str_le_total a a); assumption.
Qed.

(** C9: [a == b] on speakers holds exactly when the five scalar fields are
    equal and each of the three language lists has the same elements as its
    counterpart, whatever their order and multiplicity. *)
Theorem Speaker_eq_structural (a b : Speaker.t) :
  Speaker.__eq__ a b = true <->
    Speaker.speaker_id a = Speaker.speaker_id b
    /\ Speaker.abbreviation a = Speaker.abbreviation b
    /\ Speaker.sex a = Speaker.sex b
    /\ Speaker.ud_speaker_information a = Speaker.ud_speaker_information b
    /\ Speaker.comment a = Speaker.comment b
    /\ (forall x, x ∈ Speaker.languages_used a <-> x ∈ Speaker.languages_used b)
    /\ (forall x, x ∈ Speaker.l1 a <-> x ∈ Speaker.l1 b)
    /\ (forall x, x ∈ Speaker.l2 a <-> x ∈ Speaker.l2 b).
Proof.
  unfold Speaker.__eq__. rewrite <- !set_eq_true, <- !str_eqb_true.
  destruct (String.eqb (Speaker.speaker_id a) (Speaker.speaker_id b)),
    (String.eqb (Speaker.abbreviation a) (Speaker.abbreviation b)),
    (String.eqb (Speaker.sex a) (Speaker.sex b)),
    (py_set_eq (Speaker.languages_used a) (Speaker.languages_used b)),
    (py_set_eq (Speaker.l1 a) (Speaker.l1 b)),
    (py_set_eq (Speaker.l2 a) (Speaker.l2 b)),
    (String.eqb (Speaker.ud_speaker_information a) (Speaker.ud_speaker_information b)),
    (String.eqb (Speaker.comment a) (Speaker.comment b));
    simpl; intuition congruence.
Qed.

(** Reordering a language list, or repeating an entry of it, yields an
    equal speaker. *)
Lemma Speaker_eq_reordered (i a s : string) (lu lu' l1 l1' l2 l2' : list string) (ud c : string) :
  lu ≡ₚ lu' -> l1 ≡ₚ l1' -> l2 ≡ₚ l2' ->
  Speaker.__eq__ (Speaker.mk i a s lu l1 l2 ud c) (Speaker.mk i a s lu' l1' l2' ud c) = true.
Proof.
  intros H0 H1 H2. unfold Speaker.__eq__. simpl.
  rewrite !String.eqb_refl, (set_eq_permutation _ _ H0), (set_eq_permutation _ _ H1),
    (set_eq_permutation _ _ H2). reflexivity.
Qed.

Example Speaker_eq_duplicated :
  Speaker.__eq__
    (Speaker.__init__ "1" "Anna" "f" (Lst ["deutsch"; "englisch"; "deutsch"]) (Lst ["russisch"])
       (Lst []) "" "")
    (Speaker.__init__ "1" "Anna" "f" (Lst ["englisch"; "deutsch"]) (Lst ["russisch"; "russisch"])
       (Lst []) "" "") = true.
Proof. vm_compute. reflexivity. Qed.

(** C8: [a >= b] on speakers agrees with [>=] on the identifiers only when
    the identifiers are equal; [__ge__] computes [<=]. *)
Theorem Speaker_ge_agrees_iff_same_id (a b : Speaker.t) :
  Speaker.__ge__ a b = str_ge (Speaker.speaker_id a) (Speaker.speaker_id b)
  <-> Speaker.speaker_id a = Speaker.speaker_id b.
Proof.
  unfold Speaker.__ge__, str_ge. fold (str_le (Speaker.speaker_id b) (Speaker.speaker_id a)).
  split.
  - intros Heq.
    destruct (str_le_total (Speaker.speaker_id a) (Speaker.speaker_id b)) as [H|H].
    + apply str_le_antisym; [assumption | now rewrite <- Heq].
    + apply str_le_antisym; [now rewrite Heq | assumption].
  - intros ->. reflexivity.
Qed.

Example Speaker_ge_failing_input :
  let a := Speaker.__init__ "b" "" "" (Str "") (Str "") (Str "") "" "" in
  let b := Speaker.__init__ "a" "" "" (Str "") (Str "") (Str "") "" "" in
  Speaker.__ge__ a b = false /\ str_ge (Speaker.speaker_id a) (Speaker.speaker_id b) = true
  /\ Speaker.__ge__ b a = true /\ str_ge (Speaker.speaker_id b) (Speaker.speaker_id a) = false.
Proof. vm_compute. repeat split. Qed.

(** [<], [<=] and [>] on speakers are the comparisons of the identifiers,
    and [>] and [>=] on strings are the negations of [<=] and [<]. *)
Lemma Speaker_lt_le_gt (a b : Speaker.t) :
  Speaker.__lt__ a b = str_lt (Speaker.speaker_id a) (Speaker.speaker_id b)
  /\ Speaker.__le__ a b = str_le (Speaker.speaker_id a) (Speaker.speaker_id b)
  /\ Speaker.__gt__ a b = str_gt (Speaker.speaker_id a) (Speaker.speaker_id b)
  /\ Speaker.__gt__ a b = negb (Speaker.__le__ a b)
  /\ Speaker.__lt__ a b = negb (str_ge (Speaker.speaker_id a) (Speaker.speaker_id b)).
Proof.
  unfold Speaker.__lt__, Speaker.__le__, Speaker.__gt__, str_lt, str_le, str_gt, str_ge.
  repeat split.
  - unfold String.ltb, String.leb. rewrite String.compare_antisym.
    now destruct (String.compare (Speaker.speaker_id a) (Speaker.speaker_id b)).
  - unfold String.ltb, String.leb. rewrite String.compare_antisym.
    now destruct (String.compare (Speaker.speaker_id b) (Speaker.speaker_id a)).
Qed.

(** C10: a language argument of the constructor that is a string, empty
    or not, leaves the empty list in its field; one that is a list is stored
    as given. *)
Theorem Speaker_init_language_arguments (i a s ud c : string) :
  (forall x y z, Speaker.languages_used (Speaker.__init__ i a s (Str x) y z ud c) = [])
  /\ (forall x y z, Speaker.l1 (Speaker.__init__ i a s y (Str x) z ud c) = [])
  /\ (forall x y z, Speaker.l2 (Speaker.__init__ i a s y z (Str x) ud c) = [])
  /\ (forall l y z, Speaker.languages_used (Speaker.__init__ i a s (Lst l) y z ud c) = l)
  /\ (forall l y z, Speaker.l1 (Speaker.__init__ i a s y (Lst l) z ud c) = l)
  /\ (forall l y z, Speaker.l2 (Speaker.__init__ i a s y z (Lst l) ud c) = l)
  /\ Speaker.languages_used (Speaker.__init__ i a s (Str "deutsch") (Str "") (Str "") ud c) = [].
Proof. repeat split. Qed.

(** ** Adding events *)

Section add_event_facts.
Import ExmaraldaTranscript Build.

(** C3: with a tier identifier that is no key of the tiers, [add_event]
    returns the transcript as it was (tiers and timeline included) and
    prints the keys of the tiers; being a total function it raises
    nothing. *)
Theorem add_event_unknown_tier (d : t) (e : Event.t) (tier_id : string) :
  tier_id ∉ dict_keys (tiers d) ->
  fst (add_event d e tier_id) = d
  /\ tiers (fst (add_event d e tier_id)) = tiers d
  /\ timeline (fst (add_event d e tier_id)) = timeline d
  /\ snd (add_event d e tier_id) = [print_keys (dict_keys (tiers d))].
Proof.
  intros Hni. apply dict_contains_false in Hni.
  unfold add_event. rewrite Hni. simpl. repeat split.
Qed.

Lemma add_event_unknown_tier_witness :
  let d := add_tier (__init__ "" "" "" "" "" "") "tier-1" "" "v" "t" "" in
  let e := Event.__init__ (Timepoint.mk (PyInt 0) (PyInt 0) "") (Timepoint.mk (PyInt 1) (PyInt 1) "")
             "Hallo" in
  ("unknown-tier" ∉ dict_keys (tiers d))
  /\ fst (add_event d e "unknown-tier") = d
  /\ tiers (fst (add_event d e "unknown-tier")) = tiers d
  /\ timeline (fst (add_event d e "unknown-tier")) = timeline d
  /\ snd (add_event d e "unknown-tier") = [print_keys ["tier-1"]].
Proof.
  assert (Hni : "unknown-tier" ∉
            dict_keys (tiers (add_tier (__init__ "" "" "" "" "" "") "tier-1" "" "v" "t" ""))).
  { apply dict_contains_false. vm_compute. reflexivity. }
  split; [exact Hni|].
  exact (add_event_unknown_tier _ _ _ Hni).
Defined.

Lemma add_event_known (d : t) (e : Event.t) (tier_id : string) :
  tier_id ∈ dict_keys (tiers d) ->
  add_event d e tier_id =
    (mk (meta_information d) (speaker_table d)
        (timeline d ++ new_endpoints (timeline d) e)
        (dict_alter (fun tier => Tier.add_event tier e) tier_id (tiers d)), []).
Proof.
  intros Hin. apply dict_contains_true in Hin.
  unfold add_event, new_endpoints, Event.get_start_id, Event.get_end_id.
  rewrite Hin. simpl. f_equal. unfold with_timeline, with_tiers. simpl.
  destruct (dict_contains (Timepoint.time_id (Event.start e)) (timeline d)) eqn:Hs; simpl.
  - rewrite app_nil_r.
    destruct (dict_contains (Timepoint.time_id (Event.end_ e)) (timeline d)) eqn:He; simpl.
    + now rewrite app_nil_r.
    + apply dict_contains_false in He. now rewrite dict_set_absent.
  - apply dict_contains_false in Hs. rewrite dict_set_absent by assumption.
    destruct (dict_contains (Timepoint.time_id (Event.end_ e))
                (timeline d ++ [(Timepoint.time_id (Event.start e), Event.start e)])) eqn:He;
      simpl.
    + reflexivity.
    + apply dict_contains_false in He. rewrite dict_set_absent by assumption.
      now rewrite <- app_assoc.
Qed.

Lemma dict_get_app_l {K V} `{EqDecision K} (k : K) (d1 d2 : dict K V) :
  k ∈ dict_keys d1 -> dict_get k (d1 ++ d2) = dict_get k d1.
Proof.
  induction d1 as [|[k' v'] d1 IH]; simpl.
  - intros Hin. now apply elem_of_nil in Hin.
  - intros Hin. destruct (decide (k = k')); [reflexivity|].
    apply IH. apply elem_of_cons in Hin as [?|?]; [congruence | assumption].
Qed.

Lemma dict_get_app_r {K V} `{EqDecision K} (k : K) (d1 d2 : dict K V) :
  k ∉ dict_keys d1 -> dict_get k (d1 ++ d2) = dict_get k d2.
Proof.
  induction d1 as [|[k' v'] d1 IH]; simpl; [reflexivity|].
  rewrite not_elem_of_cons. intros [Hne Hni].
  destruct (decide (k = k')); [congruence | now apply IH].
Qed.

Lemma dict_keys_app {K V} (d1 d2 : dict K V) :
  dict_keys (d1 ++ d2) = dict_keys d1 ++ dict_keys d2.
Proof. unfold dict_keys. apply fmap_app. Qed.

Lemma new_endpoints_keys (tl : dict pyval Timepoint.t) (e : Event.t) :
  Event.get_start_id e ∈ dict_keys (tl ++ new_endpoints tl e)
  /\ Event.get_end_id e ∈ dict_keys (tl ++ new_endpoints tl e)
  /\ (forall k, k ∈ dict_keys (new_endpoints tl e) ->
        (k ∉ dict_keys tl) /\ (k = Event.get_start_id e \/ k = Event.get_end_id e)).
Proof.
  unfold new_endpoints.
  destruct (dict_contains (Event.get_start_id e) tl) eqn:Hs; simpl.
  - apply dict_contains_true in Hs. rewrite app_nil_r.
    destruct (dict_contains (Event.get_end_id e) tl) eqn:He; simpl.
    + apply dict_contains_true in He. rewrite app_nil_r.
      repeat split; try assumption; now apply elem_of_nil in H.
    + apply dict_contains_false in He. rewrite dict_keys_app. simpl.
      repeat split.
      * apply elem_of_app. now left.
      * apply elem_of_app. right. now apply list_elem_of_singleton.
      * apply list_elem_of_singleton in H. now subst.
      * apply list_elem_of_singleton in H. now right.
  - apply dict_contains_false in Hs.
    destruct (dict_contains (Event.get_end_id e) (tl ++ [(Event.get_start_id e, Event.start e)]))
      eqn:He; simpl.
    + apply dict_contains_true in He. rewrite dict_keys_app in *. simpl in *.
      repeat split.
      * apply elem_of_app. right. now apply list_elem_of_singleton.
      * assumption.
      * apply list_elem_of_singleton in H. now subst.
      * apply list_elem_of_singleton in H. now left.
    + apply dict_contains_false in He. rewrite dict_keys_app in He.
      apply not_elem_of_app in He as [He1 He2].
      rewrite !dict_keys_app. simpl. repeat split.
      * rewrite !elem_of_app, !elem_of_cons. tauto.
      * rewrite !elem_of_app, !elem_of_cons. tauto.
      * rewrite !elem_of_cons, elem_of_nil in H. destruct H as [->| [->|[]]]; assumption.
      * rewrite !elem_of_cons, elem_of_nil in H. tauto.
Qed.

Lemma add_event_preserves_endpoints (d : t) (e : Event.t) (tier_id : string) :
  endpoints_in_timeline d -> endpoints_in_timeline (fst (add_event d e tier_id)).
Proof.
  intros Hinv. destruct (decide (tier_id ∈ dict_keys (tiers d))) as [Hin|Hni].
  - rewrite add_event_known by assumption. simpl.
    destruct (new_endpoints_keys (timeline d) e) as (Hs & He & _).
    intros tier e' Htier He'. simpl in *.
    assert (Hold : forall tier0, tier0 ∈ dict_values (tiers d) -> e' ∈ Tier.event_list tier0 ->
              Event.get_start_id e' ∈ dict_keys (timeline d ++ new_endpoints (timeline d) e)
              /\ Event.get_end_id e' ∈ dict_keys (timeline d ++ new_endpoints (timeline d) e)).
    { intros tier0 H0 H1. destruct (Hinv tier0 e' H0 H1) as [Ha Hb].
      rewrite dict_keys_app, !elem_of_app. tauto. }
    apply dict_values_alter in Htier as [Htier|(tier0 & Htier0 & ->)].
    + now apply (Hold tier).
    + simpl in He'. apply elem_of_app in He' as [He'|He'].
      * now apply (Hold tier0).
      * apply list_elem_of_singleton in He'. subst e'. split; assumption.
  - apply dict_contains_false in Hni. unfold add_event. now rewrite Hni.
Qed.

Lemma run_op_preserves_endpoints (d : t) (o : op) :
  endpoints_in_timeline d -> endpoints_in_timeline (run_op d o).
Proof.
  intros Hinv. destruct o; simpl; try exact Hinv.
  - unfold add_speaker. destruct (negb _); exact Hinv.
  - unfold add_tier. destruct (negb (dict_contains tier_id (tiers d))) eqn:Hc; [|exact Hinv].
    apply negb_true_iff, dict_contains_false in Hc.
    intros tier e. simpl. rewrite dict_set_absent by assumption.
    unfold dict_values. rewrite fmap_app, elem_of_app. simpl.
    intros [Htier|Htier] He.
    + now apply (Hinv tier).
    + apply list_elem_of_singleton in Htier. subst tier. simpl in He.
      now apply elem_of_nil in He.
  - now apply add_event_preserves_endpoints.
Qed.

Lemma build_endpoints_in_timeline (a : init_args) (ops : list op) :
  endpoints_in_timeline (build a ops).
Proof.
  unfold build.
  assert (H0 : endpoints_in_timeline (construct a)).
  { intros tier e Htier. simpl in Htier. now apply elem_of_nil in Htier. }
  revert H0. generalize (construct a). induction ops as [|o ops IH]; intros d Hd; simpl.
  - exact Hd.
  - apply IH. now apply run_op_preserves_endpoints.
Qed.

(** C4: on a known tier, [add_event] appends the event to that tier's
    event list and leaves the other tiers and the order of the tiers alone;
    the timeline keeps its entries where and as they were and gains, at its
    end, the start point and the end point whose identifiers were absent, so
    both identifiers are keys afterwards and no existing entry is
    overwritten; nothing is printed.  Hence in every transcript built by
    the public operations every event of every tier has both endpoint
    identifiers among the keys of the timeline. *)
Theorem add_event_known_tier :
  (forall (d : t) (e : Event.t) (tier_id : string) (tier : Tier.t),
      dict_get tier_id (tiers d) = Some tier ->
      let d' := fst (add_event d e tier_id) in
      (exists tier',
          dict_get tier_id (tiers d') = Some tier'
          /\ Tier.event_list tier' = Tier.event_list tier ++ [e]
          /\ Tier.id tier' = Tier.id tier /\ Tier.speaker tier' = Tier.speaker tier
          /\ Tier.category tier' = Tier.category tier /\ Tier.type tier' = Tier.type tier
          /\ Tier.display_name tier' = Tier.display_name tier)
      /\ dict_keys (tiers d') = dict_keys (tiers d)
      /\ (forall k, k <> tier_id -> dict_get k (tiers d') = dict_get k (tiers d))
      /\ (exists new, timeline d' = timeline d ++ new
            /\ forall k, k ∈ dict_keys new ->
                 (k ∉ dict_keys (timeline d))
                 /\ (k = Event.get_start_id e \/ k = Event.get_end_id e))
      /\ (forall k, k ∈ dict_keys (timeline d) ->
            dict_get k (timeline d') = dict_get k (timeline d))
      /\ Event.get_start_id e ∈ dict_keys (timeline d')
      /\ Event.get_end_id e ∈ dict_keys (timeline d')
      /\ (Event.get_start_id e ∉ dict_keys (timeline d) ->
            dict_get (Event.get_start_id e) (timeline d') = Some (Event.start e))
      /\ (Event.get_end_id e ∉ dict_keys (timeline d) ->
            Event.get_end_id e <> Event.get_start_id e ->
            dict_get (Event.get_end_id e) (timeline d') = Some (Event.end_ e))
      /\ meta_information d' = meta_information d
      /\ speaker_table d' = speaker_table d
      /\ snd (add_event d e tier_id) = [])
  /\ (forall (a : init_args) (ops : list op), endpoints_in_timeline (build a ops)).
Proof.
  split; [|apply build_endpoints_in_timeline].
  intros d e tier_id tier Hget d'.
  assert (Hin : tier_id ∈ dict_keys (tiers d)).
  { apply dict_get_is_Some. now rewrite Hget. }
  subst d'. rewrite add_event_known by assumption. simpl.
  destruct (new_endpoints_keys (timeline d) e) as (Hs & He & Hnew).
  split; [|split; [|split; [|split; [|split; [|split; [|split; [|split; [|split]]]]]]]].
  - exists (Tier.add_event tier e). rewrite dict_get_alter_eq, Hget. simpl. repeat split.
  - apply dict_keys_alter.
  - intros k Hne. apply dict_get_alter_ne. congruence.
  - exists (new_endpoints (timeline d) e). split; [reflexivity | exact Hnew].
  - intros k Hk. now apply dict_get_app_l.
  - exact Hs.
  - exact He.
  - intros Hni. rewrite dict_get_app_r by assumption.
    unfold new_endpoints. apply dict_contains_false in Hni. rewrite Hni. simpl.
    now rewrite decide_True.
  - intros Hni Hne. rewrite dict_get_app_r by assumption.
    unfold new_endpoints.
    destruct (dict_contains (Event.get_start_id e) (timeline d)) eqn:Hc; simpl.
    + rewrite app_nil_r. apply dict_contains_false in Hni. rewrite Hni. simpl.
      now rewrite decide_True.
    + rewrite decide_False by assumption.
      assert (Hc' : dict_contains (Event.get_end_id e)
                      (timeline d ++ [(Event.get_start_id e, Event.start e)]) = false).
      { apply dict_contains_false. rewrite dict_keys_app. simpl.
        rewrite not_elem_of_app, list_elem_of_singleton. tauto. }
      rewrite Hc'. simpl. now rewrite decide_True.
  - repeat split.
Qed.

Lemma add_event_known_tier_witness :
  let d := add_tier (__init__ "" "" "" "" "" "") "2" "1" "v" "t" "Anna" in
  let s := Timepoint.mk (PyInt 0) (PyInt 0) "" in
  let n := Timepoint.mk (PyInt 1) (PyInt 1) "" in
  let e := Event.__init__ s n "Hallo" in
  dict_get "2" (tiers d) = Some (Tier.__init__ "2" "1" "v" "t" "Anna")
  /\ dict_keys (tiers (fst (add_event d e "2"))) = ["2"]
  /\ PyInt 0 ∈ dict_keys (timeline (fst (add_event d e "2")))
  /\ PyInt 1 ∈ dict_keys (timeline (fst (add_event d e "2"))).
Proof.
  intros d s n e.
  assert (Hget : dict_get "2" (tiers d) = Some (Tier.__init__ "2" "1" "v" "t" "Anna")).
  { vm_compute. reflexivity. }
  split; [exact Hget|].
  destruct (proj1 add_event_known_tier d e "2" _ Hget)
    as (_ & Hk & _ & _ & _ & Hs & Hn & _).
  split; [exact Hk|]. split; [exact Hs | exact Hn].
Defined.

End add_event_facts.

(** ** The identifier allocator *)

Section allocator_facts.
Import Allocator.

Lemma minted_construct c ts ty r :
  minted c (Construct ts ty :: r) = PyInt c :: minted (c + 1) r.
Proof.
  unfold minted. simpl. destruct (run (c + 1) r) as [tps c'] eqn:Hr. reflexivity.
Qed.

Lemma minted_destroy c r : minted c (Destroy :: r) = minted (c - 1) r.
Proof. reflexivity. Qed.

Lemma constructions_cons s r :
  constructions (s :: r) = ((if is_construct s then 1 else 0) + constructions r)%Z.
Proof.
  unfold constructions. rewrite filter_cons.
  destruct (is_construct s); simpl; lia.
Qed.

Lemma destructions_cons s r :
  destructions (s :: r) = ((if is_construct s then 0 else 1) + destructions r)%Z.
Proof.
  unfold destructions. rewrite filter_cons.
  destruct (is_construct s); simpl; lia.
Qed.

(** The identifier of a time point is the running id at the call plus the
    constructions and minus the destructions that came before it. *)
Lemma minted_app c pre ts ty post :
  minted c (pre ++ Construct ts ty :: post) =
    minted c pre ++ PyInt (c + constructions pre - destructions pre)
      :: minted (c + constructions pre - destructions pre + 1) post.
Proof.
  revert c. induction pre as [|[ts0 ty0|] pre IH]; intros c.
  - change (constructions []) with 0%Z. change (destructions []) with 0%Z.
    replace (c + 0 - 0)%Z with c by lia.
    rewrite app_nil_l, minted_construct. reflexivity.
  - rewrite <- app_comm_cons, !minted_construct, IH, constructions_cons, destructions_cons.
    simpl is_construct. cbv iota. rewrite <- app_comm_cons.
    replace (c + 1 + constructions pre - destructions pre)%Z
      with (c + (1 + constructions pre) - (0 + destructions pre))%Z by lia.
    reflexivity.
  - rewrite <- app_comm_cons, !minted_destroy, IH, constructions_cons, destructions_cons.
    simpl is_construct. cbv iota.
    replace (c - 1 + constructions pre - destructions pre)%Z
      with (c + (0 + constructions pre) - (1 + destructions pre))%Z by lia.
    reflexivity.
Qed.

Lemma minted_nonneg steps :
  forall live c, balanced_from live steps = true -> (Z.of_nat live <= c)%Z ->
    Forall (fun v => exists z, v = PyInt z /\ (0 <= z)%Z) (minted c steps).
Proof.
  induction steps as [|[ts ty|] r IH]; intros live c Hb Hc.
  - constructor.
  - rewrite minted_construct. constructor.
    + exists c. split; [reflexivity | lia].
    + apply (IH (S live)); [exact Hb | lia].
  - rewrite minted_destroy. simpl in Hb. destruct live as [|n]; [discriminate|].
    apply (IH n); [exact Hb | lia].
Qed.

Lemma minted_constructions_only c steps :
  forallb is_construct steps = true ->
  minted c steps = PyInt <$> seqZ c (Z.of_nat (length steps)).
Proof.
  revert c. induction steps as [|[ts ty|] r IH]; intros c Hall.
  - reflexivity.
  - simpl in Hall. rewrite minted_construct, IH by exact Hall.
    rewrite (seqZ_cons c) by (simpl; lia). simpl. do 3 f_equal; lia.
  - discriminate.
Qed.

Lemma minted_length c steps : Z.of_nat (length (minted c steps)) = constructions steps.
Proof.
  revert c. induction steps as [|[ts ty|] r IH]; intros c.
  - reflexivity.
  - rewrite minted_construct, constructions_cons. simpl length. rewrite <- (IH (c + 1)%Z).
    simpl. lia.
  - rewrite minted_destroy, constructions_cons. simpl. apply IH.
Qed.

(** The claim C5 as stated fails: after a destruction the constructor
    mints an identifier again.  [Timepoint(); Timepoint()] constructs a
    time point, destroys it and constructs another: both get 0. *)
Lemma allocator_repeats_identifier :
  let steps := [Construct (PyInt (-1)) ""; Destroy; Construct (PyInt (-1)) ""] in
  balanced steps = true
  /\ minted 0 steps = [PyInt 0; PyInt 0]
  /\ ~ strictly_increasing (minted 0 steps).
Proof.
  split; [reflexivity|]. split; [reflexivity|].
  intros H. destruct (H 0%nat 1%nat (PyInt 0) (PyInt 0)) as (x & y & Hx & Hy & Hlt);
    [lia | reflexivity | reflexivity |].
  injection Hx as <-. injection Hy as <-. lia.
Qed.

(** C5, amended: the constructor mints the running id, an int: the value
    at the start (zero in a fresh process) plus the constructions and minus
    the destructions so far.  It is never negative when only constructed
    time points are destroyed, consecutive constructions with no destruction
    between them mint consecutive, hence strictly increasing, identifiers,
    and every construction mints one. *)
Theorem allocator_minted_ids :
  (forall c pre ts ty post,
      minted c (pre ++ Construct ts ty :: post) =
        minted c pre ++ PyInt (c + constructions pre - destructions pre)
          :: minted (c + constructions pre - destructions pre + 1) post)
  /\ (forall ts ty post, minted 0 (Construct ts ty :: post) !! 0%nat = Some (PyInt 0))
  /\ (forall steps, balanced steps = true ->
        Forall (fun v => exists z, v = PyInt z /\ (0 <= z)%Z) (minted 0 steps))
  /\ (forall c steps, forallb is_construct steps = true ->
        minted c steps = PyInt <$> seqZ c (Z.of_nat (length steps))
        /\ strictly_increasing (minted c steps))
  /\ (forall c steps, Z.of_nat (length (minted c steps)) = constructions steps).
Proof.
  split; [exact minted_app|].
  split; [intros; now rewrite minted_construct|].
  split; [intros steps Hb; now apply (minted_nonneg steps 0%nat)|].
  split; [|exact minted_length].
  intros c steps Hall. split; [now apply minted_constructions_only|].
  rewrite minted_constructions_only by exact Hall.
  intros i j a b Hij Ha Hb.
  rewrite list_lookup_fmap in Ha, Hb.
  destruct (seqZ c (Z.of_nat (length steps)) !! i) as [x|] eqn:Hx; [|discriminate].
  destruct (seqZ c (Z.of_nat (length steps)) !! j) as [y|] eqn:Hy; [|discriminate].
  injection Ha as <-. injection Hb as <-.
  apply lookup_seqZ in Hx as [-> _]. apply lookup_seqZ in Hy as [-> _].
  exists (c + Z.of_nat i)%Z, (c + Z.of_nat j)%Z. repeat split. lia.
Qed.

Lemma allocator_minted_ids_witness :
  let steps := [Construct (PyInt 0) ""; Construct (PyInt 1) ""; Destroy; Construct (PyInt 2) ""] in
  balanced steps = true
  /\ Forall (fun v => exists z, v = PyInt z /\ (0 <= z)%Z) (minted 0 steps)
  /\ minted 0 steps = [PyInt 0; PyInt 1; PyInt 1].
Proof.
  intros steps. split; [reflexivity|]. split; [|reflexivity].
  exact (proj1 (proj2 (proj2 allocator_minted_ids)) steps eq_refl).
Defined.

End allocator_facts.

(** ** The speaker table *)

Section speaker_table_facts.
Import ExmaraldaTranscript Build.

Lemma fold_left_append {A} (f : A -> string) (l : list A) (r : string) :
  fold_left (fun rval x => rval +:+ f x) l r = r +:+ str_concat (map f l).
Proof.
  revert r. induction l as [|x l IH]; intros r; simpl.
  - now rewrite str_app_nil_r.
  - now rewrite IH, str_app_assoc.
Qed.

Lemma dict_set_elem_of {K V} `{EqDecision K} (k k' : K) (v v' : V) (d : dict K V) :
  (k', v') ∈ dict_set k v d -> (k' = k /\ v' = v) \/ (k', v') ∈ d.
Proof.
  induction d as [|[k0 v0] d IH]; simpl.
  - intros Hin. apply list_elem_of_singleton in Hin. injection Hin as -> ->. now left.
  - destruct (decide (k = k0)) as [->|Hne]; rewrite !elem_of_cons.
    + intros [Heq|Hin]; [injection Heq as -> ->; now left | right; now right].
    + intros [Heq|Hin]; [right; now left|].
      destruct (IH Hin) as [?|?]; [now left | right; now right].
Qed.

Lemma run_op_speakers_keyed (d : t) (o : op) : speakers_keyed d -> speakers_keyed (run_op d o).
Proof.
  intros [Hnd Hid].
  assert (Hset : forall i a s lu l1 l2 ud c,
             speakers_keyed (with_speaker_table d
               (dict_set i (Speaker.__init__ i a s lu l1 l2 ud c) (speaker_table d)))).
  { intros. split; simpl.
    - now apply dict_keys_set_NoDup.
    - intros k sp Hin. apply dict_set_elem_of in Hin as [[-> ->]|Hin]; [reflexivity|].
      now apply Hid. }
  destruct o; simpl; try (split; assumption).
  - unfold add_speaker. destruct (negb _); [apply Hset | split; assumption].
  - apply Hset.
  - unfold add_tier. destruct (negb _); split; assumption.
  - unfold add_event. destruct (dict_contains _ _); simpl; [|split; assumption].
    repeat (destruct (negb _); simpl); split; assumption.
Qed.

Lemma build_speakers_keyed (a : init_args) (ops : list op) : speakers_keyed (build a ops).
Proof.
  unfold build.
  assert (H0 : speakers_keyed (construct a)).
  { split; simpl; [constructor|]. intros k s Hin. now apply elem_of_nil in Hin. }
  revert H0. generalize (construct a). induction ops as [|o ops IH]; intros d Hd; simpl.
  - exact Hd.
  - apply IH. now apply run_op_speakers_keyed.
Qed.

Lemma dict_at_keys {K V} `{EqDecision K} (d : dict K V) :
  NoDup (dict_keys d) -> dict_at d (dict_keys d) = dict_values d.
Proof.
  unfold dict_at.
  assert (H0 : forall pre, NoDup (dict_keys (pre ++ d)) ->
            omap (fun k => dict_get k (pre ++ d)) (dict_keys d) = dict_values d).
  { induction d as [|[k v] d IH]; intros pre Hnd; [reflexivity|].
    simpl. rewrite dict_keys_app in Hnd. simpl in Hnd.
    apply NoDup_app in Hnd as (Hpre & Hdisj & Hd).
    rewrite dict_get_app_r.
    2:{ intros Hin. apply (Hdisj _ Hin). apply elem_of_cons. now left. }
    simpl. rewrite decide_True by reflexivity. f_equal.
    specialize (IH (pre ++ [(k, v)])). rewrite <- app_assoc in IH. simpl in IH.
    apply IH. rewrite dict_keys_app. simpl. apply NoDup_app. repeat split; assumption. }
  intros Hnd. apply (H0 []). exact Hnd.
Qed.

Lemma dict_elem_of_get {K V} `{EqDecision K} (k : K) (v : V) (d : dict K V) :
  NoDup (dict_keys d) -> (k, v) ∈ d -> dict_get k d = Some v.
Proof.
  induction d as [|[k0 v0] d IH]; simpl; intros Hnd Hin.
  - now apply elem_of_nil in Hin.
  - apply NoDup_cons in Hnd as [Hni Hnd]. apply elem_of_cons in Hin as [Heq|Hin].
    + injection Heq as -> ->. now rewrite decide_True.
    + destruct (decide (k = k0)) as [->|Hne]; [|now apply IH].
      destruct Hni. apply list_elem_of_fmap. exists (k0, v). split; [reflexivity | assumption].
Qed.

Lemma dict_at_ext {K V} `{EqDecision K} (d1 d2 : dict K V) (ks : list K) :
  (forall k, dict_get k d1 = dict_get k d2) -> dict_at d1 ks = dict_at d2 ks.
Proof.
  intros Hg. unfold dict_at. induction ks as [|k ks IH]; [reflexivity|].
  cbn [omap list_omap]. rewrite Hg. fold (omap (fun k => dict_get k d1) ks).
  fold (omap (fun k => dict_get k d2) ks). now rewrite IH.
Qed.

Lemma dict_at_ids (d : dict string Speaker.t) (ks : list string) :
  (forall k s, (k, s) ∈ d -> Speaker.speaker_id s = k) ->
  (forall k, k ∈ ks -> k ∈ dict_keys d) ->
  Speaker.speaker_id <$> dict_at d ks = ks.
Proof.
  intros Hid. unfold dict_at. induction ks as [|k ks IH]; intros Hin; [reflexivity|].
  simpl. destruct (dict_get k d) as [s|] eqn:Hg.
  - simpl. rewrite (Hid k s) by (now apply dict_get_elem_of). f_equal.
    apply IH. intros k' Hk'. apply Hin. apply elem_of_cons. now right.
  - apply dict_get_None in Hg. destruct Hg. apply Hin. apply elem_of_cons. now left.
Qed.

Lemma str_lt_iff (a b : string) : str_lt a b = true <-> str_le a b = true /\ a <> b.
Proof.
  unfold str_lt, str_le, String.ltb, String.leb.
  destruct (String.compare a b) eqn:Hc.
  - apply String.compare_eq_iff in Hc. subst. split; [discriminate | intros [_ ?]; congruence].
  - split; [|reflexivity]. intros _. split; [reflexivity|].
    intros ->. assert (Hr : String.compare b b = Eq); [|congruence].
    clear Hc. induction b as [|x b IH]; simpl; [reflexivity|].
    unfold Ascii.compare. now rewrite N.compare_refl.
  - split; [discriminate | intros [? _]; discriminate].
Qed.

Lemma sorted_strictly (ks : list string) :
  NoDup ks -> StronglySorted (fun x y => str_lt x y = true) (sorted ks).
Proof.
  intros Hnd. unfold sorted.
  assert (Hs : StronglySorted String.le (merge_sort String.le ks)).
  { apply StronglySorted_merge_sort; apply _. }
  assert (Hnd' : NoDup (merge_sort String.le ks)).
  { now rewrite merge_sort_Permutation. }
  revert Hs Hnd'. generalize (merge_sort String.le ks). intros l Hs.
  induction Hs as [|x l Hs IH Hall]; intros Hnd'; constructor.
  - apply IH. now apply NoDup_cons in Hnd'.
  - apply NoDup_cons in Hnd' as [Hni _].
    rewrite Forall_forall in *. intros y Hy. apply str_lt_iff. split.
    + apply Is_true_true. apply (Hall y). exact Hy.
    + intros ->. apply Hni. now apply list_elem_of_In.
Qed.

(** C7: for a transcript built by the public operations, the speaker
    table is printed as the blocks of the registered speakers, one after the
    other, in strictly ascending order of their identifiers, whatever the
    order of the registrations. *)
Theorem print_speaker_table_ascending (a : init_args) (ops : list op) (indentation_level : Z) :
  exists speakers : list Speaker.t,
    speakers ≡ₚ dict_values (speaker_table (build a ops))
    /\ StronglySorted (fun x y => str_lt x y = true) (Speaker.speaker_id <$> speakers)
    /\ print_speaker_table (build a ops) indentation_level =
         match speakers with
         | [] => str_mul tab indentation_level +:+ "<speakertable>" +:+ "</speakertable>"
         | _ => str_mul tab indentation_level +:+ "<speakertable>" +:+ nl
                  +:+ str_concat (map (fun s => Speaker.pretty_print s (indentation_level + 1)
                                                   +:+ nl) speakers)
                  +:+ str_mul tab indentation_level +:+ "</speakertable>"
         end.
Proof.
  destruct (build_speakers_keyed a ops) as [Hnd Hid].
  set (d := build a ops) in *.
  exists (dict_at (speaker_table d) (sorted (dict_keys (speaker_table d)))).
  assert (Hperm : sorted (dict_keys (speaker_table d)) ≡ₚ dict_keys (speaker_table d)).
  { apply merge_sort_Permutation. }
  split; [|split].
  - rewrite <- (dict_at_keys (speaker_table d)) by exact Hnd.
    unfold dict_at. now rewrite Hperm.
  - rewrite dict_at_ids.
    + now apply sorted_strictly.
    + exact Hid.
    + intros k Hk. now rewrite <- Hperm.
  - unfold print_speaker_table.
    destruct (speaker_table d) as [|[k0 s0] st] eqn:Hst.
    + change (dict_at [] (sorted (dict_keys []))) with (@nil Speaker.t).
      change (Z.of_nat (length []) =? 0)%Z with true. cbv iota.
      now rewrite str_app_assoc.
    + rewrite <- Hst in *.
      replace (Z.of_nat (length (speaker_table d)) =? 0)%Z with false
        by (rewrite Hst; reflexivity).
      rewrite fold_left_append.
      destruct (dict_at (speaker_table d) (sorted (dict_keys (speaker_table d)))) eqn:Hat.
      * exfalso.
        assert (Hlen : length (dict_at (speaker_table d) (sorted (dict_keys (speaker_table d))))
                       = length (dict_values (speaker_table d))).
        { rewrite <- (dict_at_keys (speaker_table d)) by exact Hnd.
          unfold dict_at. now rewrite Hperm. }
        rewrite Hat, Hst in Hlen. discriminate.
      * rewrite !str_app_assoc. reflexivity.
Qed.

(** Two registries with the same entries print the same table. *)
Lemma print_speaker_table_registration_order (d1 d2 : t) (indentation_level : Z) :
  NoDup (dict_keys (speaker_table d1)) ->
  speaker_table d1 ≡ₚ speaker_table d2 ->
  print_speaker_table d1 indentation_level = print_speaker_table d2 indentation_level.
Proof.
  intros Hnd Hp.
  assert (Hk : dict_keys (speaker_table d1) ≡ₚ dict_keys (speaker_table d2)).
  { unfold dict_keys. now rewrite Hp. }
  assert (Hnd2 : NoDup (dict_keys (speaker_table d2))) by now rewrite <- Hk.
  assert (Hs : sorted (dict_keys (speaker_table d1)) = sorted (dict_keys (speaker_table d2))).
  { unfold sorted. apply (StronglySorted_unique String.le).
    - apply StronglySorted_merge_sort; apply _.
    - apply StronglySorted_merge_sort; apply _.
    - now rewrite !merge_sort_Permutation. }
  assert (Hg : forall k, dict_get k (speaker_table d1) = dict_get k (speaker_table d2)).
  { intros k. destruct (dict_get k (speaker_table d1)) as [s|] eqn:H1.
    - apply dict_get_elem_of in H1. rewrite Hp in H1. symmetry.
      now apply dict_elem_of_get.
    - symmetry. apply dict_get_None. apply dict_get_None in H1. now rewrite <- Hk. }
  unfold print_speaker_table. rewrite (Permutation_length Hp), Hs.
  now rewrite (dict_at_ext _ _ _ Hg).
Qed.

End speaker_table_facts.

(** ** The loader: loops *)

Section loader_loops.
Import ExmaraldaTranscript Loaded.

Lemma for_each_nil {S X} (body : S -> X -> result S) (s : S) : for_each body [] s = Ok s.
Proof. reflexivity. Qed.

Lemma for_each_KeyError {S X} (body : S -> X -> result S) (xs : list X) (k : string) :
  fold_left (fun r x => s ← r; body s x) xs (KeyError k) = KeyError k.
Proof. induction xs as [|x xs IH]; simpl; [reflexivity | exact IH]. Qed.

Lemma for_each_cons {S X} (body : S -> X -> result S) (x : X) (xs : list X) (s : S) :
  for_each body (x :: xs) s = s' ← body s x; for_each body xs s'.
Proof.
  unfold for_each. simpl. destruct (body s x) as [s'|k]; simpl.
  - reflexivity.
  - apply for_each_KeyError.
Qed.

Lemma for_each_app {S X} (body : S -> X -> result S) (xs ys : list X) (s : S) :
  for_each body (xs ++ ys) s = s' ← for_each body xs s; for_each body ys s'.
Proof.
  revert s. induction xs as [|x xs IH]; intros s.
  - reflexivity.
  - rewrite <- app_comm_cons, !for_each_cons. destruct (body s x) as [s'|k]; simpl.
    + apply IH.
    + reflexivity.
Qed.

(** A property kept by every round that returns is kept by the loop. *)
Lemma for_each_invariant {S X} (P : S -> Prop) (body : S -> X -> result S)
    (xs : list X) (s s' : S) :
  (forall s x s', P s -> body s x = Ok s' -> P s') ->
  P s -> for_each body xs s = Ok s' -> P s'.
Proof.
  intros Hstep. revert s. induction xs as [|x xs IH]; intros s Hs Hrun.
  - rewrite for_each_nil in Hrun. now injection Hrun as <-.
  - rewrite for_each_cons in Hrun. destruct (body s x) as [s1|k] eqn:Hb; [|discriminate].
    simpl in Hrun. apply (IH s1); [|exact Hrun]. now apply (Hstep s x).
Qed.

(** A loop of setters leaves the value computed from the last element. *)
Lemma fold_left_last {S X} (f : S -> X -> S) (g : S -> string) (h : X -> string)
    (xs : list X) (s : S) :
  (forall s x, g (f s x) = h x) ->
  g (fold_left f xs s) = match last xs with Some x => h x | None => g s end.
Proof.
  intros Hf. revert s. induction xs as [|x xs IH]; intros s; [reflexivity|].
  simpl fold_left. rewrite IH. destruct xs as [|y xs]; [apply Hf|].
  change (last (x :: y :: xs)) with (last (y :: xs)).
  destruct (last (y :: xs)) eqn:Hl; [reflexivity|].
  apply last_None in Hl. discriminate.
Qed.

Lemma fold_left_frame {S X A} (f : S -> X -> S) (g : S -> A) (xs : list X) (s : S) :
  (forall s x, g (f s x) = g s) -> g (fold_left f xs s) = g s.
Proof.
  intros Hf. revert s. induction xs as [|x xs IH]; intros s; [reflexivity|].
  simpl. now rewrite IH.
Qed.

Lemma add_speaker_meta d i a s lu l1 l2 ud c :
  meta_information (add_speaker d i a s lu l1 l2 ud c) = meta_information d.
Proof. unfold add_speaker. now destruct (negb _). Qed.

Lemma add_tier_meta d i s c ty dn : meta_information (add_tier d i s c ty dn) = meta_information d.
Proof. unfold add_tier. now destruct (negb _). Qed.

Lemma add_event_meta d e i : meta_information (fst (add_event d e i)) = meta_information d.
Proof.
  unfold add_event. destruct (dict_contains _ _); [|reflexivity].
  simpl. now repeat (destruct (negb _); simpl).
Qed.

Lemma load_speaker_meta d x d' :
  load_speaker d x = Ok d' -> meta_information d' = meta_information d.
Proof.
  unfold load_speaker. destruct (ET.attr "id" x) as [i|k]; simpl; [|discriminate].
  intros [= <-]. apply add_speaker_meta.
Qed.

Lemma load_tli_meta st x st' :
  load_tli st x = Ok st' -> meta_information (fst st') = meta_information (fst st).
Proof.
  destruct st as [d c]. unfold load_tli.
  destruct (ET.attr "time" x) as [tm|k]; simpl; [|discriminate].
  destruct (ET.attr "id" x) as [i|k]; simpl; [|discriminate].
  now intros [= <-].
Qed.

Lemma load_event_meta tid (st : load_state) x st' :
  load_event tid st x = Ok st' ->
  meta_information (fst (fst st')) = meta_information (fst (fst st)).
Proof.
  destruct st as [[d c] o]. unfold load_event.
  destruct (negb (String.eqb (ET.tag x) "event")); [now intros [= <-]|].
  simpl. destruct (ET.attr "start" x) as [a|k]; simpl; [|discriminate].
  destruct (ET.attr "end" x) as [b|k]; simpl; [|discriminate].
  match goal with |- context [add_event ?d ?e ?i] =>
    pose proof (add_event_meta d e i) as Hm; destruct (add_event d e i) as [d1 pr] end.
  simpl in *. now intros [= <-].
Qed.

Lemma load_tier_meta (st : load_state) x st' :
  load_tier st x = Ok st' ->
  meta_information (fst (fst st')) = meta_information (fst (fst st)).
Proof.
  destruct st as [[d c] o]. unfold load_tier. intros Hrun.
  match type of Hrun with for_each _ _ (?d0, _, _) = _ =>
    assert (Hd0 : meta_information d0 = meta_information d) by apply add_tier_meta end.
  simpl. rewrite <- Hd0.
  revert Hrun. apply (for_each_invariant
    (fun st : load_state => meta_information (fst (fst st)) = _)); [|reflexivity].
  intros s y s' Hs Hb. rewrite (load_event_meta _ _ _ _ Hb). exact Hs.
Qed.

(** The three phases of [load] after the meta information. *)
Lemma load_phases (root : ET.Element) (running_id : Z) (st : load_state) :
  load root running_id = Ok st ->
  exists d1 d2 st3,
    d1 = fold_left (fun d c_info => set_comment d (stripped_text c_info))
           (ET.iter "<comment>" root)
           (fold_left (fun d c_info => set_transcription_convention d (stripped_text c_info))
              (ET.iter "transcription-convention>" root)
              (fold_left (fun d c_info => set_transcription_name d (stripped_text c_info))
                 (ET.iter "transcription-name" root)
                 (fold_left (fun d c_info => set_project_name d (stripped_text c_info))
                    (ET.iter "project-name" root) (__init__ "" "" "" "" "" ""))))
    /\ for_each load_speaker (ET.iter "speaker" root) d1 = Ok d2
    /\ for_each load_tli (ET.iter "tli" root) (d2, running_id) = Ok st3
    /\ for_each load_tier (ET.iter "tier" root) (st3, []) = Ok st.
Proof.
  unfold load. intros Hrun.
  match type of Hrun with context [for_each load_speaker _ ?d] => set (d1 := d) in * end.
  destruct (for_each load_speaker (ET.iter "speaker" root) d1) as [d2|k] eqn:H2;
    simpl in Hrun; [|discriminate].
  destruct (for_each load_tli (ET.iter "tli" root) (d2, running_id)) as [st3|k] eqn:H3;
    simpl in Hrun; [|discriminate].
  exists d1, d2, st3. repeat split; assumption.
Qed.

Lemma load_meta (root : ET.Element) (running_id : Z) (st : load_state) :
  load root running_id = Ok st ->
  meta_information (fst (fst st)) =
    mk_meta (last_stripped_text (ET.iter "project-name" root))
            (last_stripped_text (ET.iter "transcription-name" root))
            [] ""
            (last_stripped_text (ET.iter "<comment>" root))
            (last_stripped_text (ET.iter "transcription-convention>" root)).
Proof.
  intros Hrun. destruct (load_phases _ _ _ Hrun) as (d1 & d2 & st3 & Hd1 & H2 & H3 & H4).
  assert (Hm4 : meta_information (fst (fst st)) = meta_information (fst st3)).
  { revert H4. apply (for_each_invariant
      (fun s : load_state => meta_information (fst (fst s)) = _)); [|reflexivity].
    intros s x s' Hs Hb. rewrite (load_tier_meta _ _ _ Hb). exact Hs. }
  assert (Hm3 : meta_information (fst st3) = meta_information d2).
  { revert H3. apply (for_each_invariant
      (fun s : t * Z => meta_information (fst s) = _)); [|reflexivity].
    intros s x s' Hs Hb. rewrite (load_tli_meta _ _ _ Hb). exact Hs. }
  assert (Hm2 : meta_information d2 = meta_information d1).
  { revert H2. apply (for_each_invariant (fun s : t => meta_information s = _)); [|reflexivity].
    intros s x s' Hs Hb. rewrite (load_speaker_meta _ _ _ Hb). exact Hs. }
  rewrite Hm4, Hm3, Hm2, Hd1. clear.
  unfold last_stripped_text.
  set (f1 := fun d c_info => set_project_name d (stripped_text c_info)).
  set (f2 := fun d c_info => set_transcription_name d (stripped_text c_info)).
  set (f3 := fun d c_info => set_transcription_convention d (stripped_text c_info)).
  set (f4 := fun d c_info => set_comment d (stripped_text c_info)).
  set (d0 := __init__ "" "" "" "" "" "").
  set (l1 := ET.iter "project-name" root).
  set (l2 := ET.iter "transcription-name" root).
  set (l3 := ET.iter "transcription-convention>" root).
  set (l4 := ET.iter "<comment>" root).
  assert (E1 : project_name (meta_information (fold_left f1 l1 d0))
               = match last l1 with Some x => stripped_text x | None => "" end).
  { now rewrite (fold_left_last f1 (fun d => project_name (meta_information d)) stripped_text). }
  assert (E2 : transcription_name (meta_information (fold_left f2 l2 (fold_left f1 l1 d0)))
               = match last l2 with Some x => stripped_text x | None => "" end).
  { rewrite (fold_left_last f2 (fun d => transcription_name (meta_information d)) stripped_text)
      by reflexivity.
    destruct (last l2); [reflexivity|].
    now rewrite (fold_left_frame f1 (fun d => transcription_name (meta_information d))). }
  assert (E3 : transcription_convention
                 (meta_information (fold_left f3 l3 (fold_left f2 l2 (fold_left f1 l1 d0))))
               = match last l3 with Some x => stripped_text x | None => "" end).
  { rewrite (fold_left_last f3 (fun d => transcription_convention (meta_information d))
               stripped_text) by reflexivity.
    destruct (last l3); [reflexivity|].
    rewrite (fold_left_frame f2 (fun d => transcription_convention (meta_information d)))
      by reflexivity.
    now rewrite (fold_left_frame f1 (fun d => transcription_convention (meta_information d))). }
  assert (E4 : comment (meta_information
                 (fold_left f4 l4 (fold_left f3 l3 (fold_left f2 l2 (fold_left f1 l1 d0)))))
               = match last l4 with Some x => stripped_text x | None => "" end).
  { rewrite (fold_left_last f4 (fun d => comment (meta_information d)) stripped_text)
      by reflexivity.
    destruct (last l4); [reflexivity|].
    rewrite (fold_left_frame f3 (fun d => comment (meta_information d))) by reflexivity.
    rewrite (fold_left_frame f2 (fun d => comment (meta_information d))) by reflexivity.
    now rewrite (fold_left_frame f1 (fun d => comment (meta_information d))). }
  rewrite <- E1, <- E2, <- E3, <- E4.
  rewrite <- (fold_left_frame f4 (fun d => transcription_convention (meta_information d)) l4)
    by reflexivity.
  rewrite <- (fold_left_frame f3 (fun d => transcription_name (meta_information d)) l3)
    by reflexivity.
  rewrite <- (fold_left_frame f4 (fun d => transcription_name (meta_information d)) l4)
    by reflexivity.
  rewrite <- (fold_left_frame f2 (fun d => project_name (meta_information d)) l2)
    by reflexivity.
  rewrite <- (fold_left_frame f3 (fun d => project_name (meta_information d)) l3)
    by reflexivity.
  rewrite <- (fold_left_frame f4 (fun d => project_name (meta_information d)) l4)
    by reflexivity.
  set (dd := fold_left f4 l4 _).
  assert (Er : referenced_file_url (meta_information dd) = []).
  { unfold dd.
    rewrite (fold_left_frame f4 (fun d => referenced_file_url (meta_information d)))
      by reflexivity.
    rewrite (fold_left_frame f3 (fun d => referenced_file_url (meta_information d)))
      by reflexivity.
    rewrite (fold_left_frame f2 (fun d => referenced_file_url (meta_information d)))
      by reflexivity.
    now rewrite (fold_left_frame f1 (fun d => referenced_file_url (meta_information d))). }
  assert (Eu : ud_meta_information (meta_information dd) = "").
  { unfold dd.
    rewrite (fold_left_frame f4 (fun d => ud_meta_information (meta_information d)))
      by reflexivity.
    rewrite (fold_left_frame f3 (fun d => ud_meta_information (meta_information d)))
      by reflexivity.
    rewrite (fold_left_frame f2 (fun d => ud_meta_information (meta_information d)))
      by reflexivity.
    now rewrite (fold_left_frame f1 (fun d => ud_meta_information (meta_information d))). }
  rewrite <- Er at 1. rewrite <- Eu at 1.
  now destruct (meta_information dd).
Qed.

End loader_loops.

(** ** The loader: meta information *)

Section loader_meta.
Import ExmaraldaTranscript Loaded.

Lemma last_stripped_text_snoc pre c_info :
  last_stripped_text (pre ++ [c_info]) = stripped_text c_info.
Proof. unfold last_stripped_text. now rewrite last_snoc. Qed.

(** The claim C6 as stated fails: the text of [project-name] is stripped
    of the white space around it before it is stored. *)
Lemma load_strips_project_name :
  exists d,
    load padded_input 0 = Ok (d, 0%Z, [])
    /\ ET.iter "project-name" padded_input = [leaf "project-name" [] (Some " My Test Project ")]
    /\ get_project_name d = "My Test Project"
    /\ get_project_name d <> " My Test Project ".
Proof.
  eexists. split; [vm_compute; reflexivity|]. split; [reflexivity|].
  split; [reflexivity | discriminate].
Qed.

(** C6, amended: when [load] returns, the project name and the
    transcription name are the text, stripped of the white space around it,
    of the last element of that name in the input, and are empty when that
    element has no text or when the input has no such element. *)
Theorem load_project_and_transcription_name
    (root : ET.Element) (running_id : Z) (d : t) (running_id' : Z) (out : list printed) :
  load root running_id = Ok (d, running_id', out) ->
  (forall pre c_info, ET.iter "project-name" root = pre ++ [c_info] ->
     get_project_name d = match ET.text c_info with Some s => strip s | None => "" end)
  /\ (ET.iter "project-name" root = [] -> get_project_name d = "")
  /\ (forall pre c_info, ET.iter "transcription-name" root = pre ++ [c_info] ->
        get_transcription_name d = match ET.text c_info with Some s => strip s | None => "" end)
  /\ (ET.iter "transcription-name" root = [] -> get_transcription_name d = "").
Proof.
  intros Hrun. apply load_meta in Hrun. simpl in Hrun.
  unfold get_project_name, get_transcription_name. rewrite Hrun. simpl.
  repeat split.
  - intros pre c_info ->. now rewrite last_stripped_text_snoc.
  - now intros ->.
  - intros pre c_info ->. now rewrite last_stripped_text_snoc.
  - now intros ->.
Qed.

Lemma load_project_and_transcription_name_witness :
  load padded_input 0 =
    Ok (set_transcription_name (set_project_name (__init__ "" "" "" "" "" "") "My Test Project")
          "Exmaralda", 0%Z, [])
  /\ get_project_name
       (set_transcription_name (set_project_name (__init__ "" "" "" "" "" "") "My Test Project")
          "Exmaralda") = strip " My Test Project ".
Proof.
  assert (Hrun : load padded_input 0 =
    Ok (set_transcription_name (set_project_name (__init__ "" "" "" "" "" "") "My Test Project")
          "Exmaralda", 0%Z, [])).
  { vm_compute. reflexivity. }
  split; [exact Hrun|].
  exact (proj1 (load_project_and_transcription_name _ _ _ _ _ Hrun) []
           (leaf "project-name" [] (Some " My Test Project ")) eq_refl).
Defined.

(** The loops that should read the comment and the transcription
    convention look for the tags [<comment>] and
    [transcription-convention>]: in an input that has no element of these
    names the two fields stay empty, whatever its [comment] and
    [transcription-convention] elements hold. *)
Lemma load_comment_and_convention
    (root : ET.Element) (running_id : Z) (d : t) (running_id' : Z) (out : list printed) :
  load root running_id = Ok (d, running_id', out) ->
  ET.iter "<comment>" root = [] -> ET.iter "transcription-convention>" root = [] ->
  get_comment d = "" /\ get_transcription_convention d = "".
Proof.
  intros Hrun H1 H2. apply load_meta in Hrun. simpl in Hrun.
  unfold get_comment, get_transcription_convention. rewrite Hrun, H1, H2. now split.
Qed.

Example load_drops_comment :
  exists d,
    load padded_input 0 = Ok (d, 0%Z, [])
    /\ ET.iter "comment" padded_input = [leaf "comment" [] (Some "This is nonsense.")]
    /\ get_comment d = ""
    /\ get_transcription_convention d = "".
Proof. eexists. split; [vm_compute; reflexivity|]. repeat split. Qed.

End loader_meta.

(** ** The loader: speakers, tiers and defaults *)

Section loader_defaults.
Import ExmaraldaTranscript Loaded.

Lemma for_each_prefix_invariant {S X} (P : list X -> S -> Prop) (body : S -> X -> result S)
    (xs : list X) (s s' : S) :
  (forall l s x s', P l s -> body s x = Ok s' -> P (l ++ [x]) s') ->
  P [] s -> for_each body xs s = Ok s' -> P xs s'.
Proof.
  intros Hstep H0 Hrun.
  assert (Hgen : forall pre s, P pre s -> for_each body xs s = Ok s' -> P (pre ++ xs) s').
  { clear H0 Hrun s. induction xs as [|x xs IH]; intros pre s Hp Hrun.
    - rewrite for_each_nil in Hrun. injection Hrun as <-. now rewrite app_nil_r.
    - rewrite for_each_cons in Hrun. destruct (body s x) as [s1|k] eqn:Hb; [|discriminate].
      simpl in Hrun. replace (pre ++ x :: xs) with ((pre ++ [x]) ++ xs)
        by now rewrite <- app_assoc.
      apply (IH _ s1); [|exact Hrun]. now apply (Hstep pre s). }
  now apply (Hgen [] s).
Qed.

Lemma for_each_returns {S X} (body : S -> X -> result S) (xs : list X) (s : S) :
  (forall x s, x ∈ xs -> exists s', body s x = Ok s') -> exists s', for_each body xs s = Ok s'.
Proof.
  revert s. induction xs as [|x xs IH]; intros s Hall.
  - exists s. reflexivity.
  - rewrite for_each_cons. destruct (Hall x s) as [s1 Hs1]; [apply elem_of_cons; now left|].
    rewrite Hs1. simpl. apply IH. intros y s2 Hy. apply Hall. apply elem_of_cons. now right.
Qed.

Lemma attr_present (k : string) (e : ET.Element) :
  has_attr k e -> ET.attr k e = Ok (default "" (dict_get k (ET.attrib e))).
Proof.
  unfold has_attr, ET.attr. intros Hin. apply dict_get_is_Some in Hin as [v Hv].
  now rewrite Hv.
Qed.

Lemma attr_Ok (k : string) (e : ET.Element) (v : string) :
  ET.attr k e = Ok v -> has_attr k e /\ v = default "" (dict_get k (ET.attrib e)).
Proof.
  unfold has_attr, ET.attr. destruct (dict_get k (ET.attrib e)) as [w|] eqn:Hg; [|discriminate].
  intros [= <-]. split; [|reflexivity]. apply dict_get_is_Some. now rewrite Hg.
Qed.

Lemma attr_or_empty_absent (k : string) (e : ET.Element) :
  ~ has_attr k e -> ET.attr_or_empty k e = "".
Proof.
  unfold has_attr, ET.attr_or_empty. intros Hni. apply dict_contains_false in Hni.
  now rewrite Hni.
Qed.

(** *** Entries that are added unless their key is taken *)

Section add_absent.
Context {K V X : Type} `{EqDecision K} (key : X -> K) (val : X -> V).

Lemma register_all_snoc l x d :
  register_all key val (l ++ [x]) d = dict_add_absent (key x) (val x) (register_all key val l d).
Proof. unfold register_all. now rewrite fold_left_app. Qed.

Lemma dict_add_absent_keys k v (d : dict K V) :
  forall k', k' ∈ dict_keys (dict_add_absent k v d) <-> k' = k \/ k' ∈ dict_keys d.
Proof.
  intros k'. unfold dict_add_absent. destruct (dict_contains k d) eqn:Hc.
  - apply dict_contains_true in Hc. split; [now right | intros [->|?]; assumption].
  - apply dict_contains_false in Hc. rewrite dict_set_absent by assumption.
    rewrite dict_keys_app. simpl. rewrite elem_of_app, list_elem_of_singleton. tauto.
Qed.

Lemma register_all_keys l :
  forall k, k ∈ dict_keys (register_all key val l []) <-> exists x, x ∈ l /\ key x = k.
Proof.
  induction l as [|x l IH] using rev_ind; intros k.
  - simpl. split; [intros Hin; now apply elem_of_nil in Hin|].
    intros (x & Hx & _). now apply elem_of_nil in Hx.
  - rewrite register_all_snoc, dict_add_absent_keys, IH. split.
    + intros [->|(y & Hy & <-)].
      * exists x. split; [|reflexivity]. apply elem_of_app. right.
        now apply list_elem_of_singleton.
      * exists y. split; [|reflexivity]. apply elem_of_app. now left.
    + intros (y & Hy & <-). apply elem_of_app in Hy as [Hy|Hy].
      * right. now exists y.
      * apply list_elem_of_singleton in Hy. subst. now left.
Qed.

(** Each entry comes from the first element that has its key. *)
Lemma register_all_get l k v :
  dict_get k (register_all key val l []) = Some v ->
  exists pre x post,
    l = pre ++ x :: post /\ key x = k /\ (forall y, y ∈ pre -> key y <> k) /\ v = val x.
Proof.
  revert v. induction l as [|x l IH] using rev_ind; intros v.
  - discriminate.
  - rewrite register_all_snoc. unfold dict_add_absent.
    destruct (dict_contains (key x) (register_all key val l [])) eqn:Hc.
    + intros Hg. destruct (IH v Hg) as (pre & x0 & post & -> & Hk & Hpre & Hv).
      exists pre, x0, (post ++ [x]). rewrite <- app_assoc. simpl. repeat split; assumption.
    + apply dict_contains_false in Hc. destruct (decide (k = key x)) as [->|Hne].
      * rewrite dict_get_set_eq. intros [= <-]. exists l, x, []. repeat split.
        intros y Hy Heq. apply Hc. apply register_all_keys. now exists y.
      * rewrite dict_get_set_ne by congruence. intros Hg.
        destruct (IH v Hg) as (pre & x0 & post & -> & Hk & Hpre & Hv).
        exists pre, x0, (post ++ [x]). rewrite <- app_assoc. simpl. repeat split; assumption.
Qed.

End add_absent.

(** *** Speakers *)

Lemma add_speaker_table d i a s lu l1 l2 ud c :
  speaker_table (add_speaker d i a s lu l1 l2 ud c) =
    dict_add_absent i (Speaker.__init__ i a s lu l1 l2 ud c) (speaker_table d).
Proof.
  unfold add_speaker, contains_speaker, dict_add_absent.
  now destruct (dict_contains i (speaker_table d)).
Qed.

Lemma load_speaker_Ok d x d' :
  load_speaker d x = Ok d' ->
  has_attr "id" x
  /\ speaker_table d' =
       dict_add_absent (Speaker.speaker_id (speaker_of_xml x)) (speaker_of_xml x) (speaker_table d)
  /\ timeline d' = timeline d /\ tiers d' = tiers d.
Proof.
  unfold load_speaker. destruct (ET.attr "id" x) as [i|k] eqn:Ha; simpl; [|discriminate].
  apply attr_Ok in Ha as [Hin ->]. intros [= <-]. split; [exact Hin|].
  rewrite add_speaker_table. split; [reflexivity|].
  unfold add_speaker. now destruct (negb _).
Qed.

Lemma load_tli_Ok st x st' :
  load_tli st x = Ok st' ->
  speaker_table (fst st') = speaker_table (fst st) /\ tiers (fst st') = tiers (fst st).
Proof.
  destruct st as [d c]. unfold load_tli.
  destruct (ET.attr "time" x) as [tm|k]; simpl; [|discriminate].
  destruct (ET.attr "id" x) as [i|k]; simpl; [|discriminate].
  intros [= <-]. now split.
Qed.

Lemma tier_headers_alter f k ts :
  (forall t, tier_header (f t) = tier_header t) ->
  tier_headers (dict_alter f k ts) = tier_headers ts.
Proof.
  intros Hf. unfold tier_headers. induction ts as [|[k' t] ts IH]; [reflexivity|].
  simpl. destruct (decide (k = k')); simpl.
  - now rewrite Hf.
  - f_equal. exact IH.
Qed.

Lemma add_event_frame d e i :
  speaker_table (fst (add_event d e i)) = speaker_table d
  /\ tier_headers (tiers (fst (add_event d e i))) = tier_headers (tiers d).
Proof.
  unfold add_event. destruct (dict_contains i (tiers d)); [|now split].
  simpl. repeat (destruct (negb _); simpl); (split; [reflexivity|]);
    now apply tier_headers_alter.
Qed.

Lemma load_event_Ok tid (st : load_state) x st' :
  load_event tid st x = Ok st' ->
  speaker_table (fst (fst st')) = speaker_table (fst (fst st))
  /\ tier_headers (tiers (fst (fst st'))) = tier_headers (tiers (fst (fst st))).
Proof.
  destruct st as [[d c] o]. unfold load_event.
  destruct (negb (String.eqb (ET.tag x) "event")); [intros [= <-]; now split|].
  simpl. destruct (ET.attr "start" x) as [a|k]; simpl; [|discriminate].
  destruct (ET.attr "end" x) as [b|k]; simpl; [|discriminate].
  match goal with |- context [add_event ?d ?e ?i] =>
    pose proof (add_event_frame d e i) as Hm; destruct (add_event d e i) as [d1 pr] end.
  simpl in *. now intros [= <-].
Qed.

Lemma tier_headers_keys ts : dict_keys (tier_headers ts) = dict_keys ts.
Proof.
  unfold tier_headers, dict_keys. rewrite <- list_fmap_compose. reflexivity.
Qed.

Lemma tier_headers_add_absent k t ts :
  tier_headers (dict_add_absent k t ts) = dict_add_absent k (tier_header t) (tier_headers ts).
Proof.
  unfold dict_add_absent, dict_contains. rewrite tier_headers_keys.
  destruct (bool_decide (k ∈ dict_keys ts)); [reflexivity|].
  unfold tier_headers. induction ts as [|[k' t'] ts IH]; [reflexivity|].
  simpl. destruct (decide (k = k')); simpl; [reflexivity|]. f_equal. exact IH.
Qed.

Lemma tier_headers_get k ts : dict_get k (tier_headers ts) = tier_header <$> dict_get k ts.
Proof.
  unfold tier_headers. induction ts as [|[k' t'] ts IH]; [reflexivity|].
  simpl. destruct (decide (k = k')); [reflexivity | exact IH].
Qed.

Lemma add_tier_tiers d i s c ty dn :
  tiers (add_tier d i s c ty dn) = dict_add_absent i (Tier.__init__ i s c ty dn) (tiers d)
  /\ speaker_table (add_tier d i s c ty dn) = speaker_table d.
Proof.
  unfold add_tier, dict_add_absent. now destruct (dict_contains i (tiers d)).
Qed.

Lemma load_tier_Ok (st : load_state) x st' :
  load_tier st x = Ok st' ->
  speaker_table (fst (fst st')) = speaker_table (fst (fst st))
  /\ tier_headers (tiers (fst (fst st'))) =
       dict_add_absent (ET.attr_or_empty "id" x) (tier_of_xml x)
         (tier_headers (tiers (fst (fst st)))).
Proof.
  destruct st as [[d c] o]. unfold load_tier. intros Hrun.
  match type of Hrun with for_each _ _ (?d0, _, _) = _ => set (d1 := d0) in * end.
  destruct (add_tier_tiers d (ET.attr_or_empty "id" x) (ET.attr_or_empty "speaker" x)
              (ET.attr_or_empty "category" x) (ET.attr_or_empty "type" x)
              (ET.attr_or_empty "display-name" x)) as [Ht Hs].
  fold d1 in Ht, Hs.
  assert (Hinv : speaker_table (fst (fst st')) = speaker_table d1
                 /\ tier_headers (tiers (fst (fst st'))) = tier_headers (tiers d1)).
  { revert Hrun. apply (for_each_invariant
      (fun s : load_state => speaker_table (fst (fst s)) = speaker_table d1
         /\ tier_headers (tiers (fst (fst s))) = tier_headers (tiers d1))); [|now split].
    intros s y s' [H1 H2] Hb. apply load_event_Ok in Hb as [H3 H4].
    split; congruence. }
  destruct Hinv as [H1 H2]. simpl. split; [congruence|].
  rewrite H2, Ht, tier_headers_add_absent. reflexivity.
Qed.

(** What [load] leaves in the speaker table and in the tiers. *)
Lemma load_registers (root : ET.Element) (running_id : Z) (st : load_state) :
  load root running_id = Ok st ->
  speaker_table (fst (fst st)) =
    register_all (fun x => Speaker.speaker_id (speaker_of_xml x)) speaker_of_xml
      (ET.iter "speaker" root) []
  /\ tier_headers (tiers (fst (fst st))) =
       register_all (ET.attr_or_empty "id") tier_of_xml (ET.iter "tier" root) []
  /\ Forall (has_attr "id") (ET.iter "speaker" root).
Proof.
  intros Hrun. destruct (load_phases _ _ _ Hrun) as (d1 & d2 & st3 & Hd1 & H2 & H3 & H4).
  assert (Hd1' : speaker_table d1 = [] /\ tiers d1 = []).
  { rewrite Hd1. split.
    - now rewrite !(fold_left_frame _ speaker_table) by reflexivity.
    - now rewrite !(fold_left_frame _ tiers) by reflexivity. }
  destruct Hd1' as [Hs1 Ht1].
  assert (P2 : (speaker_table d2 =
                  register_all (fun x => Speaker.speaker_id (speaker_of_xml x)) speaker_of_xml
                    (ET.iter "speaker" root) []
                /\ tiers d2 = [])
               /\ Forall (has_attr "id") (ET.iter "speaker" root)).
  { revert H2. apply (for_each_prefix_invariant
      (fun l (d : t) =>
         (speaker_table d =
            register_all (fun x => Speaker.speaker_id (speaker_of_xml x)) speaker_of_xml l []
          /\ tiers d = []) /\ Forall (has_attr "id") l)).
    - intros l d x d' [[Hs Ht] Hf] Hb. apply load_speaker_Ok in Hb as (Hid & Hs' & _ & Ht').
      split; [split|].
      + now rewrite register_all_snoc, Hs', Hs.
      + congruence.
      + apply Forall_app. split; [exact Hf | now constructor].
    - repeat split; [assumption.. | constructor]. }
  destruct P2 as [[Hs2 Ht2] Hids].
  assert (P3 : speaker_table (fst st3) = speaker_table d2 /\ tiers (fst st3) = []).
  { revert H3. apply (for_each_invariant
      (fun s : t * Z => speaker_table (fst s) = speaker_table d2 /\ tiers (fst s) = []));
      [|now split].
    intros s x s' [Ha Hb] Hrun'. apply load_tli_Ok in Hrun' as [Hc Hd]. split; congruence. }
  destruct P3 as [Hs3 Ht3].
  assert (P4 : speaker_table (fst (fst st)) = speaker_table d2
               /\ tier_headers (tiers (fst (fst st))) =
                    register_all (ET.attr_or_empty "id") tier_of_xml (ET.iter "tier" root) []).
  { revert H4. apply (for_each_prefix_invariant
      (fun l (s : load_state) =>
         speaker_table (fst (fst s)) = speaker_table d2
         /\ tier_headers (tiers (fst (fst s))) =
              register_all (ET.attr_or_empty "id") tier_of_xml l [])).
    - intros l s x s' [Ha Hb] Hrun'. apply load_tier_Ok in Hrun' as [Hc Hd].
      split; [congruence|]. now rewrite register_all_snoc, Hd, Hb.
    - simpl. split; [exact Hs3|]. now rewrite Ht3. }
  destruct P4 as [Hs4 Ht4]. split; [congruence|]. split; assumption.
Qed.

(** *** The children of a speaker element *)

Lemma if_abbreviation_fields v c :
  v_abbr (if_abbreviation v c) =
    (if String.eqb (ET.tag c) "abbreviation"
     then match ET.text c with Some x => x | None => v_abbr v end else v_abbr v)
  /\ v_sex (if_abbreviation v c) = v_sex v /\ v_lang (if_abbreviation v c) = v_lang v
  /\ v_l1 (if_abbreviation v c) = v_l1 v /\ v_l2 (if_abbreviation v c) = v_l2 v
  /\ v_comment (if_abbreviation v c) = v_comment v.
Proof.
  unfold if_abbreviation. destruct (ET.text c), (String.eqb (ET.tag c) "abbreviation");
    repeat split.
Qed.

Lemma if_sex_fields v c :
  v_sex (if_sex v c) =
    (if String.eqb (ET.tag c) "sex" && dict_contains "value" (ET.attrib c)
     then default "" (dict_get "value" (ET.attrib c)) else v_sex v)
  /\ v_abbr (if_sex v c) = v_abbr v /\ v_lang (if_sex v c) = v_lang v
  /\ v_l1 (if_sex v c) = v_l1 v /\ v_l2 (if_sex v c) = v_l2 v
  /\ v_comment (if_sex v c) = v_comment v.
Proof.
  unfold if_sex.
  destruct (String.eqb (ET.tag c) "sex" && dict_contains "value" (ET.attrib c)); repeat split.
Qed.

Lemma if_l1_fields v c :
  v_l1 (if_l1 v c) =
    (if String.eqb (ET.tag c) "l1"
     then match ET.text c with Some x => v_l1 v ++ [x] | None => v_l1 v end else v_l1 v)
  /\ v_abbr (if_l1 v c) = v_abbr v /\ v_sex (if_l1 v c) = v_sex v
  /\ v_lang (if_l1 v c) = v_lang v /\ v_l2 (if_l1 v c) = v_l2 v
  /\ v_comment (if_l1 v c) = v_comment v.
Proof.
  unfold if_l1. destruct (ET.text c), (String.eqb (ET.tag c) "l1"); repeat split.
Qed.

Lemma if_l2_fields v c :
  v_l2 (if_l2 v c) =
    (if String.eqb (ET.tag c) "l2"
     then match ET.text c with Some x => v_l2 v ++ [x] | None => v_l2 v end else v_l2 v)
  /\ v_abbr (if_l2 v c) = v_abbr v /\ v_sex (if_l2 v c) = v_sex v
  /\ v_lang (if_l2 v c) = v_lang v /\ v_l1 (if_l2 v c) = v_l1 v
  /\ v_comment (if_l2 v c) = v_comment v.
Proof.
  unfold if_l2. destruct (ET.text c), (String.eqb (ET.tag c) "l2"); repeat split.
Qed.

Lemma if_comment_fields v c :
  v_comment (if_comment v c) =
    (if String.eqb (ET.tag c) "comment"
     then match ET.text c with Some x => x | None => v_comment v end else v_comment v)
  /\ v_abbr (if_comment v c) = v_abbr v /\ v_sex (if_comment v c) = v_sex v
  /\ v_lang (if_comment v c) = v_lang v /\ v_l1 (if_comment v c) = v_l1 v
  /\ v_l2 (if_comment v c) = v_l2 v.
Proof.
  unfold if_comment. destruct (ET.text c), (String.eqb (ET.tag c) "comment"); repeat split.
Qed.

Lemma if_languages_used_fields v c :
  v_lang (if_languages_used v c) =
    (if String.eqb (ET.tag c) "languages-used"
     then match ET.text c with Some x => v_lang v ++ [x] | None => v_lang v end
     else v_lang v)
  /\ v_abbr (if_languages_used v c) = v_abbr v /\ v_sex (if_languages_used v c) = v_sex v
  /\ v_l1 (if_languages_used v c) = v_l1 v /\ v_l2 (if_languages_used v c) = v_l2 v
  /\ v_comment (if_languages_used v c) = v_comment v.
Proof.
  unfold if_languages_used. destruct (ET.text c), (String.eqb (ET.tag c) "languages-used");
    repeat split.
Qed.

Lemma load_speaker_child_fields v c :
  v_abbr (load_speaker_child v c) =
    (if String.eqb (ET.tag c) "abbreviation"
     then match ET.text c with Some x => x | None => v_abbr v end else v_abbr v)
  /\ v_sex (load_speaker_child v c) =
       (if String.eqb (ET.tag c) "sex" && dict_contains "value" (ET.attrib c)
        then default "" (dict_get "value" (ET.attrib c)) else v_sex v)
  /\ v_lang (load_speaker_child v c) =
       (if String.eqb (ET.tag c) "languages-used"
        then match ET.text c with Some x => v_lang v ++ [x] | None => v_lang v end
        else v_lang v)
  /\ v_l1 (load_speaker_child v c) =
       (if String.eqb (ET.tag c) "l1"
        then match ET.text c with Some x => v_l1 v ++ [x] | None => v_l1 v end else v_l1 v)
  /\ v_l2 (load_speaker_child v c) =
       (if String.eqb (ET.tag c) "l2"
        then match ET.text c with Some x => v_l2 v ++ [x] | None => v_l2 v end else v_l2 v)
  /\ v_comment (load_speaker_child v c) =
       (if String.eqb (ET.tag c) "comment"
        then match ET.text c with Some x => x | None => v_comment v end else v_comment v).
Proof.
  unfold load_speaker_child. cbv zeta.
  destruct (if_languages_used_fields
              (if_comment (if_l2 (if_l1 (if_sex (if_abbreviation v c) c) c) c) c) c)
    as (A0 & A1 & A2 & A3 & A4 & A5).
  destruct (if_comment_fields (if_l2 (if_l1 (if_sex (if_abbreviation v c) c) c) c) c)
    as (B0 & B1 & B2 & B3 & B4 & B5).
  destruct (if_l2_fields (if_l1 (if_sex (if_abbreviation v c) c) c) c)
    as (C0 & C1 & C2 & C3 & C4 & C5).
  destruct (if_l1_fields (if_sex (if_abbreviation v c) c) c) as (D0 & D1 & D2 & D3 & D4 & D5).
  destruct (if_sex_fields (if_abbreviation v c) c) as (E0 & E1 & E2 & E3 & E4 & E5).
  destruct (if_abbreviation_fields v c) as (F0 & F1 & F2 & F3 & F4 & F5).
  repeat split.
  - now rewrite A1, B1, C1, D1, E1, F0.
  - now rewrite A2, B2, C2, D2, E0, F1.
  - now rewrite A0, B3, C3, D3, E2, F2.
  - now rewrite A3, B4, C4, D0, E3, F3.
  - now rewrite A4, B5, C0, D4, E4, F4.
  - now rewrite A5, B0, C5, D5, E5, F5.
Qed.

(** A field that no child sets keeps its value. *)
Lemma speaker_vars_kept {A} (f : speaker_vars -> A) (skip : ET.Element -> Prop)
    (cs : list ET.Element) (v : speaker_vars) :
  (forall v c, skip c -> f (load_speaker_child v c) = f v) ->
  (forall c, c ∈ cs -> skip c) ->
  f (fold_left load_speaker_child cs v) = f v.
Proof.
  intros Hstep. revert v. induction cs as [|c cs IH]; intros v Hall; [reflexivity|].
  simpl. rewrite IH.
  - apply Hstep, Hall. apply elem_of_cons. now left.
  - intros c' Hc'. apply Hall. apply elem_of_cons. now right.
Qed.

Lemma eqb_tag_false (c : ET.Element) (tg : string) (P : Prop) :
  (ET.tag c = tg -> P) -> String.eqb (ET.tag c) tg = true -> P.
Proof. intros H Ht. apply H. now apply String.eqb_eq. Qed.

(** The defaults of a speaker: a field is empty when no child sets it. *)
Lemma speaker_of_xml_defaults (x : ET.Element) :
  ((forall c, c ∈ ET.children x -> ET.tag c = "abbreviation" -> ET.text c = None) ->
     Speaker.abbreviation (speaker_of_xml x) = "")
  /\ ((forall c, c ∈ ET.children x -> ET.tag c = "sex" -> ~ has_attr "value" c) ->
        Speaker.sex (speaker_of_xml x) = "")
  /\ ((forall c, c ∈ ET.children x -> ET.tag c = "languages-used" -> ET.text c = None) ->
        Speaker.languages_used (speaker_of_xml x) = [])
  /\ ((forall c, c ∈ ET.children x -> ET.tag c = "l1" -> ET.text c = None) ->
        Speaker.l1 (speaker_of_xml x) = [])
  /\ ((forall c, c ∈ ET.children x -> ET.tag c = "l2" -> ET.text c = None) ->
        Speaker.l2 (speaker_of_xml x) = [])
  /\ ((forall c, c ∈ ET.children x -> ET.tag c = "comment" -> ET.text c = None) ->
        Speaker.comment (speaker_of_xml x) = "").
Proof.
  unfold speaker_of_xml, speaker_vars_of. simpl.
  repeat split; intros Hall.
  - rewrite (speaker_vars_kept v_abbr
               (fun c => ET.tag c = "abbreviation" -> ET.text c = None)); [reflexivity| |exact Hall].
    intros v c Hc. rewrite (proj1 (load_speaker_child_fields v c)).
    destruct (String.eqb (ET.tag c) "abbreviation") eqn:Ht; [|reflexivity].
    now rewrite Hc by (now apply String.eqb_eq).
  - rewrite (speaker_vars_kept v_sex
               (fun c => ET.tag c = "sex" -> ~ has_attr "value" c)); [reflexivity| |exact Hall].
    intros v c Hc. rewrite (proj1 (proj2 (load_speaker_child_fields v c))).
    destruct (String.eqb (ET.tag c) "sex") eqn:Ht; [|reflexivity].
    apply String.eqb_eq, Hc, dict_contains_false in Ht. now rewrite Ht.
  - rewrite (speaker_vars_kept v_lang
               (fun c => ET.tag c = "languages-used" -> ET.text c = None));
      [reflexivity| |exact Hall].
    intros v c Hc. rewrite (proj1 (proj2 (proj2 (load_speaker_child_fields v c)))).
    destruct (String.eqb (ET.tag c) "languages-used") eqn:Ht; [|reflexivity].
    now rewrite Hc by (now apply String.eqb_eq).
  - rewrite (speaker_vars_kept v_l1
               (fun c => ET.tag c = "l1" -> ET.text c = None)); [reflexivity| |exact Hall].
    intros v c Hc. rewrite (proj1 (proj2 (proj2 (proj2 (load_speaker_child_fields v c))))).
    destruct (String.eqb (ET.tag c) "l1") eqn:Ht; [|reflexivity].
    now rewrite Hc by (now apply String.eqb_eq).
  - rewrite (speaker_vars_kept v_l2
               (fun c => ET.tag c = "l2" -> ET.text c = None)); [reflexivity| |exact Hall].
    intros v c Hc.
    rewrite (proj1 (proj2 (proj2 (proj2 (proj2 (load_speaker_child_fields v c)))))).
    destruct (String.eqb (ET.tag c) "l2") eqn:Ht; [|reflexivity].
    now rewrite Hc by (now apply String.eqb_eq).
  - rewrite (speaker_vars_kept v_comment
               (fun c => ET.tag c = "comment" -> ET.text c = None)); [reflexivity| |exact Hall].
    intros v c Hc.
    rewrite (proj2 (proj2 (proj2 (proj2 (proj2 (load_speaker_child_fields v c)))))).
    destruct (String.eqb (ET.tag c) "comment") eqn:Ht; [|reflexivity].
    now rewrite Hc by (now apply String.eqb_eq).
Qed.

(** *** When [load] returns *)

Lemma load_event_returns tid (st : load_state) y :
  (ET.tag y = "event" -> has_attr "start" y /\ has_attr "end" y) ->
  exists st', load_event tid st y = Ok st'.
Proof.
  destruct st as [[d c] o]. unfold load_event. intros Hy.
  destruct (String.eqb (ET.tag y) "event") eqn:Ht; simpl.
  - apply String.eqb_eq in Ht. destruct (Hy Ht) as [Hs He].
    rewrite (attr_present _ _ Hs). simpl. rewrite (attr_present _ _ He). simpl.
    destruct (add_event _ _ _) as [d1 pr]. eexists. reflexivity.
  - eexists. reflexivity.
Qed.

Lemma load_returns (root : ET.Element) (running_id : Z) :
  required_attributes root -> exists st, load root running_id = Ok st.
Proof.
  intros (Hspk & Htli & Hev). unfold load.
  match goal with |- context [for_each load_speaker _ ?d] => generalize d end. intros d1.
  destruct (for_each_returns load_speaker (ET.iter "speaker" root) d1) as [d2 H2].
  { intros x d Hx. unfold load_speaker. rewrite (attr_present _ _ (Hspk x Hx)). simpl.
    eexists. reflexivity. }
  rewrite H2. simpl.
  destruct (for_each_returns load_tli (ET.iter "tli" root) (d2, running_id)) as [st3 H3].
  { intros x [d c] Hx. unfold load_tli. destruct (Htli x Hx) as [Ht Hi].
    rewrite (attr_present _ _ Ht). simpl. rewrite (attr_present _ _ Hi). simpl.
    eexists. reflexivity. }
  rewrite H3. simpl.
  apply for_each_returns. intros x [[d c] o] Hx. unfold load_tier.
  apply for_each_returns. intros y st Hy. apply load_event_returns.
  intros Ht. now apply (Hev x y).
Qed.

(** The claim C2 as stated fails: a tier element without [category] and
    [type] gets the empty string for both, not "v" and "t". *)
Lemma load_tier_without_category :
  exists d tier,
    load bare_input 0 = Ok (d, 0%Z, [])
    /\ dict_get "TIE0" (tiers d) = Some tier
    /\ Tier.category tier = "" /\ Tier.type tier = ""
    /\ Tier.category tier <> "v" /\ Tier.type tier <> "t".
Proof.
  eexists. eexists. split; [vm_compute; reflexivity|].
  split; [vm_compute; reflexivity|]. repeat split; discriminate.
Qed.

(** C2, amended: [load] returns whenever the attributes it reads without
    a guard are there ([id] of a speaker, [time] and [id] of a [tli],
    [start] and [end] of an event).  Each tier of the result comes
    from the first tier element with its identifier, and each of its
    attributes that the element omits is the empty string; each speaker comes
    from the first speaker element with its identifier, with the empty string
    for an abbreviation, sex or comment and the empty list for a language
    list that no sub-element gives. *)
Theorem load_defaults (root : ET.Element) (running_id : Z) :
  (required_attributes root -> exists st, load root running_id = Ok st)
  /\ (forall d running_id' out, load root running_id = Ok (d, running_id', out) ->
        (forall tier_id tier, dict_get tier_id (tiers d) = Some tier ->
           exists pre x post,
             ET.iter "tier" root = pre ++ x :: post
             /\ (forall y, y ∈ pre -> ET.attr_or_empty "id" y <> tier_id)
             /\ ET.attr_or_empty "id" x = tier_id
             /\ Tier.id tier = tier_id
             /\ Tier.speaker tier = ET.attr_or_empty "speaker" x
             /\ Tier.category tier = ET.attr_or_empty "category" x
             /\ Tier.type tier = ET.attr_or_empty "type" x
             /\ Tier.display_name tier = ET.attr_or_empty "display-name" x)
        /\ (forall x, x ∈ ET.iter "tier" root ->
              ET.attr_or_empty "id" x ∈ dict_keys (tiers d))
        /\ (forall speaker_id s, dict_get speaker_id (speaker_table d) = Some s ->
              exists pre x post,
                ET.iter "speaker" root = pre ++ x :: post
                /\ (forall y, y ∈ pre -> dict_get "id" (ET.attrib y) <> Some speaker_id)
                /\ dict_get "id" (ET.attrib x) = Some speaker_id
                /\ Speaker.speaker_id s = speaker_id
                /\ ((forall c, c ∈ ET.children x -> ET.tag c = "abbreviation" ->
                       ET.text c = None) -> Speaker.abbreviation s = "")
                /\ ((forall c, c ∈ ET.children x -> ET.tag c = "sex" ->
                       ~ has_attr "value" c) -> Speaker.sex s = "")
                /\ ((forall c, c ∈ ET.children x -> ET.tag c = "languages-used" ->
                       ET.text c = None) -> Speaker.languages_used s = [])
                /\ ((forall c, c ∈ ET.children x -> ET.tag c = "l1" ->
                       ET.text c = None) -> Speaker.l1 s = [])
                /\ ((forall c, c ∈ ET.children x -> ET.tag c = "l2" ->
                       ET.text c = None) -> Speaker.l2 s = [])
                /\ ((forall c, c ∈ ET.children x -> ET.tag c = "comment" ->
                       ET.text c = None) -> Speaker.comment s = ""))
        /\ (forall x, x ∈ ET.iter "speaker" root ->
              exists speaker_id, dict_get "id" (ET.attrib x) = Some speaker_id
                                 /\ speaker_id ∈ dict_keys (speaker_table d)))
  /\ (forall k x, ~ has_attr k x -> ET.attr_or_empty k x = "").
Proof.
  split; [apply load_returns|]. split; [|intros k x; apply attr_or_empty_absent].
  intros d c' out Hrun. apply load_registers in Hrun as (Hs & Ht & Hids). cbn [fst] in Hs, Ht.
  assert (Hkey : forall x, x ∈ ET.iter "speaker" root ->
            dict_get "id" (ET.attrib x) = Some (Speaker.speaker_id (speaker_of_xml x))).
  { intros x Hx. rewrite Forall_forall in Hids. specialize (Hids x).
    unfold has_attr in Hids. simpl.
    destruct (dict_get "id" (ET.attrib x)) as [v|] eqn:Hg; [reflexivity|].
    apply dict_get_None in Hg. destruct Hg. apply Hids. exact Hx. }
  split; [|split; [|split]].
  - intros tier_id tier Hget.
    assert (Hh : dict_get tier_id (tier_headers (tiers d)) = Some (tier_header tier)).
    { now rewrite tier_headers_get, Hget. }
    rewrite Ht in Hh. apply register_all_get in Hh as (pre & x & post & Hl & Hk & Hpre & Hv).
    exists pre, x, post. unfold tier_header, tier_of_xml, Tier.__init__ in Hv.
    injection Hv as H1 H2 H3 H4 H5. repeat split; try assumption. congruence.
  - intros x Hx. rewrite <- tier_headers_keys, Ht. apply register_all_keys. now exists x.
  - intros speaker_id s Hget. rewrite Hs in Hget.
    apply register_all_get in Hget as (pre & x & post & Hl & Hk & Hpre & ->).
    exists pre, x, post.
    assert (Hx : x ∈ ET.iter "speaker" root).
    { rewrite Hl. apply elem_of_app. right. apply elem_of_cons. now left. }
    split; [exact Hl|]. split.
    { intros y Hy Hg. apply (Hpre y Hy).
      assert (Hy' : y ∈ ET.iter "speaker" root) by (rewrite Hl; apply elem_of_app; now left).
      rewrite (Hkey y Hy') in Hg. now injection Hg. }
    split; [rewrite (Hkey x Hx); now f_equal|]. split; [exact Hk|].
    apply speaker_of_xml_defaults.
  - intros x Hx. exists (Speaker.speaker_id (speaker_of_xml x)). split; [now apply Hkey|].
    rewrite Hs. apply register_all_keys. now exists x.
Qed.

Lemma load_defaults_witness :
  required_attributes bare_input
  /\ exists st, load bare_input 0 = Ok st.
Proof.
  assert (Hreq : required_attributes bare_input).
  { unfold required_attributes, has_attr. simpl. repeat split.
    - intros x Hx. apply list_elem_of_singleton in Hx. subst x. simpl.
      apply list_elem_of_singleton. reflexivity.
    - apply elem_of_nil in H. destruct H.
    - apply elem_of_nil in H. destruct H.
    - apply list_elem_of_singleton in H. subst x. simpl in H0. apply elem_of_nil in H0.
      destruct H0.
    - apply list_elem_of_singleton in H. subst x. simpl in H0. apply elem_of_nil in H0.
      destruct H0. }
  split; [exact Hreq|].
  exact (proj1 (load_defaults bare_input 0) Hreq).
Defined.

End loader_defaults.

(** ** The parser on the text of elements *)

Section markup_facts.
Import Markup.

Lemma str_length_app (a b : string) :
  String.length (a +:+ b) = (String.length a + String.length b)%nat.
Proof.
  induction a as [|c a IH]; [reflexivity|].
  rewrite str_app_cons. simpl. now rewrite IH.
Qed.

Lemma str_forallb_app p (a b : string) :
  str_forallb p (a +:+ b) = str_forallb p a && str_forallb p b.
Proof.
  induction a as [|c a IH]; [reflexivity|].
  rewrite str_app_cons. simpl. rewrite IH. now rewrite andb_assoc.
Qed.

Lemma span_app p (a rest : string) :
  str_forallb p a = true -> stops p rest -> ET.span p (a +:+ rest) = (a, rest).
Proof.
  intros Ha Hr. induction a as [|c a IH].
  - rewrite str_app_nil_l. destruct rest as [|c r]; [reflexivity|].
    simpl in *. now rewrite Hr.
  - rewrite str_app_cons. simpl in *. apply andb_true_iff in Ha as [Hc Ha].
    rewrite Hc, (IH Ha). reflexivity.
Qed.

Lemma span_stops p (rest : string) : stops p rest -> ET.span p rest = ("", rest).
Proof. intros Hr. now apply (span_app p "" rest). Qed.

Lemma skip_spaces_stops (rest : string) : stops ET.is_space rest -> ET.skip_spaces rest = rest.
Proof. intros Hr. unfold ET.skip_spaces. now rewrite span_stops. Qed.

Lemma stops_app p (a b : string) : stops p a -> stops p b -> stops p (a +:+ b).
Proof. destruct a as [|c a]; [now rewrite str_app_nil_l | now rewrite str_app_cons]. Qed.

Lemma stops_app_l p (c : ascii) (a b : string) : p c = false -> stops p (String c a +:+ b).
Proof. intros H. now rewrite str_app_cons. Qed.

Lemma good_name_start (tag : string) :
  good_name tag = true ->
  exists c r, tag = String c r /\ ET.is_name_start c = true
              /\ str_forallb ET.is_name_char tag = true.
Proof.
  destruct tag as [|c r]; [discriminate|]. unfold good_name.
  intros H. apply andb_true_iff in H as [H1 H2]. exists c, r. repeat split; assumption.
Qed.

Lemma parse_name_app (tag rest : string) :
  good_name tag = true -> stops ET.is_name_char rest ->
  ET.parse_name (tag +:+ rest) = Some (tag, rest).
Proof.
  intros Hg Hr. destruct (good_name_start tag Hg) as (c & r & -> & Hc & Hall).
  unfold ET.parse_name. rewrite str_app_cons, Hc, <- str_app_cons.
  now rewrite span_app.
Qed.

Lemma name_start_not_space (c : ascii) : ET.is_name_start c = true -> ET.is_space c = false.
Proof.
  unfold ET.is_name_start, ET.is_space. generalize (ET.code c). intros n H.
  repeat match goal with
         | |- context [(?a =? ?b)%nat] => destruct (Nat.eqb_spec a b); subst; try discriminate
         end; reflexivity.
Qed.

Lemma name_start_not_slash (c : ascii) : ET.is_name_start c = true -> c <> "/"%char.
Proof. intros H ->. discriminate. Qed.

Lemma closes_stops_name (rest : string) : closes rest -> stops ET.is_name_char rest.
Proof. destruct rest as [|c r]; [intros []|]. intros [->| ->]; reflexivity. Qed.

Lemma closes_stops_space (rest : string) : closes rest -> stops ET.is_space rest.
Proof. destruct rest as [|c r]; [intros []|]. intros [->| ->]; reflexivity. Qed.

Lemma closes_stops_start (rest : string) : closes rest -> stops ET.is_name_start rest.
Proof. destruct rest as [|c r]; [intros []|]. intros [->| ->]; reflexivity. Qed.

Lemma parse_attributes_S (fuel : nat) (s : string) :
  ET.parse_attributes (S fuel) s =
    let '(ws, r) := ET.span ET.is_space s in
    match r with
    | String c _ =>
        if ET.is_name_start c then
          match ws with
          | "" => None
          | _ =>
              '(name, r) ← ET.parse_name r;
              '(value, r) ← ET.parse_attr_value r;
              '(more, r) ← ET.parse_attributes fuel r;
              if dict_contains name more then None else Some ((name, value) :: more, r)
          end
        else Some ([], r)
    | "" => Some ([], "")
    end.
Proof. reflexivity. Qed.

Lemma parse_attributes_name (fuel : nat) (s ws r : string) :
  ET.span ET.is_space s = (ws, r) -> ws <> "" ->
  (exists c r', r = String c r' /\ ET.is_name_start c = true) ->
  ET.parse_attributes (S fuel) s =
    '(name, r) ← ET.parse_name r;
    '(value, r) ← ET.parse_attr_value r;
    '(more, r) ← ET.parse_attributes fuel r;
    if dict_contains name more then None else Some ((name, value) :: more, r).
Proof.
  intros Hspan Hws (c & r' & -> & Hc). rewrite parse_attributes_S, Hspan, Hc.
  destruct ws; [contradiction | reflexivity].
Qed.

Lemma name_app_start (k rest : string) :
  good_name k = true ->
  exists c r', k +:+ rest = String c r' /\ ET.is_name_start c = true.
Proof.
  intros Hk. destruct (good_name_start k Hk) as (c & r & -> & Hc & _).
  exists c, (r +:+ rest). now rewrite str_app_cons.
Qed.

Lemma attrs_nil : attrs_text "" [].
Proof.
  split; [exact I|]. intros rest fuel Hc Hlen. rewrite str_app_nil_l in *.
  destruct rest as [|c r]; [destruct Hc|].
  destruct fuel as [|f]; [simpl in Hlen; lia|].
  rewrite parse_attributes_S, span_stops by (now apply closes_stops_space).
  pose proof (closes_stops_start _ Hc) as Hs. simpl in Hs. now rewrite Hs.
Qed.

Lemma parse_attr_value_app (v rest : string) :
  attr_clean v = true ->
  ET.parse_attr_value ("=" +:+ dq +:+ v +:+ dq +:+ rest) = Some (v, rest).
Proof.
  intros Hv. unfold ET.parse_attr_value.
  rewrite skip_spaces_stops by reflexivity.
  change ("=" +:+ dq +:+ v +:+ dq +:+ rest) with (String "=" (dq +:+ v +:+ dq +:+ rest)).
  cbv iota beta. rewrite skip_spaces_stops by reflexivity.
  change (dq +:+ v +:+ dq +:+ rest) with (String "034" (v +:+ dq +:+ rest)).
  cbv iota beta. rewrite span_app; [reflexivity | exact Hv | reflexivity].
Qed.

Lemma attrs_cons (k v str : string) (a : dict string string) :
  good_name k = true -> attr_clean v = true -> attrs_text str a ->
  dict_contains k a = false ->
  attrs_text (" " +:+ k +:+ "=" +:+ dq +:+ v +:+ dq +:+ str) ((k, v) :: a).
Proof.
  intros Hk Hv [Hst Ha] Hfresh. split; [reflexivity|].
  intros rest fuel Hc Hlen.
  destruct fuel as [|f]; [simpl in Hlen; lia|].
  rewrite !str_app_assoc in *.
  destruct (name_app_start k ("=" +:+ dq +:+ v +:+ dq +:+ str +:+ rest) Hk)
    as (c & r' & Er & Hcs).
  assert (Hspan : ET.span ET.is_space (" " +:+ k +:+ "=" +:+ dq +:+ v +:+ dq +:+ str +:+ rest)
                  = (" ", k +:+ "=" +:+ dq +:+ v +:+ dq +:+ str +:+ rest)).
  { apply (span_app ET.is_space " "); [reflexivity|]. rewrite Er. simpl.
    now apply name_start_not_space. }
  rewrite (parse_attributes_name _ _ _ _ Hspan) by (discriminate || eauto).
  rewrite parse_name_app by (assumption || reflexivity). cbn [mbind option_bind].
  rewrite parse_attr_value_app by assumption. cbn [mbind option_bind].
  rewrite Ha; [cbn [mbind option_bind]; now rewrite Hfresh | exact Hc |].
  rewrite !str_length_app in *. simpl in Hlen. lia.
Qed.

Lemma parse_started_S (fuel : nat) (s : string) :
  ET.parse_started (S fuel) s =
    '(tag, s) ← ET.parse_name s;
    '(attrib, s) ← ET.parse_attributes (String.length s) s;
    match s with
    | String "/"%char (String ">"%char s) => Some (ET.mk tag attrib None [], s)
    | String ">"%char s =>
        let '(text, s) := ET.span ET.is_char_data s in
        '(children, s) ← ET.parse_children fuel s;
        '(tag', s) ← ET.parse_name s;
        if String.eqb tag' tag then
          match ET.skip_spaces s with
          | String ">"%char s => Some (ET.mk tag attrib (ET.text_of text) children, s)
          | _ => None
          end
        else None
    | _ => None
    end.
Proof. reflexivity. Qed.

Lemma parse_children_end (fuel : nat) (rest : string) :
  ET.parse_children (S fuel) ("</" +:+ rest) = Some ([], rest).
Proof. reflexivity. Qed.

Lemma parse_children_child (fuel : nat) (c : ascii) (r : string) :
  c <> "/"%char ->
  ET.parse_children (S fuel) (String "<" (String c r)) =
    '(child, s) ← ET.parse_started fuel (String c r);
    let '(_, s) := ET.span ET.is_char_data s in
    '(more, s) ← ET.parse_children fuel s;
    Some (child :: more, s).
Proof.
  intros Hc. apply Ascii.eqb_neq in Hc. simpl ET.parse_children. now rewrite Hc.
Qed.

Lemma str_length_pos (c : ascii) (r : string) : (1 <= String.length (String c r))%nat.
Proof. simpl. lia. Qed.

Lemma elem_selfclosed (tag str : string) (a : dict string string) :
  good_name tag = true -> attrs_text str a ->
  elem_text (tag +:+ str +:+ "/>") (ET.mk tag a None []).
Proof.
  intros Ht [Hst Ha]. split.
  - destruct (name_app_start tag (str +:+ "/>") Ht) as (c & r & E & Hc).
    exists c, r. split; [exact E | exact Hc].
  - intros rest fuel Hlen. rewrite !str_app_assoc in *.
    destruct fuel as [|f].
    { destruct (name_app_start tag (str +:+ "/>" +:+ rest) Ht) as (c & r & E & _).
      rewrite E in Hlen. simpl in Hlen. lia. }
    rewrite parse_started_S, parse_name_app; [|exact Ht|].
    2:{ apply stops_app; [exact Hst | reflexivity]. }
    cbn [mbind option_bind]. rewrite Ha; [reflexivity | now right | lia].
Qed.

Lemma elem_open (tag str txt ks : string) (a : dict string string) (es : list ET.Element) :
  good_name tag = true -> attrs_text str a -> text_clean txt = true -> kids_text ks es ->
  elem_text (tag +:+ str +:+ ">" +:+ txt +:+ ks +:+ "</" +:+ tag +:+ ">")
    (ET.mk tag a (ET.text_of txt) es).
Proof.
  intros Ht [Hst Ha] Htxt [Hks Hk]. split.
  - destruct (name_app_start tag (str +:+ ">" +:+ txt +:+ ks +:+ "</" +:+ tag +:+ ">") Ht)
      as (c & r & E & Hc).
    exists c, r. split; [exact E | exact Hc].
  - intros rest fuel Hlen. rewrite !str_app_assoc in *.
    destruct fuel as [|f].
    { destruct (name_app_start tag
                  (str +:+ ">" +:+ txt +:+ ks +:+ "</" +:+ tag +:+ ">" +:+ rest) Ht)
        as (c & r & E & _).
      rewrite E in Hlen. simpl in Hlen. lia. }
    rewrite parse_started_S, parse_name_app; [|exact Ht|].
    2:{ apply stops_app; [exact Hst | reflexivity]. }
    cbn [mbind option_bind]. rewrite Ha; [|now left | lia].
    cbn [mbind option_bind].
    change (">" +:+ txt +:+ ks +:+ "</" +:+ tag +:+ ">" +:+ rest)
      with (String ">" (txt +:+ ks +:+ "</" +:+ tag +:+ ">" +:+ rest)).
    cbv iota beta.
    rewrite span_app; [|exact Htxt|].
    2:{ apply stops_app; [exact Hks | reflexivity]. }
    rewrite Hk.
    2:{ rewrite !str_length_app in *. simpl in *. lia. }
    cbn [mbind option_bind]. rewrite parse_name_app by (exact Ht || reflexivity).
    cbn [mbind option_bind]. rewrite String.eqb_refl.
    rewrite skip_spaces_stops by reflexivity. reflexivity.
Qed.

Lemma kids_nil : kids_text "" [].
Proof.
  split; [exact I|]. intros rest fuel Hlen. rewrite str_app_nil_l in *.
  destruct fuel as [|f]; [simpl in Hlen; lia|]. apply parse_children_end.
Qed.

Lemma kids_cons (s tl ks : string) (e : ET.Element) (es : list ET.Element) :
  elem_text s e -> text_clean tl = true -> kids_text ks es ->
  kids_text ("<" +:+ s +:+ tl +:+ ks) (e :: es).
Proof.
  intros [(c & r & -> & Hc) He] Htl [Hks Hk]. split; [reflexivity|].
  intros rest fuel Hlen. rewrite !str_app_assoc in *.
  destruct fuel as [|f]; [simpl in Hlen; lia|].
  change ("<" +:+ String c r +:+ tl +:+ ks +:+ "</" +:+ rest)
    with (String "<" (String c (r +:+ tl +:+ ks +:+ "</" +:+ rest))).
  rewrite parse_children_child by (now apply name_start_not_slash).
  change (String c (r +:+ tl +:+ ks +:+ "</" +:+ rest))
    with (String c r +:+ tl +:+ ks +:+ "</" +:+ rest).
  rewrite He.
  2:{ rewrite !str_length_app in *. simpl in *. lia. }
  cbn [mbind option_bind]. rewrite span_app; [|exact Htl|].
  2:{ apply stops_app; [exact Hks | reflexivity]. }
  rewrite Hk.
  2:{ rewrite !str_length_app in *. simpl in *. lia. }
  reflexivity.
Qed.

Lemma elem_text_eq (s s' : string) (e : ET.Element) : s = s' -> elem_text s e -> elem_text s' e.
Proof. now intros ->. Qed.

Lemma kids_text_eq (s s' : string) (es : list ET.Element) :
  s = s' -> kids_text s es -> kids_text s' es.
Proof. now intros ->. Qed.

End markup_facts.

(** ** The printed text of the elements *)

Ltac str_eq := rewrite ?str_app_assoc, ?str_app_nil_r; reflexivity.

Section prints_facts.
Import ExmaraldaTranscript Markup Tree Clean.


Lemma text_clean_app (a b : string) :
  text_clean a = true -> text_clean b = true -> text_clean (a +:+ b) = true.
Proof. unfold text_clean. rewrite str_forallb_app. now intros -> ->. Qed.

Lemma attr_clean_app (a b : string) :
  attr_clean a = true -> attr_clean b = true -> attr_clean (a +:+ b) = true.
Proof. unfold attr_clean. rewrite str_forallb_app. now intros -> ->. Qed.

Lemma text_clean_tabs (n : Z) : text_clean (str_mul tab n) = true.
Proof.
  unfold str_mul. induction (Z.to_nat n) as [|k IH]; [reflexivity|].
  simpl. now apply text_clean_app.
Qed.

Lemma text_elem_prints (tag txt ind : string) :
  good_name tag = true -> text_clean txt = true ->
  prints (ind +:+ "<" +:+ tag +:+ ">" +:+ txt +:+ "</" +:+ tag +:+ ">") ind (text_elem tag txt).
Proof.
  intros Ht Htxt. exists (tag +:+ "" +:+ ">" +:+ txt +:+ "" +:+ "</" +:+ tag +:+ ">").
  split; [reflexivity|]. apply elem_open; [exact Ht | apply attrs_nil | exact Htxt | apply kids_nil].
Qed.

Lemma container_prints (tag str ind ind1 ks : string) (a : dict string string)
    (es : list ET.Element) :
  good_name tag = true -> attrs_text str a -> text_clean ind1 = true -> kids_text ks es ->
  prints (ind +:+ "<" +:+ tag +:+ str +:+ ">" +:+ nl +:+ ind1 +:+ ks +:+ "</" +:+ tag +:+ ">")
    ind (ET.mk tag a (Some (nl +:+ ind1)) es).
Proof.
  intros Ht Ha Hi Hk.
  exists (tag +:+ str +:+ ">" +:+ (nl +:+ ind1) +:+ ks +:+ "</" +:+ tag +:+ ">").
  split; [str_eq|].
  apply (elem_open tag str (nl +:+ ind1) ks a es); assumption.
Qed.

Lemma empty_prints (tag str ind : string) (a : dict string string) :
  good_name tag = true -> attrs_text str a ->
  prints (ind +:+ "<" +:+ tag +:+ str +:+ ">" +:+ "</" +:+ tag +:+ ">") ind (ET.mk tag a None []).
Proof.
  intros Ht Ha. exists (tag +:+ str +:+ ">" +:+ "" +:+ "" +:+ "</" +:+ tag +:+ ">").
  split; [reflexivity|].
  apply (elem_open tag str "" "" a []); [exact Ht | exact Ha | reflexivity | apply kids_nil].
Qed.

Lemma selfclosed_prints (tag str ind : string) (a : dict string string) :
  good_name tag = true -> attrs_text str a ->
  prints (ind +:+ "<" +:+ tag +:+ str +:+ "/>") ind (ET.mk tag a None []).
Proof.
  intros Ht Ha. exists (tag +:+ str +:+ "/>"). split; [reflexivity|].
  now apply elem_selfclosed.
Qed.

Lemma prints_eq (s s' ind : string) (e : ET.Element) : s' = s -> prints s ind e -> prints s' ind e.
Proof. now intros ->. Qed.

(** The children that [join] or a loop of lines writes. *)
Lemma kids_of_join (ind last : string) (pps : list string) (es : list ET.Element) :
  Forall2 (fun s e => prints s ind e) pps es -> pps <> [] ->
  text_clean ind = true -> text_clean last = true ->
  exists ks, kids_text ks es /\ join nl pps +:+ last = ind +:+ ks.
Proof.
  intros Hall Hne Hind Hlast. induction Hall as [|s e pps es (body & -> & He) Hall IH].
  - contradiction.
  - destruct pps as [|s' l'].
    + apply Forall2_nil_inv_l in Hall as ->.
      exists ("<" +:+ body +:+ last +:+ ""). split.
      * apply kids_cons; [exact He | exact Hlast | apply kids_nil].
      * simpl. str_eq.
    + destruct IH as (ks' & Hks' & Heq); [discriminate|].
      exists ("<" +:+ body +:+ (nl +:+ ind) +:+ ks'). split.
      * apply kids_cons; [exact He | now apply text_clean_app | exact Hks'].
      * change (join nl ((ind +:+ "<" +:+ body) :: s' :: l'))
          with ((ind +:+ "<" +:+ body) +:+ nl +:+ join nl (s' :: l')).
        rewrite !str_app_assoc. now rewrite Heq.
Qed.

Lemma str_concat_lines (pps : list string) (last : string) :
  pps <> [] ->
  str_concat (map (fun s => s +:+ nl) pps) +:+ last = join nl pps +:+ (nl +:+ last).
Proof.
  induction pps as [|s pps IH]; [contradiction|]. intros _.
  destruct pps as [|s' l'].
  - simpl. str_eq.
  - change (join nl (s :: s' :: l')) with (s +:+ nl +:+ join nl (s' :: l')).
    simpl map. simpl str_concat. rewrite !str_app_assoc.
    simpl map in IH. simpl str_concat in IH. rewrite !str_app_assoc in IH.
    now rewrite IH by discriminate.
Qed.

Lemma kids_of_lines (ind last : string) (pps : list string) (es : list ET.Element) :
  Forall2 (fun s e => prints s ind e) pps es -> pps <> [] ->
  text_clean ind = true -> text_clean last = true ->
  exists ks, kids_text ks es
             /\ str_concat (map (fun s => s +:+ nl) pps) +:+ last = ind +:+ ks.
Proof.
  intros Hall Hne Hind Hlast. rewrite str_concat_lines by exact Hne.
  apply kids_of_join; assumption.
Qed.

(** *** Events, time points and tiers *)

Lemma leaf_prints (tag str txt ind : string) (a : dict string string) :
  good_name tag = true -> attrs_text str a -> text_clean txt = true ->
  prints (ind +:+ "<" +:+ tag +:+ str +:+ ">" +:+ txt +:+ "</" +:+ tag +:+ ">") ind
    (ET.mk tag a (ET.text_of txt) []).
Proof.
  intros Ht Ha Htxt. exists (tag +:+ str +:+ ">" +:+ txt +:+ "" +:+ "</" +:+ tag +:+ ">").
  split; [reflexivity|]. apply elem_open; [exact Ht | exact Ha | exact Htxt | apply kids_nil].
Qed.

Lemma attr_clean_T (s : string) : attr_clean s = true -> attr_clean ("T" +:+ s) = true.
Proof. intros H. now apply (attr_clean_app "T"). Qed.

Lemma event_prints (e : Event.t) (il : Z) :
  event_clean e = true ->
  prints (Event.pretty_print e il) (str_mul tab il) (event_tree e).
Proof.
  unfold event_clean. rewrite !andb_true_iff. intros [[Hs He] Hc].
  eapply prints_eq;
    [|apply (leaf_prints "event"
               (" " +:+ "start" +:+ "=" +:+ dq +:+ ("T" +:+ py_format (Event.get_start_id e))
                  +:+ dq +:+ " " +:+ "end" +:+ "=" +:+ dq
                  +:+ ("T" +:+ py_format (Event.get_end_id e)) +:+ dq +:+ "")
               (Event.content e))].
  - unfold Event.pretty_print. str_eq.
  - reflexivity.
  - apply attrs_cons; [reflexivity | now apply attr_clean_T | | reflexivity].
    apply attrs_cons; [reflexivity | now apply attr_clean_T | apply attrs_nil | reflexivity].
  - exact Hc.
Qed.

Lemma tli_prints (tp : Timepoint.t) (il : Z) :
  timepoint_clean tp = true ->
  prints (Timepoint.pretty_print tp il) (str_mul tab il) (tli_tree tp).
Proof.
  unfold timepoint_clean. rewrite !andb_true_iff. intros [[[Hi Hs] Hty] Hset].
  unfold Timepoint.pretty_print, tli_tree, Timepoint.get_time_id.
  apply negb_true_iff in Hset. rewrite Hset.
  destruct (len (Timepoint.type tp) =? 0)%Z.
  - eapply prints_eq;
      [|apply (selfclosed_prints "tli"
                 (" " +:+ "id" +:+ "=" +:+ dq +:+ ("T" +:+ py_format (Timepoint.time_id tp))
                    +:+ dq +:+ " " +:+ "time" +:+ "=" +:+ dq
                    +:+ py_format (Timepoint.time_stamp tp) +:+ dq +:+ ""))].
    + str_eq.
    + reflexivity.
    + apply attrs_cons; [reflexivity | now apply attr_clean_T | | reflexivity].
      apply attrs_cons; [reflexivity | exact Hs | apply attrs_nil | reflexivity].
  - eapply prints_eq;
      [|apply (selfclosed_prints "tli"
                 (" " +:+ "id" +:+ "=" +:+ dq +:+ ("T" +:+ py_format (Timepoint.time_id tp))
                    +:+ dq +:+ " " +:+ "time" +:+ "=" +:+ dq
                    +:+ py_format (Timepoint.time_stamp tp) +:+ dq
                    +:+ " " +:+ "type" +:+ "=" +:+ dq +:+ Timepoint.type tp +:+ dq +:+ ""))].
    + str_eq.
    + reflexivity.
    + apply attrs_cons; [reflexivity | now apply attr_clean_T | | reflexivity].
      apply attrs_cons; [reflexivity | exact Hs | | reflexivity].
      apply attrs_cons; [reflexivity | exact Hty | apply attrs_nil | reflexivity].
Qed.

Lemma Forall2_prints {A} (f : A -> string) (g : A -> ET.Element) (ind : string) (l : list A) :
  (forall x, x ∈ l -> prints (f x) ind (g x)) ->
  Forall2 (fun s e => prints s ind e) (map f l) (map g l).
Proof.
  induction l as [|x l IH]; intros Hall; simpl; constructor.
  - apply Hall. apply elem_of_cons. now left.
  - apply IH. intros y Hy. apply Hall. apply elem_of_cons. now right.
Qed.

Lemma forallb_elem_of {A} (p : A -> bool) (l : list A) (x : A) :
  forallb p l = true -> x ∈ l -> p x = true.
Proof.
  intros Hall Hx. rewrite forallb_forall in Hall. apply Hall. now apply list_elem_of_In.
Qed.

(** The children of an element that holds a list, written with [join]:
    the element with the given attributes prints as a container. *)
Lemma joined_container_prints {A} (tag str : string) (a : dict string string)
    (f : A -> string) (g : A -> ET.Element) (l : list A) (ind ind1 : string) :
  good_name tag = true -> attrs_text str a ->
  text_clean ind = true -> text_clean ind1 = true ->
  (forall x, x ∈ l -> prints (f x) ind1 (g x)) -> l <> [] ->
  prints (ind +:+ "<" +:+ tag +:+ str +:+ ">" +:+ nl +:+ join nl (map f l) +:+ nl +:+ ind
            +:+ "</" +:+ tag +:+ ">")
    ind (ET.mk tag a (Some (nl +:+ ind1)) (map g l)).
Proof.
  intros Ht Ha Hi Hi1 Hall Hne.
  destruct (kids_of_join ind1 (nl +:+ ind) (map f l) (map g l)) as (ks & Hks & Heq).
  - now apply Forall2_prints.
  - destruct l; [contradiction | discriminate].
  - exact Hi1.
  - exact Hi.
  - eapply prints_eq; [|apply (container_prints tag str ind ind1 ks a (map g l)); assumption].
    rewrite <- (str_app_assoc ind1 ks), <- Heq. str_eq.
Qed.

Lemma tier_attrs (tier : Tier.t) :
  tier_clean tier = true ->
  exists str,
    attrs_text str
      ([("id", Tier.id tier)]
         ++ (if (len (Tier.speaker tier) >? 0)%Z then [("speaker", Tier.speaker tier)] else [])
         ++ [("category", Tier.category tier); ("type", Tier.type tier);
             ("display-name", Tier.display_name tier)])
    /\ "<tier id=" +:+ dq +:+ Tier.id tier +:+ dq
         +:+ (if (len (Tier.speaker tier) >? 0)%Z
              then " speaker=" +:+ dq +:+ Tier.speaker tier +:+ dq else "")
         +:+ " category=" +:+ dq +:+ Tier.category tier +:+ dq
         +:+ " type=" +:+ dq +:+ Tier.type tier +:+ dq
         +:+ " display-name=" +:+ dq +:+ Tier.display_name tier +:+ dq +:+ ">"
       = "<" +:+ "tier" +:+ str +:+ ">".
Proof.
  unfold tier_clean. rewrite !andb_true_iff. intros [[[[[Hi Hs] Hc] Hty] Hd] _].
  assert (Htail : attrs_text
            (" " +:+ "category" +:+ "=" +:+ dq +:+ Tier.category tier +:+ dq
               +:+ " " +:+ "type" +:+ "=" +:+ dq +:+ Tier.type tier +:+ dq
               +:+ " " +:+ "display-name" +:+ "=" +:+ dq +:+ Tier.display_name tier +:+ dq +:+ "")
            [("category", Tier.category tier); ("type", Tier.type tier);
             ("display-name", Tier.display_name tier)]).
  { apply attrs_cons; [reflexivity | exact Hc | | reflexivity].
    apply attrs_cons; [reflexivity | exact Hty | | reflexivity].
    apply attrs_cons; [reflexivity | exact Hd | apply attrs_nil | reflexivity]. }
  destruct (len (Tier.speaker tier) >? 0)%Z.
  - eexists. split.
    + apply attrs_cons; [reflexivity | exact Hi | | reflexivity].
      apply attrs_cons; [reflexivity | exact Hs | exact Htail | reflexivity].
    + str_eq.
  - eexists. split.
    + apply attrs_cons; [reflexivity | exact Hi | exact Htail | reflexivity].
    + str_eq.
Qed.

Lemma tier_prints (tier : Tier.t) (il : Z) :
  tier_clean tier = true ->
  prints (Tier.pretty_print tier il) (str_mul tab il) (tier_tree il tier).
Proof.
  intros Hclean. destruct (tier_attrs tier Hclean) as (str & Ha & Hhead).
  unfold Tier.pretty_print, tier_tree. cbv zeta.
  rewrite !(str_app_assoc (str_mul tab il)). rewrite Hhead.
  unfold tier_clean in Hclean. apply andb_true_iff in Hclean as [_ Hev].
  destruct (Tier.event_list tier) as [|e0 evs] eqn:Hl.
  - eapply prints_eq; [|apply (empty_prints "tier" str); [reflexivity | exact Ha]].
    simpl. str_eq.
  - rewrite <- Hl in *.
    replace (Z.of_nat (length (Tier.event_list tier)) =? 0)%Z with false
      by (rewrite Hl; reflexivity).
    eapply prints_eq;
      [|apply (joined_container_prints "tier" str _
                 (fun e => Event.pretty_print e (il + 1)) event_tree (Tier.event_list tier)
                 (str_mul tab il) (str_mul tab (il + 1)))].
    + str_eq.
    + reflexivity.
    + exact Ha.
    + apply text_clean_tabs.
    + apply text_clean_tabs.
    + intros e He. apply event_prints. now apply (forallb_elem_of _ _ _ Hev).
    + rewrite Hl. discriminate.
Qed.

Lemma dict_at_length {K V} `{EqDecision K} (d : dict K V) (ks : list K) :
  (forall k, k ∈ ks -> k ∈ dict_keys d) -> length (dict_at d ks) = length ks.
Proof.
  unfold dict_at. induction ks as [|k ks IH]; intros Hall; [reflexivity|].
  cbn [omap list_omap]. destruct (dict_get k d) as [v|] eqn:Hg.
  - simpl. f_equal. apply IH. intros k' Hk'. apply Hall. apply elem_of_cons. now right.
  - apply dict_get_None in Hg. destruct Hg. apply Hall. apply elem_of_cons. now left.
Qed.

Lemma timepoints_length (d : t) : length (timepoints d) = length (timeline d).
Proof.
  unfold timepoints. rewrite dict_at_length by auto.
  unfold dict_keys. apply length_fmap.
Qed.

Lemma tier_list_length (d : t) : length (tier_list d) = length (tiers d).
Proof.
  unfold tier_list. rewrite dict_at_length by auto.
  unfold dict_keys. apply length_fmap.
Qed.

Lemma sorted_speakers_length (d : t) : length (sorted_speakers d) = length (speaker_table d).
Proof.
  unfold sorted_speakers. rewrite dict_at_length.
  - unfold sorted. rewrite merge_sort_Permutation. unfold dict_keys. apply length_fmap.
  - intros k Hk. unfold sorted in Hk. now rewrite merge_sort_Permutation in Hk.
Qed.

Lemma timeline_prints (d : t) (il : Z) :
  forallb timepoint_clean (timepoints d) = true ->
  prints (print_timeline d il) (str_mul tab il) (timeline_tree il d).
Proof.
  intros Hclean. unfold print_timeline, timeline_tree. cbv zeta.
  fold (timepoints d). rewrite <- timepoints_length.
  destruct (timepoints d) as [|tp0 tps] eqn:Htp.
  - eapply prints_eq; [|apply (empty_prints "common-timeline" ""); [reflexivity | apply attrs_nil]].
    simpl. str_eq.
  - rewrite <- Htp in *.
    replace (Z.of_nat (length (timepoints d)) =? 0)%Z with false by (rewrite Htp; reflexivity).
    eapply prints_eq;
      [|apply (joined_container_prints "common-timeline" "" _
                 (fun tp => Timepoint.pretty_print tp (il + 1)) tli_tree (timepoints d)
                 (str_mul tab il) (str_mul tab (il + 1)))].
    + str_eq.
    + reflexivity.
    + apply attrs_nil.
    + apply text_clean_tabs.
    + apply text_clean_tabs.
    + intros tp Hin. apply tli_prints. now apply (forallb_elem_of _ _ _ Hclean).
    + rewrite Htp. discriminate.
Qed.

(** *** Speakers *)

Lemma speaker_prints (s : Speaker.t) (il : Z) :
  speaker_clean s = true ->
  prints (Speaker.pretty_print s il) (str_mul tab il) (speaker_tree il s).
Proof.
  unfold speaker_clean. rewrite !andb_true_iff.
  intros [[[[[[[Hi Ha] Hs] Hlu] Hl1] Hl2] Hud] Hc].
  set (ind1 := str_mul tab il +:+ tab).
  assert (Hind1 : text_clean ind1 = true).
  { apply text_clean_app; [apply text_clean_tabs | reflexivity]. }
  destruct (kids_of_lines ind1 (str_mul tab il)
              [ind1 +:+ "<" +:+ "abbreviation" +:+ ">" +:+ Speaker.abbreviation s
                 +:+ "</" +:+ "abbreviation" +:+ ">";
               ind1 +:+ "<" +:+ "sex"
                 +:+ (" " +:+ "value" +:+ "=" +:+ dq +:+ Speaker.sex s +:+ dq +:+ "") +:+ "/>";
               ind1 +:+ "<" +:+ "languages-used" +:+ ">"
                 +:+ join ", " (Speaker.languages_used s) +:+ "</" +:+ "languages-used" +:+ ">";
               ind1 +:+ "<" +:+ "l1" +:+ ">" +:+ join ", " (Speaker.l1 s)
                 +:+ "</" +:+ "l1" +:+ ">";
               ind1 +:+ "<" +:+ "l2" +:+ ">" +:+ join ", " (Speaker.l2 s)
                 +:+ "</" +:+ "l2" +:+ ">";
               ind1 +:+ "<" +:+ "ud-speaker-information" +:+ ">"
                 +:+ Speaker.ud_speaker_information s +:+ "</" +:+ "ud-speaker-information" +:+ ">";
               ind1 +:+ "<" +:+ "comment" +:+ ">" +:+ Speaker.comment s
                 +:+ "</" +:+ "comment" +:+ ">"]
              (ET.children (speaker_tree il s))) as (ks & Hks & Heq).
  { simpl. repeat constructor.
    - now apply text_elem_prints.
    - apply selfclosed_prints; [reflexivity|].
      apply attrs_cons; [reflexivity | exact Hs | apply attrs_nil | reflexivity].
    - now apply text_elem_prints.
    - now apply text_elem_prints.
    - now apply text_elem_prints.
    - now apply text_elem_prints.
    - now apply text_elem_prints. }
  { discriminate. }
  { exact Hind1. }
  { apply text_clean_tabs. }
  eapply prints_eq;
    [|apply (container_prints "speaker"
               (" " +:+ "id" +:+ "=" +:+ dq +:+ Speaker.speaker_id s +:+ dq +:+ "")
               (str_mul tab il) ind1 ks [("id", Speaker.speaker_id s)]
               (ET.children (speaker_tree il s)))].
  - rewrite <- (str_app_assoc ind1 ks), <- Heq.
    unfold Speaker.pretty_print, linesep, ind1. cbv zeta. simpl map. simpl str_concat. str_eq.
  - reflexivity.
  - apply attrs_cons; [reflexivity | exact Hi | apply attrs_nil | reflexivity].
  - exact Hind1.
  - exact Hks.
Qed.

Lemma speakertable_prints (d : t) (il : Z) :
  forallb speaker_clean (sorted_speakers d) = true ->
  prints (print_speaker_table d il) (str_mul tab il) (speakertable_tree il d).
Proof.
  intros Hclean. unfold print_speaker_table, speakertable_tree. cbv zeta.
  fold (sorted_speakers d). rewrite <- sorted_speakers_length.
  destruct (sorted_speakers d) as [|s0 ss] eqn:Hss.
  - eapply prints_eq; [|apply (empty_prints "speakertable" ""); [reflexivity | apply attrs_nil]].
    simpl. str_eq.
  - rewrite <- Hss in *.
    replace (Z.of_nat (length (sorted_speakers d)) =? 0)%Z with false
      by (rewrite Hss; reflexivity).
    rewrite (fold_left_append (fun speaker => Speaker.pretty_print speaker (il + 1) +:+ nl)).
    destruct (kids_of_lines (str_mul tab (il + 1)) (str_mul tab il)
                (map (fun s => Speaker.pretty_print s (il + 1)) (sorted_speakers d))
                (map (speaker_tree (il + 1)) (sorted_speakers d))) as (ks & Hks & Heq).
    { apply Forall2_prints. intros s Hs. apply speaker_prints.
      now apply (forallb_elem_of _ _ _ Hclean). }
    { rewrite Hss. discriminate. }
    { apply text_clean_tabs. }
    { apply text_clean_tabs. }
    eapply prints_eq;
      [|apply (container_prints "speakertable" "" (str_mul tab il) (str_mul tab (il + 1)) ks []
                 (map (speaker_tree (il + 1)) (sorted_speakers d)));
        [reflexivity | apply attrs_nil | apply text_clean_tabs | exact Hks]].
    rewrite <- (str_app_assoc (str_mul tab (il + 1)) ks), <- Heq.
    rewrite map_map. str_eq.
Qed.

(** *** The head *)

Lemma str_concat_app (l1 l2 : list string) :
  str_concat (l1 ++ l2) = str_concat l1 +:+ str_concat l2.
Proof.
  induction l1 as [|x l1 IH]; [reflexivity|].
  simpl. now rewrite IH, str_app_assoc.
Qed.

Lemma meta_prints (d : t) (il : Z) :
  meta_clean (meta_information d) = true ->
  prints (print_meta_information d il) (str_mul tab il) (meta_tree il d).
Proof.
  unfold meta_clean. rewrite !andb_true_iff. intros [[[[[Hp Ht] Hu] Hud] Hc] Htc].
  set (ind := str_mul tab il). set (ind1 := ind +:+ tab).
  assert (Hind1 : text_clean ind1 = true).
  { apply text_clean_app; [apply text_clean_tabs | reflexivity]. }
  set (url_line := fun ref_url : string =>
         ind1 +:+ "<" +:+ "referenced-file"
           +:+ (" " +:+ "url" +:+ "=" +:+ dq +:+ ref_url +:+ dq +:+ "") +:+ "/>").
  destruct (kids_of_lines ind1 ind
              ([ind1 +:+ "<" +:+ "project-name" +:+ ">" +:+ get_project_name d
                  +:+ "</" +:+ "project-name" +:+ ">";
                ind1 +:+ "<" +:+ "transcription-name" +:+ ">" +:+ get_transcription_name d
                  +:+ "</" +:+ "transcription-name" +:+ ">"]
                 ++ map url_line (get_referenced_file_url d)
                 ++ [ind1 +:+ "<" +:+ "ud-meta-information" +:+ ">" +:+ get_ud_meta_information d
                       +:+ "</" +:+ "ud-meta-information" +:+ ">";
                     ind1 +:+ "<" +:+ "comment" +:+ ">" +:+ get_comment d
                       +:+ "</" +:+ "comment" +:+ ">";
                     ind1 +:+ "<" +:+ "transcription-convention" +:+ ">"
                       +:+ get_transcription_convention d
                       +:+ "</" +:+ "transcription-convention" +:+ ">"])
              (ET.children (meta_tree il d))) as (ks & Hks & Heq).
  { simpl ET.children. simpl app.
    constructor; [now apply text_elem_prints|].
    constructor; [now apply text_elem_prints|].
    apply Forall2_app.
    - apply Forall2_prints. intros u Hin. apply selfclosed_prints; [reflexivity|].
      apply attrs_cons; [reflexivity | | apply attrs_nil | reflexivity].
      now apply (forallb_elem_of _ _ _ Hu).
    - repeat constructor; now apply text_elem_prints. }
  { discriminate. }
  { exact Hind1. }
  { apply text_clean_tabs. }
  eapply prints_eq;
    [|apply (container_prints "meta-information" "" ind ind1 ks [] (ET.children (meta_tree il d)));
      [reflexivity | apply attrs_nil | exact Hind1 | exact Hks]].
  rewrite <- (str_app_assoc ind1 ks), <- Heq.
  unfold print_meta_information. cbv zeta. fold ind. rewrite fold_left_append.
  rewrite !map_app, !str_concat_app, map_map. simpl map. simpl str_concat.
  unfold url_line, ind1.
  replace (map (fun x : string =>
             (((ind +:+ tab) +:+ "<" +:+ "referenced-file"
                 +:+ (" " +:+ "url" +:+ "=" +:+ dq +:+ x +:+ dq +:+ "") +:+ "/>") +:+ nl))
             (get_referenced_file_url d))
    with (map (fun ref_url : string =>
             ind +:+ tab +:+ "<referenced-file url=" +:+ dq +:+ ref_url +:+ dq +:+ "/>" +:+ nl)
             (get_referenced_file_url d)).
  2:{ apply map_ext. intros u. str_eq. }
  str_eq.
Qed.

Lemma head_prints (d : t) (il : Z) :
  meta_clean (meta_information d) = true ->
  forallb speaker_clean (sorted_speakers d) = true ->
  prints (print_head d il) (str_mul tab il) (head_tree il d).
Proof.
  intros Hm Hs.
  destruct (meta_prints d (il + 1) Hm) as (bm & Em & Hbm).
  destruct (speakertable_prints d (il + 1) Hs) as (bs & Es & Hbs).
  unfold print_head, head_tree. cbv zeta. rewrite Em, Es.
  eapply prints_eq;
    [|apply (container_prints "head" "" (str_mul tab il) (str_mul tab (il + 1))
               ("<" +:+ bm +:+ (nl +:+ nl +:+ str_mul tab (il + 1))
                  +:+ "<" +:+ bs +:+ (nl +:+ str_mul tab il) +:+ "")
               [] [meta_tree (il + 1) d; speakertable_tree (il + 1) d])].
  - str_eq.
  - reflexivity.
  - apply attrs_nil.
  - apply text_clean_tabs.
  - apply kids_cons; [exact Hbm | |].
    { apply (text_clean_app nl), (text_clean_app nl), text_clean_tabs; reflexivity. }
    apply kids_cons; [exact Hbs | | apply kids_nil].
    apply (text_clean_app nl), text_clean_tabs; reflexivity.
Qed.

(** *** The body and the document *)

Lemma body_prints (d : t) (il : Z) :
  forallb timepoint_clean (timepoints d) = true ->
  forallb tier_clean (tier_list d) = true ->
  prints (print_body d il) (str_mul tab il) (body_tree il d).
Proof.
  intros Htp Hti.
  destruct (timeline_prints d (il + 1) Htp) as (bt & Et & Hbt).
  unfold print_body, body_tree. cbv zeta. fold (tier_list d). rewrite Et.
  destruct (tier_list d) as [|t0 ts] eqn:Hl.
  - eapply prints_eq;
      [|apply (container_prints "basic-body" "" (str_mul tab il) (str_mul tab (il + 1))
                 ("<" +:+ bt +:+ (nl +:+ nl +:+ str_mul tab il) +:+ "")
                 [] [timeline_tree (il + 1) d])].
    + simpl. str_eq.
    + reflexivity.
    + apply attrs_nil.
    + apply text_clean_tabs.
    + apply kids_cons; [exact Hbt | | apply kids_nil].
      apply (text_clean_app nl), (text_clean_app nl), text_clean_tabs; reflexivity.
  - rewrite <- Hl in *.
    destruct (kids_of_join (str_mul tab (il + 1)) (nl +:+ str_mul tab il)
                (map (fun tier => Tier.pretty_print tier (il + 1)) (tier_list d))
                (map (tier_tree (il + 1)) (tier_list d))) as (ks & Hks & Heq).
    { apply Forall2_prints. intros tier Hin. apply tier_prints.
      now apply (forallb_elem_of _ _ _ Hti). }
    { rewrite Hl. discriminate. }
    { apply text_clean_tabs. }
    { apply (text_clean_app nl), text_clean_tabs; reflexivity. }
    eapply prints_eq;
      [|apply (container_prints "basic-body" "" (str_mul tab il) (str_mul tab (il + 1))
                 ("<" +:+ bt +:+ (nl +:+ str_mul tab (il + 1)) +:+ ks)
                 [] (timeline_tree (il + 1) d :: map (tier_tree (il + 1)) (tier_list d)))].
    + rewrite !str_app_assoc. rewrite <- (str_app_assoc (str_mul tab (il + 1)) ks), <- Heq.
      str_eq.
    + reflexivity.
    + apply attrs_nil.
    + apply text_clean_tabs.
    + apply kids_cons; [exact Hbt | | exact Hks].
      apply (text_clean_app nl), text_clean_tabs; reflexivity.
Qed.

Lemma document_prints (d : t) (il : Z) :
  clean d ->
  prints (str_mul tab il +:+ "<basic-transcription>" +:+ nl
            +:+ print_head d (il + 1) +:+ nl +:+ print_body d (il + 1) +:+ nl
            +:+ str_mul tab il +:+ "</basic-transcription>")
    (str_mul tab il) (document_tree il d).
Proof.
  intros (Hm & Hs & Htp & Hti).
  destruct (head_prints d (il + 1) Hm Hs) as (bh & Eh & Hbh).
  destruct (body_prints d (il + 1) Htp Hti) as (bb & Eb & Hbb).
  rewrite Eh, Eb.
  eapply prints_eq;
    [|apply (container_prints "basic-transcription" "" (str_mul tab il) (str_mul tab (il + 1))
               ("<" +:+ bh +:+ (nl +:+ str_mul tab (il + 1))
                  +:+ "<" +:+ bb +:+ (nl +:+ str_mul tab il) +:+ "")
               [] [head_tree (il + 1) d; body_tree (il + 1) d])].
  - str_eq.
  - reflexivity.
  - apply attrs_nil.
  - apply text_clean_tabs.
  - apply kids_cons; [exact Hbh | |].
    { apply (text_clean_app nl), text_clean_tabs; reflexivity. }
    apply kids_cons; [exact Hbb | | apply kids_nil].
    apply (text_clean_app nl), text_clean_tabs; reflexivity.
Qed.

End prints_facts.

(** ** The parser on the printed transcript *)

Section parse_printed.
Import ExmaraldaTranscript Markup Tree Clean.

Lemma name_start_not_mark (c : ascii) :
  ET.is_name_start c = true -> Ascii.eqb c "?" = false /\ Ascii.eqb c "!" = false.
Proof.
  intros H. split; apply Ascii.eqb_neq; intros ->; discriminate.
Qed.

Lemma space_not_lt (c : ascii) : ET.is_space c = true -> Ascii.eqb c "<" = false.
Proof. intros H. apply Ascii.eqb_neq. intros ->. discriminate. Qed.

Lemma spaces_tabs (n : Z) : str_forallb ET.is_space (str_mul tab n) = true.
Proof.
  unfold str_mul. induction (Z.to_nat n) as [|k IH]; [reflexivity|].
  simpl. now rewrite str_forallb_app, IH.
Qed.

Lemma skip_spaces_all (post : string) :
  str_forallb ET.is_space post = true -> ET.skip_spaces post = "".
Proof.
  intros H. unfold ET.skip_spaces. rewrite <- (str_app_nil_r post).
  now rewrite span_app.
Qed.

Lemma skip_misc_printed (n : nat) (ind body post : string) :
  str_forallb ET.is_space ind = true ->
  (exists c r, body = String c r /\ ET.is_name_start c = true) ->
  ET.skip_misc (S n) (ind +:+ "<" +:+ body +:+ post) = Some ("<" +:+ body +:+ post).
Proof.
  intros Hind (c & r & -> & Hc). destruct (name_start_not_mark c Hc) as [Hq He].
  simpl ET.skip_misc. unfold ET.skip_spaces.
  rewrite span_app by (exact Hind || reflexivity). simpl.
  now rewrite He.
Qed.

Lemma skip_prolog_printed (ind body post : string) :
  str_forallb ET.is_space ind = true ->
  (exists c r, body = String c r /\ ET.is_name_start c = true) ->
  ET.skip_prolog (ind +:+ "<" +:+ body +:+ post) = Some ("<" +:+ body +:+ post).
Proof.
  intros Hind Hbody.
  assert (Hmisc := fun n => skip_misc_printed n ind body post Hind Hbody).
  destruct Hbody as (c & r & -> & Hc). destruct (name_start_not_mark c Hc) as [Hq He].
  unfold ET.skip_prolog.
  destruct ind as [|a ind'].
  - rewrite str_app_nil_l. simpl ET.strip_prefix. rewrite Hq.
    rewrite str_app_nil_l in Hmisc. apply (Hmisc _).
  - simpl in Hind. apply andb_true_iff in Hind as [Ha Hind'].
    rewrite str_app_cons. simpl ET.strip_prefix. rewrite (space_not_lt a Ha).
    rewrite <- str_app_cons. apply Hmisc.
Qed.

Lemma skip_misc_S (fuel : nat) (s : string) :
  ET.skip_misc (S fuel) s
  = match ET.strip_prefix "<!--" (ET.skip_spaces s) with
    | Some r =>
        match ET.after_mark "-" "-" r with
        | Some (String ">"%char r) => ET.skip_misc fuel r
        | _ => None
        end
    | None => Some (ET.skip_spaces s)
    end.
Proof. reflexivity. Qed.

(** After the preface the parser is at the text that follows it. *)
Lemma skip_prolog_preface (ind body post : string) :
  str_forallb ET.is_space ind = true ->
  (exists c r, body = String c r /\ ET.is_name_start c = true) ->
  ET.skip_prolog (preface +:+ ind +:+ "<" +:+ body +:+ post) = Some ("<" +:+ body +:+ post).
Proof.
  intros Hind Hbody. set (rest := ind +:+ "<" +:+ body +:+ post).
  unfold ET.skip_prolog.
  change (ET.strip_prefix "<?" (preface +:+ rest))
    with (Some (drop_first (drop_first preface) +:+ rest)).
  cbv beta iota.
  change (ET.after_mark "?" ">" (drop_first (drop_first preface) +:+ rest))
    with (Some (nl +:+ "<!-- (c) http://www.rrz.uni-hamburg.de/exmaralda -->" +:+ nl +:+ rest)).
  cbn [mbind option_bind].
  rewrite skip_misc_S.
  change (ET.skip_spaces
            (nl +:+ "<!-- (c) http://www.rrz.uni-hamburg.de/exmaralda -->" +:+ nl +:+ rest))
    with ("<!-- (c) http://www.rrz.uni-hamburg.de/exmaralda -->" +:+ nl +:+ rest).
  change (ET.strip_prefix "<!--"
            ("<!-- (c) http://www.rrz.uni-hamburg.de/exmaralda -->" +:+ nl +:+ rest))
    with (Some (" (c) http://www.rrz.uni-hamburg.de/exmaralda -->" +:+ nl +:+ rest)).
  cbv beta iota.
  change (ET.after_mark "-" "-"
            (" (c) http://www.rrz.uni-hamburg.de/exmaralda -->" +:+ nl +:+ rest))
    with (Some (">" +:+ nl +:+ rest)).
  change (">" +:+ nl +:+ rest) with (String ">" (nl +:+ rest)). cbv iota.
  change (String.length
            (nl +:+ "<!-- (c) http://www.rrz.uni-hamburg.de/exmaralda -->" +:+ nl +:+ rest))
    with (S (String.length
               ("<!-- (c) http://www.rrz.uni-hamburg.de/exmaralda -->" +:+ nl +:+ rest))).
  unfold rest. rewrite <- (str_app_assoc nl).
  apply skip_misc_printed; [|exact Hbody].
  rewrite str_forallb_app, Hind. reflexivity.
Qed.

Lemma parse_printed (with_preface : bool) (s ind post : string) (e : ET.Element) :
  prints s ind e -> str_forallb ET.is_space ind = true ->
  str_forallb ET.is_space post = true ->
  ET.parse ((if with_preface then preface else "") +:+ s +:+ post) = Some e.
Proof.
  intros (body & -> & Hstart & He) Hind Hpost. unfold ET.parse.
  rewrite !str_app_assoc.
  assert (ET.skip_prolog ((if with_preface then preface else "")
                            +:+ ind +:+ "<" +:+ body +:+ post)
          = Some ("<" +:+ body +:+ post)) as ->.
  { destruct with_preface.
    - now apply skip_prolog_preface.
    - rewrite str_app_nil_l. now apply skip_prolog_printed. }
  cbn [mbind option_bind].
  change (ET.parse_element ("<" +:+ body +:+ post))
    with (ET.parse_started (String.length (body +:+ post)) (body +:+ post)).
  rewrite He by lia. cbn [mbind option_bind].
  now rewrite skip_spaces_all.
Qed.

End parse_printed.

(** ** The loader on the tree of a transcript *)

Section load_tree.
Import ExmaraldaTranscript Markup Tree Clean Reload Loaded.

Lemma flat_map_map_nil {A B C} (f : B -> list C) (g : A -> B) (l : list A) :
  (forall x, f (g x) = []) -> flat_map f (map g l) = [].
Proof.
  intros H. induction l as [|x l IH]; [reflexivity|]. simpl. now rewrite H, IH.
Qed.

Lemma flat_map_map_single {A B} (f : B -> list B) (g : A -> B) (l : list A) :
  (forall x, f (g x) = [g x]) -> flat_map f (map g l) = map g l.
Proof.
  intros H. induction l as [|x l IH]; [reflexivity|]. simpl. now rewrite H, IH.
Qed.

Lemma iter_mk (tg t : string) a x cs :
  ET.iter tg (ET.mk t a x cs)
  = (if String.eqb t tg then [ET.mk t a x cs] else []) ++ flat_map (ET.iter tg) cs.
Proof. reflexivity. Qed.

Lemma iter_urls (tg : string) (urls : list string) :
  String.eqb "referenced-file" tg = false ->
  flat_map (ET.iter tg) (map (fun u => ET.mk "referenced-file" [("url", u)] None []) urls) = [].
Proof. intros H. apply flat_map_map_nil. intros u. now rewrite iter_mk, H. Qed.

Lemma iter_events (tg : string) (evs : list Event.t) :
  String.eqb "event" tg = false -> flat_map (ET.iter tg) (map event_tree evs) = [].
Proof. intros H. apply flat_map_map_nil. intros e. unfold event_tree. now rewrite iter_mk, H. Qed.

Lemma iter_tlis_other (tg : string) (tps : list Timepoint.t) :
  String.eqb "tli" tg = false -> flat_map (ET.iter tg) (map tli_tree tps) = [].
Proof. intros H. apply flat_map_map_nil. intros tp. unfold tli_tree. now rewrite iter_mk, H. Qed.

Lemma iter_tlis (tps : list Timepoint.t) :
  flat_map (ET.iter "tli") (map tli_tree tps) = map tli_tree tps.
Proof. apply flat_map_map_single. reflexivity. Qed.

Lemma iter_tiers_other (tg : string) (il : Z) (ts : list Tier.t) :
  String.eqb "tier" tg = false -> String.eqb "event" tg = false ->
  flat_map (ET.iter tg) (map (tier_tree il) ts) = [].
Proof.
  intros H H'. apply flat_map_map_nil. intros tier. unfold tier_tree.
  now rewrite iter_mk, H, iter_events.
Qed.

Lemma iter_tiers (il : Z) (ts : list Tier.t) :
  flat_map (ET.iter "tier") (map (tier_tree il) ts) = map (tier_tree il) ts.
Proof.
  apply flat_map_map_single. intros tier. unfold tier_tree.
  rewrite iter_mk, iter_events by reflexivity. reflexivity.
Qed.

Lemma iter_speakers (il : Z) (ss : list Speaker.t) :
  flat_map (ET.iter "speaker") (map (speaker_tree il) ss) = map (speaker_tree il) ss.
Proof. apply flat_map_map_single. reflexivity. Qed.

Lemma iter_speakers_other (tg : string) (il : Z) (ss : list Speaker.t) :
  String.eqb "speaker" tg = false -> String.eqb "abbreviation" tg = false ->
  String.eqb "sex" tg = false -> String.eqb "languages-used" tg = false ->
  String.eqb "l1" tg = false -> String.eqb "l2" tg = false ->
  String.eqb "ud-speaker-information" tg = false -> String.eqb "comment" tg = false ->
  flat_map (ET.iter tg) (map (speaker_tree il) ss) = [].
Proof.
  intros H1 H2 H3 H4 H5 H6 H7 H8. apply flat_map_map_nil. intros s.
  unfold speaker_tree, text_elem. rewrite iter_mk, H1. cbn [flat_map app].
  now rewrite !iter_mk, H2, H3, H4, H5, H6, H7, H8.
Qed.

(** The elements that the loops of [load] visit in the tree of a
    transcript. *)
Lemma iter_document (d : t) (il : Z) :
  ET.iter "project-name" (document_tree il d) = [text_elem "project-name" (get_project_name d)]
  /\ ET.iter "transcription-name" (document_tree il d)
     = [text_elem "transcription-name" (get_transcription_name d)]
  /\ ET.iter "transcription-convention>" (document_tree il d) = []
  /\ ET.iter "<comment>" (document_tree il d) = []
  /\ ET.iter "speaker" (document_tree il d)
     = map (speaker_tree (il + 1 + 1 + 1)) (sorted_speakers d)
  /\ ET.iter "tli" (document_tree il d) = map tli_tree (timepoints d)
  /\ ET.iter "tier" (document_tree il d) = map (tier_tree (il + 1 + 1)) (tier_list d).
Proof.
  unfold document_tree, head_tree, body_tree, meta_tree, speakertable_tree, timeline_tree,
    text_elem.
  repeat split; simpl; rewrite ?flat_map_app; simpl;
    rewrite ?iter_urls, ?iter_speakers, ?iter_tlis, ?iter_tiers,
      ?iter_speakers_other, ?iter_tlis_other, ?iter_tiers_other by reflexivity;
    rewrite ?app_nil_r; reflexivity.
Qed.

Lemma stripped_text_elem (tg p : string) : stripped_text (text_elem tg p) = strip p.
Proof. destruct p; reflexivity. Qed.

(** *** Speakers *)

Lemma speaker_vars_tree (il : Z) (s : Speaker.t) :
  speaker_vars_of (speaker_tree il s)
  = mk_speaker_vars (Speaker.abbreviation s) (Speaker.sex s)
      (rejoin (Speaker.languages_used s)) (rejoin (Speaker.l1 s)) (rejoin (Speaker.l2 s))
      (Speaker.comment s).
Proof.
  destruct s as [i a sx lu l1 l2 ud c]. unfold speaker_tree, rejoin, text_elem. simpl.
  generalize (join ", " lu) (join ", " l1) (join ", " l2). intros x y z.
  destruct a, x, y, z, ud, c; reflexivity.
Qed.

Lemma load_speaker_tree (d : t) (il : Z) (s : Speaker.t) :
  Speaker.speaker_id s ∉ dict_keys (speaker_table d) ->
  load_speaker d (speaker_tree il s)
  = Ok (with_speaker_table d (speaker_table d ++ [(Speaker.speaker_id s, reload_speaker s)])).
Proof.
  intros Hni. unfold load_speaker.
  change (fold_left load_speaker_child (ET.children (speaker_tree il s))
            (mk_speaker_vars "" "" [] [] [] "")) with (speaker_vars_of (speaker_tree il s)).
  rewrite speaker_vars_tree.
  change (ET.attr "id" (speaker_tree il s)) with (Ok (Speaker.speaker_id s)).
  cbn [mbind result_bind mret result_ret v_abbr v_sex v_lang v_l1 v_l2 v_comment].
  unfold add_speaker, contains_speaker.
  apply dict_contains_false in Hni as Hc. rewrite Hc. cbn [negb].
  now rewrite dict_set_absent.
Qed.

Lemma load_speakers (il : Z) (ss : list Speaker.t) (d : t) :
  NoDup (dict_keys (speaker_table d) ++ map Speaker.speaker_id ss) ->
  for_each load_speaker (map (speaker_tree il) ss) d
  = Ok (with_speaker_table d
          (speaker_table d ++ map (fun s => (Speaker.speaker_id s, reload_speaker s)) ss)).
Proof.
  revert d. induction ss as [|s ss IH]; intros d Hnd.
  - simpl. rewrite app_nil_r. now destruct d.
  - simpl map. rewrite for_each_cons, load_speaker_tree.
    + cbn [mbind result_bind]. rewrite IH.
      * simpl. now rewrite <- app_assoc.
      * simpl. unfold dict_keys in *. rewrite fmap_app. simpl.
        rewrite <- app_assoc. exact Hnd.
    + apply NoDup_app in Hnd as (_ & Hd & _). intros Hin. apply (Hd _ Hin).
      simpl. apply elem_of_cons. now left.
Qed.

(** *** Time points *)

Lemma load_tli_tree (d : t) (r : Z) (tp : Timepoint.t) :
  py_eq (Timepoint.time_stamp tp) (PyInt (-1)) = false ->
  PyStr (py_format (Timepoint.time_id tp)) ∉ dict_keys (timeline d) ->
  load_tli (d, r) (tli_tree tp)
  = Ok (with_timeline d
          (timeline d ++ [(PyStr (py_format (Timepoint.time_id tp)), reload_timepoint tp)]),
        (r + 1)%Z).
Proof.
  intros Hts Hni. unfold load_tli.
  assert (ET.attr "time" (tli_tree tp) = Ok (py_format (Timepoint.time_stamp tp))) as ->.
  { unfold tli_tree, ET.attr. simpl. now rewrite Hts. }
  assert (ET.attr "id" (tli_tree tp) = Ok ("T" +:+ py_format (Timepoint.time_id tp))) as ->.
  { reflexivity. }
  cbn [mbind result_bind mret result_ret Timepoint.__init__].
  change (drop_first ("T" +:+ py_format (Timepoint.time_id tp)))
    with (py_format (Timepoint.time_id tp)).
  unfold Timepoint.set_time_id. cbn [Timepoint.time_id Timepoint.time_stamp Timepoint.type].
  apply dict_contains_false in Hni as Hc. rewrite Hc.
  now rewrite dict_set_absent.
Qed.

Lemma load_tlis (tps : list Timepoint.t) (d : t) (r : Z) :
  Forall (fun tp => py_eq (Timepoint.time_stamp tp) (PyInt (-1)) = false) tps ->
  NoDup (dict_keys (timeline d)
           ++ map (fun tp => PyStr (py_format (Timepoint.time_id tp))) tps) ->
  for_each load_tli (map tli_tree tps) (d, r)
  = Ok (with_timeline d
          (timeline d
             ++ map (fun tp => (PyStr (py_format (Timepoint.time_id tp)), reload_timepoint tp))
                  tps),
        (r + Z.of_nat (length tps))%Z).
Proof.
  revert d r. induction tps as [|tp tps IH]; intros d r Hts Hnd.
  - simpl. rewrite app_nil_r, Z.add_0_r. now destruct d.
  - apply Forall_cons in Hts as [Htp Hts].
    simpl map. rewrite for_each_cons, load_tli_tree; [|exact Htp|].
    + cbn [mbind result_bind]. rewrite IH; [|exact Hts|].
      * simpl timeline. rewrite <- app_assoc. cbn [length]. do 2 f_equal. lia.
      * simpl. unfold dict_keys in *. rewrite fmap_app. simpl.
        rewrite <- app_assoc. exact Hnd.
    + apply NoDup_app in Hnd as (_ & Hd & _). intros Hin. apply (Hd _ Hin).
      simpl. apply elem_of_cons. now left.
Qed.

(** *** Tiers and events *)

Lemma dict_alter_last {K V} `{EqDecision K} (f : V -> V) (k : K) (v : V) (d : dict K V) :
  k ∉ dict_keys d -> dict_alter f k (d ++ [(k, v)]) = d ++ [(k, f v)].
Proof.
  induction d as [|[k' v'] d IH]; simpl.
  - intros _. now rewrite decide_True.
  - rewrite not_elem_of_cons. intros [Hne Hni].
    rewrite decide_False by exact Hne. now rewrite IH.
Qed.

Lemma text_of_default (s : string) : default "" (ET.text_of s) = s.
Proof. now destruct s. Qed.

Lemma load_event_tree (d : t) (r : Z) (out : list printed) (i : string) (e : Event.t)
    (pre : dict string Tier.t) (tier : Tier.t) :
  tiers d = pre ++ [(i, tier)] -> i ∉ dict_keys pre ->
  PyStr (py_format (Event.get_start_id e)) ∈ dict_keys (timeline d) ->
  PyStr (py_format (Event.get_end_id e)) ∈ dict_keys (timeline d) ->
  load_event i (d, r, out) (event_tree e)
  = Ok (with_tiers d (pre ++ [(i, Tier.add_event tier (reload_event e))]),
        (r + 1 + 1)%Z, out).
Proof.
  intros Ht Hni Hs He. unfold load_event.
  change (ET.tag (event_tree e)) with "event". cbn [String.eqb Ascii.eqb Bool.eqb negb].
  change (ET.attr "start" (event_tree e)) with (Ok ("T" +:+ py_format (Event.get_start_id e))).
  change (ET.attr "end" (event_tree e)) with (Ok ("T" +:+ py_format (Event.get_end_id e))).
  cbn [mbind result_bind mret result_ret Timepoint.__init__].
  change (drop_first ("T" +:+ py_format (Event.get_start_id e)))
    with (py_format (Event.get_start_id e)).
  change (drop_first ("T" +:+ py_format (Event.get_end_id e)))
    with (py_format (Event.get_end_id e)).
  change (ET.text (event_tree e)) with (ET.text_of (Event.content e)).
  rewrite text_of_default.
  unfold Timepoint.set_time_id. cbn [Timepoint.time_id Timepoint.time_stamp Timepoint.type].
  unfold add_event.
  assert (dict_contains i (tiers d) = true) as ->.
  { apply dict_contains_true. rewrite Ht. unfold dict_keys. rewrite fmap_app.
    apply elem_of_app. right. simpl. apply elem_of_cons. now left. }
  unfold with_tiers, with_timeline, Event.__init__.
  cbn [Event.start Event.end_ Timepoint.time_id timeline tiers].
  apply dict_contains_true in Hs, He. rewrite Hs. cbn [negb timeline]. rewrite He.
  cbn [negb]. rewrite Ht, dict_alter_last by exact Hni.
  rewrite app_nil_r. reflexivity.
Qed.

Lemma load_events (evs : list Event.t) (d : t) (r : Z) (out : list printed) (i : string)
    (pre : dict string Tier.t) (tier : Tier.t) :
  tiers d = pre ++ [(i, tier)] -> i ∉ dict_keys pre ->
  Forall (fun e => PyStr (py_format (Event.get_start_id e)) ∈ dict_keys (timeline d)
                   /\ PyStr (py_format (Event.get_end_id e)) ∈ dict_keys (timeline d)) evs ->
  for_each (load_event i) (map event_tree evs) (d, r, out)
  = Ok (with_tiers d
          (pre ++ [(i, Tier.mk (Tier.id tier) (Tier.speaker tier) (Tier.category tier)
                         (Tier.type tier) (Tier.display_name tier)
                         (Tier.event_list tier ++ map reload_event evs))]),
        (r + 2 * Z.of_nat (length evs))%Z, out).
Proof.
  revert d r tier. induction evs as [|e evs IH]; intros d r tier Ht Hni Hev.
  - simpl. rewrite app_nil_r, Z.add_0_r. destruct tier. simpl. rewrite <- Ht.
    now destruct d.
  - apply Forall_cons in Hev as [[Hs He] Hev].
    simpl map. rewrite for_each_cons, (load_event_tree d r out i e pre tier) by assumption.
    cbn [mbind result_bind].
    rewrite (IH _ _ (Tier.add_event tier (reload_event e))); [|reflexivity|exact Hni|exact Hev].
    simpl. rewrite <- app_assoc. cbn [length]. do 3 f_equal. lia.
Qed.

Lemma len_zero (s : string) : (len s >? 0)%Z = false -> s = "".
Proof.
  destruct s as [|c s]; [reflexivity|]. unfold len. simpl String.length.
  rewrite Z.gtb_ltb. intros H. apply Z.ltb_ge in H. lia.
Qed.

Lemma tier_tree_attrs (il : Z) (tier : Tier.t) :
  tier_of_xml (tier_tree il tier) = tier_header tier.
Proof.
  unfold tier_of_xml, tier_header, tier_tree, Tier.__init__, ET.attr_or_empty.
  cbn [ET.attrib]. destruct (len (Tier.speaker tier) >? 0)%Z eqn:E.
  - reflexivity.
  - apply len_zero in E. rewrite E. reflexivity.
Qed.

Lemma load_tier_tree (d : t) (r : Z) (out : list printed) (il : Z) (tier : Tier.t) :
  Tier.id tier ∉ dict_keys (tiers d) ->
  Forall (endpoints_loaded d) (Tier.event_list tier) ->
  load_tier (d, r, out) (tier_tree il tier)
  = Ok (with_tiers d (tiers d ++ [(Tier.id tier, reload_tier tier)]),
        (r + 2 * Z.of_nat (length (Tier.event_list tier)))%Z, out).
Proof.
  intros Hni Hev. unfold load_tier.
  change (add_tier d (ET.attr_or_empty "id" (tier_tree il tier))
            (ET.attr_or_empty "speaker" (tier_tree il tier))
            (ET.attr_or_empty "category" (tier_tree il tier))
            (ET.attr_or_empty "type" (tier_tree il tier))
            (ET.attr_or_empty "display-name" (tier_tree il tier)))
    with (if negb (dict_contains (ET.attr_or_empty "id" (tier_tree il tier)) (tiers d))
          then with_tiers d (dict_set (ET.attr_or_empty "id" (tier_tree il tier))
                               (tier_of_xml (tier_tree il tier)) (tiers d))
          else d).
  rewrite tier_tree_attrs.
  change (ET.attr_or_empty "id" (tier_tree il tier)) with (Tier.id tier).
  apply dict_contains_false in Hni as Hc. rewrite Hc. cbn [negb].
  rewrite dict_set_absent by exact Hni.
  change (ET.children (tier_tree il tier)) with (map event_tree (Tier.event_list tier)).
  rewrite (load_events _ _ _ _ _ (tiers d) (tier_header tier)); [reflexivity..|exact Hni|exact Hev].
Qed.

Lemma load_tiers (il : Z) (ts : list Tier.t) (d : t) (r : Z) (out : list printed) :
  NoDup (dict_keys (tiers d) ++ map Tier.id ts) ->
  Forall (endpoints_loaded d) (flat_map Tier.event_list ts) ->
  for_each load_tier (map (tier_tree il) ts) (d, r, out)
  = Ok (with_tiers d (tiers d ++ map (fun tier => (Tier.id tier, reload_tier tier)) ts),
        (r + 2 * Z.of_nat (length (flat_map Tier.event_list ts)))%Z, out).
Proof.
  revert d r. induction ts as [|tier ts IH]; intros d r Hnd Hev.
  - simpl. rewrite app_nil_r, Z.add_0_r. now destruct d.
  - simpl flat_map in *. apply Forall_app in Hev as [Hev1 Hev2].
    simpl map. rewrite for_each_cons, load_tier_tree; [|  |exact Hev1].
    + cbn [mbind result_bind]. rewrite IH.
      * simpl tiers. rewrite <- app_assoc, length_app. simpl. do 3 f_equal. lia.
      * simpl. unfold dict_keys in *. rewrite fmap_app. simpl.
        rewrite <- app_assoc. exact Hnd.
      * exact Hev2.
    + apply NoDup_app in Hnd as (_ & Hd & _). intros Hin. apply (Hd _ Hin).
      simpl. apply elem_of_cons. now left.
Qed.

(** *** The whole document *)

(** On the tree of a loadable transcript [load] returns, prints nothing
    and advances the running id by one for every time point of the timeline
    and by two for every event. *)
Lemma load_document (d : t) (il running_id : Z) :
  loadable d ->
  load (document_tree il d) running_id
  = Ok (reloaded d,
        (running_id + Z.of_nat (length (timepoints d)) + 2 * event_count d)%Z, []).
Proof.
  intros (Hts & Hsp & Htl & Hti & Hev).
  destruct (iter_document d il) as (E1 & E2 & E3 & E4 & E5 & E6 & E7).
  unfold load. rewrite E1, E2, E3, E4, E5, E6, E7.
  cbn [fold_left]. rewrite !stripped_text_elem.
  rewrite load_speakers by exact Hsp. cbn [mbind result_bind].
  rewrite load_tlis; [|exact Hts|].
  2:{ simpl. rewrite <- (map_map (fun tp => py_format (Timepoint.time_id tp)) PyStr).
      apply NoDup_fmap_2; [|exact Htl]. intros x y H. now injection H. }
  cbn [mbind result_bind].
  rewrite load_tiers; [|exact Hti|].
  - reflexivity.
  - eapply Forall_impl; [exact Hev|]. intros e [Hs He].
    unfold endpoints_loaded. simpl. unfold dict_keys.
    rewrite <- list_fmap_compose. simpl.
    change (map (fun tp => py_format (Timepoint.time_id tp)) (timepoints d))
      with ((fun tp => py_format (Timepoint.time_id tp)) <$> timepoints d) in Hs, He.
    apply list_elem_of_fmap in Hs as (tp1 & E1' & H1), He as (tp2 & E2' & H2).
    rewrite E1', E2'. split; apply list_elem_of_fmap; eauto.
Qed.

End load_tree.

(** ** The round trip of a transcript built by the public operations *)

Section round_trip_facts.
Import ExmaraldaTranscript Build Markup Tree Clean Reload Loaded Demo.

Lemma keyed_set {K V} `{EqDecision K} (key : V -> K) (k : K) (v : V) (d : dict K V) :
  key v = k -> keyed key d -> keyed key (dict_set k v d).
Proof.
  intros Hk [Hnd Hid]. split.
  - now apply dict_keys_set_NoDup.
  - intros k' v' Hin. apply dict_set_elem_of in Hin as [[-> ->]|Hin]; [exact Hk|].
    now apply Hid.
Qed.

Lemma dict_alter_elem_of {K V} `{EqDecision K} (f : V -> V) (k k' : K) (v' : V) (d : dict K V) :
  (k', v') ∈ dict_alter f k d -> (k', v') ∈ d \/ exists v0, (k', v0) ∈ d /\ v' = f v0.
Proof.
  induction d as [|[k0 v0] d IH]; simpl; [now left|].
  destruct (decide (k = k0)) as [->|Hne]; rewrite !elem_of_cons.
  - intros [Heq|Hin]; [|left; now right].
    injection Heq as -> ->. right. exists v0. split; [now left | reflexivity].
  - intros [Heq|Hin]; [left; now left|].
    destruct (IH Hin) as [?|(v1 & ? & ?)]; [left; now right|].
    right. exists v1. split; [now right | assumption].
Qed.

Lemma keyed_alter {K V} `{EqDecision K} (key : V -> K) (f : V -> V) (k : K) (d : dict K V) :
  (forall v, key (f v) = key v) -> keyed key d -> keyed key (dict_alter f k d).
Proof.
  intros Hf [Hnd Hid]. split.
  - now rewrite dict_keys_alter.
  - intros k' v' Hin. apply dict_alter_elem_of in Hin as [Hin|(v0 & Hin & ->)].
    + now apply Hid.
    + rewrite Hf. now apply Hid.
Qed.

(** Tiers and time points are stored under their own identifiers. *)
Lemma run_op_keyed (d : t) (o : op) :
  keyed Tier.id (tiers d) /\ keyed Timepoint.time_id (timeline d) ->
  keyed Tier.id (tiers (run_op d o)) /\ keyed Timepoint.time_id (timeline (run_op d o)).
Proof.
  intros [Hti Htl]. destruct o; simpl; try (split; assumption).
  - unfold add_speaker. destruct (negb _); split; assumption.
  - unfold add_tier. destruct (negb _); simpl; [|split; assumption].
    split; [|assumption]. now apply keyed_set.
  - unfold add_event. destruct (dict_contains tier_id (tiers d)); simpl; [|split; assumption].
    assert (Hti' : keyed Tier.id (dict_alter (fun tier => Tier.add_event tier event) tier_id
                                    (tiers d))).
    { now apply keyed_alter. }
    destruct (negb (dict_contains (Timepoint.time_id (Event.start event)) (timeline d)));
      simpl;
      destruct (negb (dict_contains (Timepoint.time_id (Event.end_ event)) _)); simpl;
      (split; [exact Hti'|]); repeat apply keyed_set; trivial.
Qed.

Lemma build_keyed (a : init_args) (ops : list op) :
  keyed Tier.id (tiers (build a ops)) /\ keyed Timepoint.time_id (timeline (build a ops)).
Proof.
  unfold build.
  assert (H0 : keyed Tier.id (tiers (construct a))
               /\ keyed Timepoint.time_id (timeline (construct a))).
  { split; (split; simpl; [constructor|]); intros k v Hin; now apply elem_of_nil in Hin. }
  revert H0. generalize (construct a). induction ops as [|o ops IH]; intros d Hd; simpl.
  - exact Hd.
  - apply IH. now apply run_op_keyed.
Qed.

Lemma dict_at_keyed {K V} `{EqDecision K} (key : V -> K) (d : dict K V) (ks : list K) :
  (forall k v, (k, v) ∈ d -> key v = k) ->
  (forall k, k ∈ ks -> k ∈ dict_keys d) ->
  key <$> dict_at d ks = ks.
Proof.
  intros Hid. unfold dict_at. induction ks as [|k ks IH]; intros Hin; [reflexivity|].
  simpl. destruct (dict_get k d) as [v|] eqn:Hg.
  - simpl. rewrite (Hid k v) by (now apply dict_get_elem_of). f_equal.
    apply IH. intros k' Hk'. apply Hin. apply elem_of_cons. now right.
  - apply dict_get_None in Hg. destruct Hg. apply Hin. apply elem_of_cons. now left.
Qed.

(** What [load] needs of a built transcript: time stamps that are set and
    identifiers of time points that are distinct as printed; the rest
    holds by construction. *)
Lemma build_loadable (a : init_args) (ops : list op) :
  Forall (fun tp => py_eq (Timepoint.time_stamp tp) (PyInt (-1)) = false)
    (timepoints (build a ops)) ->
  NoDup (map (fun tp => py_format (Timepoint.time_id tp)) (timepoints (build a ops))) ->
  loadable (build a ops).
Proof.
  intros Hts Hfmt.
  destruct (build_keyed a ops) as [[Hti_nd Hti_id] [Htl_nd Htl_id]].
  destruct (build_speakers_keyed a ops) as [Hsp_nd Hsp_id].
  assert (Hend := build_endpoints_in_timeline a ops).
  set (d := build a ops) in *.
  assert (Htiers : Tier.id <$> tier_list d = dict_keys (tiers d)).
  { apply dict_at_keyed; [exact Hti_id | trivial]. }
  assert (Htps : Timepoint.time_id <$> timepoints d = dict_keys (timeline d)).
  { apply dict_at_keyed; [exact Htl_id | trivial]. }
  repeat split.
  - exact Hts.
  - change (map Speaker.speaker_id (sorted_speakers d))
      with (Speaker.speaker_id <$> sorted_speakers d).
    unfold sorted_speakers. rewrite dict_at_ids.
    + unfold sorted. now rewrite merge_sort_Permutation.
    + exact Hsp_id.
    + intros k Hk. unfold sorted in Hk. now rewrite merge_sort_Permutation in Hk.
  - exact Hfmt.
  - change (map Tier.id (tier_list d)) with (Tier.id <$> tier_list d).
    now rewrite Htiers.
  - apply Forall_forall. intros e He.
    apply list_elem_of_In, in_flat_map in He as (tier & Htier & He).
    apply list_elem_of_In in Htier, He.
    unfold tier_list in Htier. rewrite dict_at_keys in Htier by exact Hti_nd.
    destruct (Hend tier e Htier He) as [Hs Hf].
    rewrite <- Htps in Hs, Hf.
    apply list_elem_of_fmap in Hs as (tp1 & E1 & H1), Hf as (tp2 & E2 & H2).
    rewrite E1, E2. split; apply list_elem_of_fmap; eauto.
Qed.

(** The text of a transcript with clean strings: after the preface, if
    asked for, the indentation, the root element and a line feed. *)
Lemma print_transcript_text (d : t) (il : Z) (with_preface : bool) :
  clean d ->
  exists s,
    print_transcript d il with_preface = (if with_preface then preface else "") +:+ s +:+ nl
    /\ prints s (str_mul tab il) (document_tree il d).
Proof.
  intros Hclean.
  exists (str_mul tab il +:+ "<basic-transcription>" +:+ nl
            +:+ print_head d (il + 1) +:+ nl +:+ print_body d (il + 1) +:+ nl
            +:+ str_mul tab il +:+ "</basic-transcription>").
  split; [unfold print_transcript; cbv zeta; str_eq|].
  now apply document_prints.
Qed.


(** Printing a transcript, parsing the text and loading the tree: for a
    loadable transcript with clean strings [load] returns, prints nothing,
    yields [reloaded d] and advances the running id by one for every time
    point of the timeline and by two for every event. *)
Theorem round_trip (d : t) (indentation_level running_id : Z) (with_preface : bool) :
  clean d -> loadable d ->
  exists root,
    ET.parse (print_transcript d indentation_level with_preface) = Some root
    /\ load root running_id
       = Ok (reloaded d,
             (running_id + Z.of_nat (length (timepoints d)) + 2 * event_count d)%Z, []).
Proof.
  intros Hclean Hload. exists (document_tree indentation_level d). split.
  - destruct (print_transcript_text d indentation_level with_preface Hclean) as (s & -> & Hs).
    apply (parse_printed with_preface s (str_mul tab indentation_level) nl);
      [exact Hs | apply spaces_tabs | reflexivity].
  - now apply load_document.
Qed.

Lemma clean_time_stamps (d : t) :
  clean d ->
  Forall (fun tp => py_eq (Timepoint.time_stamp tp) (PyInt (-1)) = false) (timepoints d).
Proof.
  intros (_ & _ & Htp & _). apply Forall_forall. intros tp Hin.
  rewrite forallb_forall in Htp. apply list_elem_of_In in Hin.
  specialize (Htp tp Hin). unfold timepoint_clean in Htp.
  apply andb_true_iff in Htp as [_ Htp]. now apply negb_true_iff in Htp.
Qed.

(** The round trip of a transcript built by the public operations: with
    clean strings and identifiers of time points that differ as printed,
    the text of the transcript parses and [load] rebuilds [reloaded] of
    it. *)
Theorem round_trip_built (a : init_args) (ops : list op)
    (indentation_level running_id : Z) (with_preface : bool) :
  clean (build a ops) ->
  NoDup (map (fun tp => py_format (Timepoint.time_id tp)) (timepoints (build a ops))) ->
  exists root,
    ET.parse (print_transcript (build a ops) indentation_level with_preface) = Some root
    /\ load root running_id
       = Ok (reloaded (build a ops),
             (running_id + Z.of_nat (length (timepoints (build a ops)))
                + 2 * event_count (build a ops))%Z, []).
Proof.
  intros Hclean Hfmt. exists (document_tree indentation_level (build a ops)). split.
  - destruct (print_transcript_text (build a ops) indentation_level with_preface Hclean)
      as (s & -> & Hs).
    apply (parse_printed with_preface s (str_mul tab indentation_level) nl);
      [exact Hs | apply spaces_tabs | reflexivity].
  - apply load_document. apply build_loadable; [|exact Hfmt].
    now apply clean_time_stamps.
Qed.


Lemma round_trip_witness :
  exists root,
    ET.parse (print_transcript demo 0 false) = Some root
    /\ load root 0 = Ok (reloaded demo, 4%Z, []).
Proof.
  apply (round_trip demo 0 0 false).
  - repeat split; vm_compute; reflexivity.
  - unfold loadable. apply (bool_decide_unpack _). vm_compute. exact I.
Defined.

Lemma round_trip_built_witness :
  exists root,
    ET.parse (print_transcript (build demo_args demo_ops) 0 true) = Some root
    /\ load root 2 = Ok (reloaded (build demo_args demo_ops), 6%Z, []).
Proof.
  apply (round_trip_built demo_args demo_ops 0 2 true).
  - repeat split; vm_compute; reflexivity.
  - apply (bool_decide_unpack _). vm_compute. exact I.
Defined.

End round_trip_facts.

(** ** The loader on any input *)

Section loader_any.
Import ExmaraldaTranscript Build Markup Loaded Loading.

(** *** The tags of a parsed tree *)

Lemma parse_children_S (fuel : nat) (s : string) :
  ET.parse_children (S fuel) s =
    match s with
    | String "<"%char (String c s' as s) =>
        if Ascii.eqb c "/" then Some ([], s')
        else
          '(child, s) ← ET.parse_started fuel s;
          let '(_, s) := ET.span ET.is_char_data s in
          '(more, s) ← ET.parse_children fuel s;
          Some (child :: more, s)
    | _ => None
    end.
Proof. reflexivity. Qed.

Lemma span_fst_forallb (p : ascii -> bool) (s : string) :
  str_forallb p (fst (ET.span p s)) = true.
Proof.
  induction s as [|c s IH]; [reflexivity|]. simpl.
  destruct (p c) eqn:Hc; [|reflexivity].
  destruct (ET.span p s) as [a b]. simpl in *. now rewrite Hc, IH.
Qed.

Lemma parse_name_good (s tag r : string) :
  ET.parse_name s = Some (tag, r) -> good_name tag = true.
Proof.
  unfold ET.parse_name. destruct s as [|c s]; [discriminate|].
  destruct (ET.is_name_start c) eqn:Hc; [|discriminate].
  intros [= H].
  assert (Hall : str_forallb ET.is_name_char tag = true).
  { change tag with (fst (tag, r)). rewrite <- H.
    exact (span_fst_forallb ET.is_name_char (String c s)). }
  assert (Ht : exists a, tag = String c a).
  { simpl in H. unfold ET.is_name_char at 1 in H. rewrite Hc in H. simpl in H.
    destruct (ET.span ET.is_name_char s) as [a b]. injection H as <- <-. now exists a. }
  destruct Ht as [a ->]. unfold good_name. now rewrite Hc, Hall.
Qed.

Lemma parse_tags (fuel : nat) :
  (forall s e r, ET.parse_started fuel s = Some (e, r) ->
     Forall (fun t => good_name t = true) (tags e))
  /\ (forall s es r, ET.parse_children fuel s = Some (es, r) ->
        Forall (fun t => good_name t = true) (flat_map tags es)).
Proof.
  induction fuel as [|fuel [IHs IHc]]; [split; discriminate|]. split.
  - intros s e r. rewrite parse_started_S.
    destruct (ET.parse_name s) as [[tag s1]|] eqn:Hn; [|discriminate].
    apply parse_name_good in Hn. cbn [mbind option_bind].
    destruct (ET.parse_attributes (String.length s1) s1) as [[a s2]|]; [|discriminate].
    cbn [mbind option_bind].
    destruct s2 as [|c s2]; [discriminate|].
    destruct (Ascii.eqb_spec c "/") as [->|Hslash].
    { destruct s2 as [|c2 s2]; [discriminate|].
      destruct (Ascii.eqb_spec c2 ">") as [->|Hgt].
      - intros [= <- <-]. simpl. constructor; [exact Hn | constructor].
      - intros H. exfalso. revert H.
        destruct c2 as [[] [] [] [] [] [] [] []]; try discriminate. congruence. }
    destruct (Ascii.eqb_spec c ">") as [->|Hgt].
    2:{ intros H. exfalso. revert H.
        destruct c as [[] [] [] [] [] [] [] []]; try discriminate; congruence. }
    destruct (ET.span ET.is_char_data s2) as [txt s3].
    destruct (ET.parse_children fuel s3) as [[cs s4]|] eqn:Hc; [|discriminate].
    cbn [mbind option_bind].
    destruct (ET.parse_name s4) as [[tag' s5]|]; [|discriminate].
    cbn [mbind option_bind].
    destruct (String.eqb tag' tag); [|discriminate].
    destruct (ET.skip_spaces s5) as [|c5 s6]; [discriminate|].
    intros H.
    assert (He : e = ET.mk tag a (ET.text_of txt) cs).
    { revert H. destruct (Ascii.eqb_spec c5 ">") as [->|Hne].
      - now intros [= <- _].
      - destruct c5 as [[] [] [] [] [] [] [] []]; try discriminate; congruence. }
    subst e. simpl. constructor; [exact Hn|]. now apply (IHc s3 cs s4).
  - intros s es r. rewrite parse_children_S.
    destruct s as [|c s]; [discriminate|]. destruct s as [|c' s].
    { destruct c as [[] [] [] [] [] [] [] []]; discriminate. }
    destruct (Ascii.eqb_spec c "<") as [->|Hne].
    2:{ intros H. exfalso. revert H.
        destruct c as [[] [] [] [] [] [] [] []]; try discriminate; congruence. }
    destruct (Ascii.eqb c' "/"); [intros [= <- _]; constructor|].
    destruct (ET.parse_started fuel (String c' s)) as [[child s1]|] eqn:Hs; [|discriminate].
    cbn [mbind option_bind].
    destruct (ET.span ET.is_char_data s1) as [x s2].
    destruct (ET.parse_children fuel s2) as [[more s3]|] eqn:Hc; [|discriminate].
    cbn [mbind option_bind]. intros [= <- _]. simpl. apply Forall_app. split.
    + now apply (IHs _ _ _ Hs).
    + now apply (IHc _ _ _ Hc).
Qed.

Lemma parse_root_tags (contents : string) (root : ET.Element) :
  ET.parse contents = Some root -> Forall (fun t => good_name t = true) (tags root).
Proof.
  unfold ET.parse. destruct (ET.skip_prolog contents) as [s|]; [|discriminate].
  cbn [mbind option_bind]. destruct (ET.parse_element s) as [[e r]|] eqn:He; [|discriminate].
  cbn [mbind option_bind]. intros H.
  assert (e = root) as <- by (destruct (ET.skip_spaces r); congruence).
  unfold ET.parse_element in He. destruct s as [|c s]; [discriminate|].
  destruct (Ascii.eqb_spec c "<") as [->|Hne].
  - now apply (proj1 (parse_tags _) _ _ _ He).
  - exfalso. revert He. destruct c as [[] [] [] [] [] [] [] []]; try discriminate; congruence.
Qed.

Lemma iter_absent (tg : string) : forall e, tg ∉ tags e -> ET.iter tg e = [].
Proof.
  fix IH 1. intros [t a x cs] Hni. rewrite iter_mk. simpl in Hni.
  apply not_elem_of_cons in Hni as [Hne Hcs].
  destruct (String.eqb_spec t tg) as [E|_]; [congruence|]. simpl.
  induction cs as [|c cs IHcs]; [reflexivity|]. simpl in *.
  apply not_elem_of_app in Hcs as [H1 H2]. now rewrite (IH c H1), IHcs.
Qed.

Lemma iter_no_name (tg : string) (e : ET.Element) :
  good_name tg = false -> Forall (fun t => good_name t = true) (tags e) ->
  ET.iter tg e = [].
Proof.
  intros Htg Hall. apply iter_absent. intros Hin.
  rewrite Forall_forall in Hall. specialize (Hall _ Hin). congruence.
Qed.

(** *** One round of the event loop and of the tier loop *)

Lemma load_event_run (tid : string) (d : t) (c : Z) (o : list printed) (y : ET.Element)
    (st' : load_state) :
  tid ∈ dict_keys (tiers d) ->
  load_event tid (d, c, o) y = Ok st' ->
  st' = if is_event y then (fst (add_event d (event_of_xml y) tid), (c + 1 + 1)%Z, o)
        else (d, c, o ++ [issue]).
Proof.
  intros Hin. unfold load_event, is_event.
  destruct (String.eqb (ET.tag y) "event"); cbn [negb]; [|now intros [= <-]].
  destruct (ET.attr "start" y) as [a|k] eqn:Ha; [|discriminate].
  destruct (ET.attr "end" y) as [b|k] eqn:Hb; [|discriminate].
  apply attr_Ok in Ha as [_ ->], Hb as [_ ->].
  cbn [mbind result_bind mret result_ret Timepoint.__init__].
  unfold Timepoint.set_time_id. cbn [Timepoint.time_stamp Timepoint.type].
  change (Event.__init__ _ _ _) with (event_of_xml y).
  rewrite add_event_known by exact Hin. cbn [fst]. rewrite app_nil_r. now intros [= <-].
Qed.

Lemma add_event_keys (d : t) (e : Event.t) (tid : string) :
  dict_keys (tiers (fst (add_event d e tid))) = dict_keys (tiers d).
Proof.
  unfold add_event. destruct (dict_contains tid (tiers d)); [|reflexivity].
  simpl. repeat (destruct (negb _); simpl); apply dict_keys_alter.
Qed.

Lemma issues_app (l1 l2 : list ET.Element) : issues (l1 ++ l2) = issues l1 ++ issues l2.
Proof. unfold issues. now rewrite List.filter_app, map_app. Qed.

Lemma count_events_app (l1 l2 : list ET.Element) :
  count_events (l1 ++ l2) = (count_events l1 + count_events l2)%Z.
Proof. unfold count_events. rewrite List.filter_app, length_app. lia. Qed.

Lemma add_events_app (tid : string) (l1 l2 : list ET.Element) (d : t) :
  add_events tid (l1 ++ l2) d = add_events tid l2 (add_events tid l1 d).
Proof. unfold add_events. apply fold_left_app. Qed.

Lemma load_events_run (tid : string) (ys : list ET.Element) (d : t) (c : Z)
    (o : list printed) (st' : load_state) :
  tid ∈ dict_keys (tiers d) ->
  for_each (load_event tid) ys (d, c, o) = Ok st' ->
  st' = (add_events tid ys d, (c + 2 * count_events ys)%Z, o ++ issues ys).
Proof.
  intros Hin Hrun.
  assert (Hinv : tid ∈ dict_keys (tiers (fst (fst st')))
                 /\ st' = (add_events tid ys d, (c + 2 * count_events ys)%Z, o ++ issues ys));
    [|tauto].
  revert Hrun. apply (for_each_prefix_invariant
    (fun l (s : load_state) =>
       tid ∈ dict_keys (tiers (fst (fst s)))
       /\ s = (add_events tid l d, (c + 2 * count_events l)%Z, o ++ issues l))).
  - intros l s y s' [Hk ->] Hb. apply load_event_run in Hb; [|exact Hk].
    rewrite add_events_app, count_events_app, issues_app. subst s'.
    change (add_events tid [y] (add_events tid l d))
      with (if is_event y then fst (add_event (add_events tid l d) (event_of_xml y) tid)
            else add_events tid l d).
    assert (Hy : count_events [y] = (if is_event y then 1 else 0)%Z
                 /\ issues [y] = if is_event y then [] else [issue]).
    { unfold count_events, issues. simpl. now destruct (is_event y). }
    destruct Hy as [-> ->]. cbn [fst] in Hk.
    destruct (is_event y); cbn [fst].
    + rewrite add_event_keys, app_nil_r. split; [exact Hk|]. do 2 f_equal. lia.
    + split; [exact Hk|]. rewrite app_assoc. do 2 f_equal. lia.
  - simpl. split; [exact Hin|]. unfold count_events, issues. simpl.
    now rewrite Z.add_0_r, app_nil_r.
Qed.

Lemma load_tier_run (d : t) (c : Z) (o : list printed) (x : ET.Element) (st' : load_state) :
  load_tier (d, c, o) x = Ok st' ->
  st' = (add_events (ET.attr_or_empty "id" x) (ET.children x)
           (add_tier d (ET.attr_or_empty "id" x) (ET.attr_or_empty "speaker" x)
              (ET.attr_or_empty "category" x) (ET.attr_or_empty "type" x)
              (ET.attr_or_empty "display-name" x)),
         (c + 2 * count_events (ET.children x))%Z, o ++ issues (ET.children x)).
Proof.
  unfold load_tier. apply load_events_run.
  unfold add_tier. destruct (dict_contains _ (tiers d)) eqn:Hc; cbn [negb].
  - now apply dict_contains_true.
  - simpl. apply dict_contains_false in Hc. rewrite dict_set_absent by exact Hc.
    rewrite dict_keys_app. apply elem_of_app. right. simpl. apply elem_of_cons. now left.
Qed.

Lemma load_tiers_run (xs : list ET.Element) (d : t) (c : Z) (o : list printed)
    (st' : load_state) :
  for_each load_tier xs (d, c, o) = Ok st' ->
  st' = (add_tiers xs d, (c + 2 * count_events (flat_map ET.children xs))%Z,
         o ++ issues (flat_map ET.children xs)).
Proof.
  apply (for_each_prefix_invariant
    (fun l (s : load_state) =>
       s = (add_tiers l d, (c + 2 * count_events (flat_map ET.children l))%Z,
            o ++ issues (flat_map ET.children l)))).
  - intros l s x s' -> Hb. apply load_tier_run in Hb. subst s'.
    rewrite flat_map_app, count_events_app, issues_app. simpl. rewrite app_nil_r.
    unfold add_tiers. rewrite fold_left_app. simpl. rewrite app_assoc.
    do 2 f_equal. lia.
  - unfold count_events, issues. simpl. now rewrite Z.add_0_r, app_nil_r.
Qed.

(** *** One round of the timeline loop *)

Lemma load_tli_run (d : t) (c : Z) (x : ET.Element) (st' : t * Z) :
  load_tli (d, c) x = Ok st' ->
  st' = (with_timeline d (dict_set (tli_key x) (timepoint_of_xml x) (timeline d)),
         if dict_contains (tli_key x) (timeline d) then c else (c + 1)%Z).
Proof.
  unfold load_tli.
  destruct (ET.attr "time" x) as [tm|k] eqn:Ht; [|discriminate].
  destruct (ET.attr "id" x) as [i|k] eqn:Hi; [|discriminate].
  apply attr_Ok in Ht as [_ ->], Hi as [_ ->].
  cbn [mbind result_bind mret result_ret Timepoint.__init__].
  unfold Timepoint.set_time_id. cbn [Timepoint.time_id Timepoint.time_stamp Timepoint.type].
  intros [= <-]. unfold timepoint_of_xml, tli_key, attr_tail, Timepoint.__del__.
  f_equal. destruct (dict_contains _ _); lia.
Qed.

Lemma dict_set_length {K V} `{EqDecision K} (k : K) (v : V) (d : dict K V) :
  length (dict_set k v d) = if dict_contains k d then length d else S (length d).
Proof.
  destruct (dict_contains k d) eqn:Hc.
  - apply dict_contains_true in Hc.
    pose proof (dict_keys_set_present k v d Hc) as E. unfold dict_keys in E.
    now rewrite <- (length_fmap fst (dict_set k v d)), E, length_fmap.
  - apply dict_contains_false in Hc. rewrite dict_set_absent by exact Hc.
    rewrite length_app. simpl. lia.
Qed.

Lemma dict_set_keys_elem {K V} `{EqDecision K} (k k' : K) (v : V) (d : dict K V) :
  k' ∈ dict_keys (dict_set k v d) <-> k' = k \/ k' ∈ dict_keys d.
Proof.
  destruct (decide (k ∈ dict_keys d)) as [Hin|Hni].
  - rewrite dict_keys_set_present by exact Hin. split; [now right|]. intros [->|?]; assumption.
  - rewrite dict_set_absent by exact Hni. rewrite dict_keys_app, elem_of_app. simpl.
    rewrite list_elem_of_singleton. tauto.
Qed.

Lemma load_tlis_run (xs : list ET.Element) (d : t) (c : Z) (st' : t * Z) :
  for_each load_tli xs (d, c) = Ok st' ->
  st' = (with_timeline d (add_tlis xs (timeline d)),
         (c + Z.of_nat (length (add_tlis xs (timeline d))) - Z.of_nat (length (timeline d)))%Z).
Proof.
  apply (for_each_prefix_invariant
    (fun l (s : t * Z) =>
       s = (with_timeline d (add_tlis l (timeline d)),
            (c + Z.of_nat (length (add_tlis l (timeline d)))
               - Z.of_nat (length (timeline d)))%Z))).
  - intros l [d1 c1] x s' [= -> ->] Hb. apply load_tli_run in Hb. subst s'.
    unfold add_tlis. rewrite fold_left_app. simpl. f_equal.
    rewrite dict_set_length. destruct (dict_contains _ _); lia.
  - simpl. destruct d. unfold with_timeline. simpl. f_equal. lia.
Qed.

Lemma add_tlis_keys (xs : list ET.Element) (tl : dict pyval Timepoint.t) :
  NoDup (dict_keys tl) ->
  NoDup (dict_keys (add_tlis xs tl))
  /\ forall k, k ∈ dict_keys (add_tlis xs tl) <-> k ∈ dict_keys tl \/ k ∈ map tli_key xs.
Proof.
  revert tl. induction xs as [|x xs IH]; intros tl Hnd.
  - simpl. split; [exact Hnd|]. intros k. rewrite elem_of_nil. tauto.
  - simpl. destruct (IH (dict_set (tli_key x) (timepoint_of_xml x) tl)) as [H1 H2].
    { now apply dict_keys_set_NoDup. }
    split; [exact H1|]. intros k. rewrite H2, dict_set_keys_elem, elem_of_cons. tauto.
Qed.

(** *** The run of [load] *)

(** [load] by its phases: the meta information and the speakers, the
    timeline, the tiers. *)
Lemma load_run (root : ET.Element) (running_id : Z) (d : t) (running_id' : Z)
    (out : list printed) :
  load root running_id = Ok (d, running_id', out) ->
  exists d2,
    timeline d2 = [] /\ tiers d2 = []
    /\ d = add_tiers (ET.iter "tier" root)
             (with_timeline d2 (add_tlis (ET.iter "tli" root) []))
    /\ running_id' = (running_id + Z.of_nat (length (add_tlis (ET.iter "tli" root) []))
                        + 2 * count_events (tier_children root))%Z
    /\ out = issues (tier_children root).
Proof.
  intros Hrun. destruct (load_phases _ _ _ Hrun) as (d1 & d2 & [d3 c3] & Hd1 & H2 & H3 & H4).
  assert (Hd1' : timeline d1 = [] /\ tiers d1 = []).
  { rewrite Hd1. split.
    - now rewrite !(fold_left_frame _ timeline) by reflexivity.
    - now rewrite !(fold_left_frame _ tiers) by reflexivity. }
  assert (Hd2 : timeline d2 = [] /\ tiers d2 = []).
  { revert H2. apply (for_each_invariant (fun s : t => timeline s = [] /\ tiers s = []));
      [|exact Hd1'].
    intros s x s' [Ha Hb] Hs. apply load_speaker_Ok in Hs as (_ & _ & Ht & Hti).
    split; congruence. }
  destruct Hd2 as [Htl2 Hti2]. exists d2. split; [exact Htl2|]. split; [exact Hti2|].
  apply load_tlis_run in H3. rewrite Htl2 in H3. injection H3 as -> ->.
  apply load_tiers_run in H4. injection H4 as -> -> ->.
  unfold tier_children. repeat split. simpl. lia.
Qed.

Lemma add_tiers_invariant (P : t -> Prop) :
  (forall d i s c ty dn, P d -> P (add_tier d i s c ty dn)) ->
  (forall d y tid, P d -> P (fst (add_event d (event_of_xml y) tid))) ->
  forall xs d, P d -> P (add_tiers xs d).
Proof.
  intros Htier Hevent xs. unfold add_tiers.
  induction xs as [|x xs IH]; intros d Hd; [exact Hd|].
  simpl. apply IH. unfold add_events.
  generalize (add_tier d (ET.attr_or_empty "id" x) (ET.attr_or_empty "speaker" x)
                (ET.attr_or_empty "category" x) (ET.attr_or_empty "type" x)
                (ET.attr_or_empty "display-name" x))
    (Htier d (ET.attr_or_empty "id" x) (ET.attr_or_empty "speaker" x)
       (ET.attr_or_empty "category" x) (ET.attr_or_empty "type" x)
       (ET.attr_or_empty "display-name" x) Hd).
  generalize (ET.attr_or_empty "id" x). intros tid.
  induction (ET.children x) as [|y ys IHy]; intros d' Hd'; [exact Hd'|].
  simpl. apply IHy. destruct (is_event y); [now apply Hevent | exact Hd'].
Qed.

(** *** What [load] prints *)

(** [load] prints one line for every child of a tier element that is no
    event, in document order, and nothing else: the events go to the tier
    that the round has just registered, so [add_event] never prints the
    keys of the tiers. *)
Theorem load_prints (root : ET.Element) (running_id : Z) (d : t) (running_id' : Z)
    (out : list printed) :
  load root running_id = Ok (d, running_id', out) -> out = issues (tier_children root).
Proof.
  intros Hrun. apply load_run in Hrun as (d2 & _ & _ & _ & _ & Hout). exact Hout.
Qed.

Lemma load_prints_witness :
  exists d running_id',
    load noisy_input 0 = Ok (d, running_id', [issue])
    /\ [issue] = issues (tier_children noisy_input).
Proof.
  eexists _, _. split; [vm_compute; reflexivity|].
  eapply (load_prints noisy_input 0). vm_compute. reflexivity.
Defined.

(** *** The running id after [load] *)

Lemma add_tlis_length (xs : list ET.Element) :
  length (add_tlis xs []) = length (remove_dups (map tli_key xs)).
Proof.
  destruct (add_tlis_keys xs []) as [Hnd Hk]; [constructor|].
  rewrite <- (length_fmap fst (add_tlis xs [])).
  apply Permutation_length. apply NoDup_Permutation.
  - exact Hnd.
  - apply NoDup_remove_dups.
  - intros k. change (fst <$> add_tlis xs []) with (dict_keys (add_tlis xs [])).
    rewrite Hk, elem_of_remove_dups. simpl. rewrite elem_of_nil. tauto.
Qed.

(** [load] leaves [Timepoint.running_id] advanced by the number of
    distinct identifiers of the [tli] elements (a time point that replaces
    an entry of the timeline releases the identifier it drew) and by two
    for every event element. *)
Theorem load_running_id (root : ET.Element) (running_id : Z) (d : t) (running_id' : Z)
    (out : list printed) :
  load root running_id = Ok (d, running_id', out) ->
  running_id' = (running_id
                 + Z.of_nat (length (remove_dups (map tli_key (ET.iter "tli" root))))
                 + 2 * count_events (tier_children root))%Z.
Proof.
  intros Hrun. apply load_run in Hrun as (d2 & _ & _ & _ & Hid & _).
  now rewrite <- add_tlis_length.
Qed.

Lemma load_running_id_witness :
  exists d out,
    load noisy_input 10 = Ok (d, 16%Z, out)
    /\ 16%Z = (10 + Z.of_nat (length (remove_dups (map tli_key (ET.iter "tli" noisy_input))))
                + 2 * count_events (tier_children noisy_input))%Z.
Proof.
  eexists _, _. split; [vm_compute; reflexivity|].
  eapply (load_running_id noisy_input 10). vm_compute. reflexivity.
Defined.

(** *** Invariants of the loaded transcript *)

Lemma add_tlis_keyed (xs : list ET.Element) (tl : dict pyval Timepoint.t) :
  Reload.keyed Timepoint.time_id tl -> Reload.keyed Timepoint.time_id (add_tlis xs tl).
Proof.
  revert tl. induction xs as [|x xs IH]; intros tl Hk; [exact Hk|].
  simpl. apply IH. now apply keyed_set.
Qed.

Lemma load_keyed (root : ET.Element) (running_id : Z) (d : t)
    (running_id' : Z) (out : list printed) :
  load root running_id = Ok (d, running_id', out) ->
  endpoints_in_timeline d
  /\ Reload.keyed Tier.id (tiers d)
  /\ Reload.keyed Timepoint.time_id (timeline d).
Proof.
  intros Hrun. apply load_run in Hrun as (d2 & Htl & Hti & -> & _ & _).
  apply (add_tiers_invariant
    (fun d => endpoints_in_timeline d /\ Reload.keyed Tier.id (tiers d)
              /\ Reload.keyed Timepoint.time_id (timeline d))).
  - intros d i s c ty dn (He & Hk). split.
    + apply (run_op_preserves_endpoints d (AddTier i s c ty dn) He).
    + apply (run_op_keyed d (AddTier i s c ty dn) Hk).
  - intros d y tid (He & Hk). split.
    + now apply add_event_preserves_endpoints.
    + apply (run_op_keyed d (AddEvent (event_of_xml y) tid) Hk).
  - unfold with_timeline, endpoints_in_timeline. cbn [tiers timeline]. rewrite Hti.
    split; [|split].
    + intros tier e Htier. now apply elem_of_nil in Htier.
    + split; [constructor|]. intros k v Hin. now apply elem_of_nil in Hin.
    + apply add_tlis_keyed. split; [constructor|]. intros k v Hin.
      now apply elem_of_nil in Hin.
Qed.

(** In the transcript that [load] returns every event of every tier has
    both endpoint identifiers among the keys of the timeline (an endpoint
    that no [tli] element declares is added by [add_event]), and tiers and
    time points are stored under their own identifiers. *)
Theorem load_endpoints_in_timeline (root : ET.Element) (running_id : Z) (d : t)
    (running_id' : Z) (out : list printed) :
  load root running_id = Ok (d, running_id', out) ->
  endpoints_in_timeline d
  /\ Reload.keyed Tier.id (tiers d)
  /\ Reload.keyed Timepoint.time_id (timeline d).
Proof. apply load_keyed. Qed.

Lemma load_endpoints_in_timeline_witness :
  exists d running_id' out,
    load noisy_input 0 = Ok (d, running_id', out)
    /\ endpoints_in_timeline d
    /\ Reload.keyed Tier.id (tiers d)
    /\ Reload.keyed Timepoint.time_id (timeline d).
Proof.
  eexists _, _, _. split; [vm_compute; reflexivity|].
  eapply (load_endpoints_in_timeline noisy_input 0). vm_compute. reflexivity.
Defined.

(** *** The fields that [load] does not read *)

Lemma register_all_elem_of {K V X} `{EqDecision K} (key : X -> K) (val : X -> V)
    (l : list X) (k : K) (v : V) :
  (k, v) ∈ register_all key val l [] -> exists x, x ∈ l /\ v = val x.
Proof.
  induction l as [|x l IH] using rev_ind.
  - intros Hin. now apply elem_of_nil in Hin.
  - rewrite register_all_snoc. unfold dict_add_absent.
    destruct (dict_contains _ _).
    + intros Hin. destruct (IH Hin) as (y & Hy & ->). exists y. split; [|reflexivity].
      apply elem_of_app. now left.
    + intros Hin. apply dict_set_elem_of in Hin as [[-> ->]|Hin].
      * exists x. split; [|reflexivity]. apply elem_of_app. right.
        now apply list_elem_of_singleton.
      * destruct (IH Hin) as (y & Hy & ->). exists y. split; [|reflexivity].
        apply elem_of_app. now left.
Qed.

Lemma add_tlis_types (xs : list ET.Element) (tl : dict pyval Timepoint.t) :
  (forall k tp, (k, tp) ∈ tl -> Timepoint.type tp = "") ->
  forall k tp, (k, tp) ∈ add_tlis xs tl -> Timepoint.type tp = "".
Proof.
  revert tl. induction xs as [|x xs IH]; intros tl Htl; [exact Htl|].
  simpl. apply IH. intros k tp Hin.
  apply dict_set_elem_of in Hin as [[_ ->]|Hin]; [reflexivity | now apply (Htl k)].
Qed.

Lemma add_event_types (d : t) (e : Event.t) (tid : string) :
  Timepoint.type (Event.start e) = "" -> Timepoint.type (Event.end_ e) = "" ->
  (forall k tp, (k, tp) ∈ timeline d -> Timepoint.type tp = "") ->
  forall k tp, (k, tp) ∈ timeline (fst (add_event d e tid)) -> Timepoint.type tp = "".
Proof.
  intros Hs He Htl k tp. unfold add_event.
  destruct (dict_contains tid (tiers d)); [|apply Htl]. simpl.
  destruct (negb (dict_contains (Timepoint.time_id (Event.start e)) (timeline d))); simpl;
    destruct (negb (dict_contains (Timepoint.time_id (Event.end_ e)) _)); simpl;
    intros Hin;
    repeat (apply dict_set_elem_of in Hin as [[_ ->]|Hin]; [assumption|]);
    now apply (Htl k).
Qed.

(** Whatever the input holds, the transcript that [load] returns has no
    referenced file, no ud-meta-information, no ud-speaker-information on
    any speaker and no type on any time point; when the input has been
    parsed from a text, where no element is called [<comment>] or
    [transcription-convention>], it has no comment and no transcription
    convention either. *)
Theorem load_never_reads (root : ET.Element) (running_id : Z) (d : t) (running_id' : Z)
    (out : list printed) :
  load root running_id = Ok (d, running_id', out) ->
  get_referenced_file_url d = []
  /\ get_ud_meta_information d = ""
  /\ (forall k s, (k, s) ∈ speaker_table d -> Speaker.ud_speaker_information s = "")
  /\ (forall k tp, (k, tp) ∈ timeline d -> Timepoint.type tp = "")
  /\ (forall contents, ET.parse contents = Some root ->
        get_comment d = "" /\ get_transcription_convention d = "").
Proof.
  intros Hrun. pose proof (load_meta _ _ _ Hrun) as Hm.
  pose proof (load_registers _ _ _ Hrun) as (Hsp & _ & _).
  pose proof (load_run _ _ _ _ _ Hrun) as (d2 & Htl & Hti & Hd & _ & _).
  cbn [fst] in Hm, Hsp.
  unfold get_referenced_file_url, get_ud_meta_information, get_comment,
    get_transcription_convention.
  rewrite Hm. cbn [referenced_file_url ud_meta_information comment transcription_convention].
  split; [reflexivity|]. split; [reflexivity|]. split; [|split].
  - intros k s Hin. rewrite Hsp in Hin.
    apply register_all_elem_of in Hin as (x & _ & ->). reflexivity.
  - rewrite Hd.
    apply (add_tiers_invariant
      (fun d => forall k tp, (k, tp) ∈ timeline d -> Timepoint.type tp = "")).
    + intros d0 i s c ty dn H0. unfold add_tier. now destruct (negb _).
    + intros d0 y tid H0. now apply add_event_types.
    + unfold with_timeline. cbn [timeline]. apply add_tlis_types.
      intros k tp Hin. now apply elem_of_nil in Hin.
  - intros contents Hparse. apply parse_root_tags in Hparse.
    rewrite !iter_no_name by (reflexivity || exact Hparse). now split.
Qed.

Lemma load_never_reads_witness :
  exists d running_id' out,
    load noisy_input 0 = Ok (d, running_id', out)
    /\ get_referenced_file_url d = []
    /\ get_ud_meta_information d = ""
    /\ (forall k s, (k, s) ∈ speaker_table d -> Speaker.ud_speaker_information s = "")
    /\ (forall k tp, (k, tp) ∈ timeline d -> Timepoint.type tp = "")
    /\ (forall contents, ET.parse contents = Some noisy_input ->
          get_comment d = "" /\ get_transcription_convention d = "").
Proof.
  eexists _, _, _. split; [vm_compute; reflexivity|].
  eapply (load_never_reads noisy_input 0). vm_compute. reflexivity.
Defined.

End loader_any.

(** ** The table of a transcript *)

Section dump_facts.
Import ExmaraldaTranscript Build Loaded Loading TSVDump Table.

Lemma loop_cons {S X} (body : S -> X -> outcome S) (x : X) (xs : list X) (s : S) :
  loop body (x :: xs) s
  = match body s x with Returns s' => loop body xs s' | Raises e => Raises e end.
Proof.
  unfold loop. simpl. destruct (body s x) as [s'|e]; [reflexivity|].
  induction xs as [|y ys IH]; [reflexivity | exact IH].
Qed.

(** A loop whose rounds all return, each appending its text. *)
Lemma loop_returns {X} (body : string -> X -> outcome string) (g : X -> string)
    (xs : list X) (s : string) :
  (forall x s, x ∈ xs -> body s x = Returns (s +:+ g x)) ->
  loop body xs s = Returns (s +:+ str_concat (map g xs)).
Proof.
  revert s. induction xs as [|x xs IH]; intros s Hall.
  - simpl. now rewrite str_app_nil_r.
  - rewrite loop_cons, Hall by (apply elem_of_cons; now left).
    rewrite IH.
    + simpl. now rewrite str_app_assoc.
    + intros y s' Hy. apply Hall. apply elem_of_cons. now right.
Qed.

(** A loop whose rounds return or raise [e], one of them raising it
    whatever the state. *)
Lemma loop_raises {S X} (body : S -> X -> outcome S) (e : raised) (xs : list X) (s : S) :
  (forall x s, x ∈ xs -> (exists s', body s x = Returns s') \/ body s x = Raises e) ->
  (exists x, x ∈ xs /\ forall s, body s x = Raises e) ->
  loop body xs s = Raises e.
Proof.
  revert s. induction xs as [|x xs IH]; intros s Hall (x0 & Hin & Hx0).
  - now apply elem_of_nil in Hin.
  - rewrite loop_cons. apply elem_of_cons in Hin as [->|Hin].
    + now rewrite Hx0.
    + destruct (Hall x s) as [[s' ->]| ->]; [apply elem_of_cons; now left | | reflexivity].
      apply IH.
      * intros y s0 Hy. apply Hall. apply elem_of_cons. now right.
      * now exists x0.
Qed.

Lemma tier_columns_returns (ct : t) (tid : string) (tier : Tier.t) :
  exists cat prefix, tier_columns ct tid tier = Returns (cat, prefix).
Proof.
  unfold tier_columns.
  destruct (len (Tier.speaker tier) >? 0)%Z; simpl; [|eauto].
  destruct (dict_contains (Tier.speaker tier) (speaker_table ct)) eqn:Hc; [|eauto].
  apply dict_contains_true, dict_get_is_Some in Hc as [spk ->]. eauto.
Qed.

(** One round of the event loop on an event whose endpoints are keys of
    the timeline: the line of the event, or [TypeError] for a time stamp
    that is an int. *)
Lemma dump_event_outcome (ct : t) (cat prefix rval : string) (e : Event.t) :
  Event.get_start_id e ∈ dict_keys (timeline ct) ->
  Event.get_end_id e ∈ dict_keys (timeline ct) ->
  dump_event ct cat prefix rval e
  = if stamped ct e then Returns (rval +:+ row ct cat prefix e) else Raises RaisedTypeError.
Proof.
  intros Hs He. apply dict_get_is_Some in Hs as [tp1 H1], He as [tp2 H2].
  unfold dump_event, stamped, row, stamp_of, Event.get_start_id, Event.get_end_id in *.
  rewrite H1, H2.
  destruct (Timepoint.time_stamp tp1) as [z1|s1], (Timepoint.time_stamp tp2) as [z2|s2];
    try reflexivity.
  simpl. destruct (sentence_end cat (Event.content e)); f_equal; str_eq.
Qed.

Lemma dump_events_outcome (ct : t) (cat prefix : string) (evs : list Event.t) (rval : string) :
  (forall e, e ∈ evs -> Event.get_start_id e ∈ dict_keys (timeline ct)
                        /\ Event.get_end_id e ∈ dict_keys (timeline ct)) ->
  loop (dump_event ct cat prefix) evs rval
  = if forallb (stamped ct) evs
    then Returns (rval +:+ str_concat (map (row ct cat prefix) evs))
    else Raises RaisedTypeError.
Proof.
  revert rval. induction evs as [|e evs IH]; intros rval Hin.
  - simpl. now rewrite str_app_nil_r.
  - rewrite loop_cons. destruct (Hin e) as [Hs He]; [apply elem_of_cons; now left|].
    rewrite dump_event_outcome by assumption. simpl.
    destruct (stamped ct e); [|reflexivity]. simpl. rewrite IH.
    + destruct (forallb (stamped ct) evs); [|reflexivity]. now rewrite str_app_assoc.
    + intros e' He'. apply Hin. apply elem_of_cons. now right.
Qed.

(** Whether the events of the tier with an identifier have time stamps
    that are strings. *)
Lemma dump_tier_outcome (ct : t) (rval tid : string) :
  endpoints_in_timeline ct -> tid ∈ dict_keys (tiers ct) ->
  dump_tier ct rval tid
  = if forallb (stamped ct) (default [] (Tier.event_list <$> dict_get tid (tiers ct)))
    then Returns (rval +:+ str_concat (tier_rows ct tid))
    else Raises RaisedTypeError.
Proof.
  intros Hend Hin. unfold dump_tier, tier_rows.
  apply dict_get_is_Some in Hin as [tier Hg]. rewrite Hg. simpl.
  destruct (tier_columns_returns ct tid tier) as (cat & prefix & ->).
  apply dump_events_outcome. intros e He. apply (Hend tier e); [|exact He].
  apply dict_get_elem_of in Hg. apply list_elem_of_fmap. now exists (tid, tier).
Qed.

Lemma str_concat_flat_map {X} (f : X -> list string) (l : list X) :
  str_concat (flat_map f l) = str_concat (map (fun x => str_concat (f x)) l).
Proof.
  induction l as [|x l IH]; [reflexivity|]. simpl. now rewrite str_concat_app, IH.
Qed.

(** The table of a transcript whose events end at keys of the timeline:
    no lookup fails; the table is returned when every time stamp that an
    event refers to is a string, and [TypeError] is raised otherwise. *)
Lemma dump_transcript_outcome (ct : t) :
  endpoints_in_timeline ct ->
  dump_transcript ct
  = if forallb (stamped ct) (flat_map Tier.event_list (Tree.tier_list ct))
    then Returns (header +:+ str_concat (rows ct))
    else Raises RaisedTypeError.
Proof.
  intros Hend. unfold dump_transcript, rows, Tree.tier_list, dict_at.
  assert (Hsub : forall k, k ∈ dict_keys (tiers ct) -> k ∈ dict_keys (tiers ct)) by trivial.
  revert Hsub. generalize header. generalize (dict_keys (tiers ct)) at 1 3 4 5.
  intros ks. induction ks as [|k ks IH]; intros rval Hsub.
  - simpl. now rewrite str_app_nil_r.
  - rewrite loop_cons, dump_tier_outcome; [|exact Hend|apply Hsub, elem_of_cons; now left].
    assert (Hk : k ∈ dict_keys (tiers ct)) by (apply Hsub, elem_of_cons; now left).
    apply dict_get_is_Some in Hk as [tier Hg].
    cbn [omap list_omap flat_map]. rewrite Hg. cbn [fmap option_fmap option_map default].
    fold (omap (fun k => dict_get k (tiers ct)) ks).
    change (id (Tier.event_list tier)) with (Tier.event_list tier).
    change (flat_map Tier.event_list (tier :: omap (fun k0 => dict_get k0 (tiers ct)) ks))
      with (Tier.event_list tier
              ++ flat_map Tier.event_list (omap (fun k0 => dict_get k0 (tiers ct)) ks)).
    rewrite forallb_app. destruct (forallb (stamped ct) (Tier.event_list tier)); [|reflexivity].
    cbn [andb]. rewrite IH.
    + destruct (forallb _ _); [|reflexivity]. now rewrite str_concat_app, str_app_assoc.
    + intros k' Hk'. apply Hsub. apply elem_of_cons. now right.
Qed.

(** *** The events and the time stamps of a loaded transcript *)

Lemma all_events_add_tier (d : t) (i s c ty dn : string) :
  all_events (add_tier d i s c ty dn) = all_events d.
Proof.
  unfold add_tier, all_events. destruct (dict_contains i (tiers d)) eqn:Hc; [reflexivity|].
  apply dict_contains_false in Hc. simpl. rewrite dict_set_absent by exact Hc.
  unfold dict_values. rewrite fmap_app, flat_map_app. simpl. now rewrite app_nil_r.
Qed.

Lemma dict_alter_events (e : Event.t) (k : string) (ts : dict string Tier.t) :
  k ∈ dict_keys ts ->
  flat_map Tier.event_list (dict_values (dict_alter (fun tier => Tier.add_event tier e) k ts))
  ≡ₚ flat_map Tier.event_list (dict_values ts) ++ [e].
Proof.
  induction ts as [|[k' v] ts IH]; intros Hin.
  - now apply elem_of_nil in Hin.
  - simpl. destruct (decide (k = k')) as [->|Hne]; simpl.
    + rewrite <- !app_assoc. apply Permutation_app_head. apply Permutation_app_comm.
    + rewrite <- app_assoc. apply Permutation_app_head. apply IH.
      simpl in Hin. apply elem_of_cons in Hin as [?|?]; [congruence | assumption].
Qed.

Lemma all_events_add_event (d : t) (e : Event.t) (tid : string) :
  tid ∈ dict_keys (tiers d) ->
  all_events (fst (add_event d e tid)) ≡ₚ all_events d ++ [e].
Proof.
  intros Hin. rewrite add_event_known by exact Hin. unfold all_events. simpl.
  now apply dict_alter_events.
Qed.

Lemma add_events_cons (tid : string) (y : ET.Element) (ys : list ET.Element) (d : t) :
  add_events tid (y :: ys) d
  = add_events tid ys (if is_event y then fst (add_event d (event_of_xml y) tid) else d).
Proof. reflexivity. Qed.

Lemma add_tiers_cons (x : ET.Element) (xs : list ET.Element) (d : t) :
  add_tiers (x :: xs) d
  = add_tiers xs
      (add_events (ET.attr_or_empty "id" x) (ET.children x)
         (add_tier d (ET.attr_or_empty "id" x) (ET.attr_or_empty "speaker" x)
            (ET.attr_or_empty "category" x) (ET.attr_or_empty "type" x)
            (ET.attr_or_empty "display-name" x))).
Proof. reflexivity. Qed.

Lemma all_events_add_events (tid : string) (ys : list ET.Element) (d : t) :
  tid ∈ dict_keys (tiers d) ->
  all_events (add_events tid ys d)
  ≡ₚ all_events d ++ map event_of_xml (List.filter is_event ys).
Proof.
  revert d. induction ys as [|y ys IH]; intros d Hin.
  - simpl. now rewrite app_nil_r.
  - rewrite add_events_cons. simpl. destruct (is_event y).
    + rewrite IH by (now rewrite add_event_keys).
      rewrite all_events_add_event by exact Hin. simpl. now rewrite <- app_assoc.
    + now apply IH.
Qed.

Lemma add_tier_contains (d : t) (i s c ty dn : string) :
  i ∈ dict_keys (tiers (add_tier d i s c ty dn)).
Proof.
  unfold add_tier. destruct (dict_contains i (tiers d)) eqn:Hc; cbn [negb].
  - now apply dict_contains_true.
  - simpl. apply dict_contains_false in Hc. rewrite dict_set_absent by exact Hc.
    rewrite dict_keys_app. apply elem_of_app. right. simpl. apply elem_of_cons. now left.
Qed.

Lemma all_events_add_tiers (xs : list ET.Element) (d : t) :
  all_events (add_tiers xs d)
  ≡ₚ all_events d ++ map event_of_xml (List.filter is_event (flat_map ET.children xs)).
Proof.
  revert d. induction xs as [|x xs IH]; intros d.
  - simpl. now rewrite app_nil_r.
  - rewrite add_tiers_cons, IH. simpl.
    rewrite all_events_add_events by apply add_tier_contains.
    rewrite all_events_add_tier, List.filter_app, map_app. now rewrite <- app_assoc.
Qed.

(** The entries of the timeline after [add_event]: those before, then
    endpoints of the event under identifiers that were no keys. *)
Lemma add_event_timeline (d : t) (e : Event.t) (tid : string) :
  (forall k, k ∈ dict_keys (timeline d) -> k ∈ dict_keys (timeline (fst (add_event d e tid))))
  /\ forall k tp, (k, tp) ∈ timeline (fst (add_event d e tid)) ->
       (k, tp) ∈ timeline d
       \/ ((k ∉ dict_keys (timeline d)) /\ (tp = Event.start e \/ tp = Event.end_ e)).
Proof.
  destruct (decide (tid ∈ dict_keys (tiers d))) as [Hin|Hni].
  2:{ apply dict_contains_false in Hni. unfold add_event. rewrite Hni. simpl.
      split; [trivial | intros; now left]. }
  rewrite add_event_known by exact Hin. simpl. split.
  - intros k Hk. rewrite dict_keys_app. apply elem_of_app. now left.
  - intros k tp Hel. apply elem_of_app in Hel as [Hel|Hel]; [now left|]. right.
    destruct (new_endpoints_keys (timeline d) e) as (_ & _ & Hnew).
    split.
    + apply Hnew. apply list_elem_of_fmap. now exists (k, tp).
    + unfold new_endpoints in Hel.
      destruct (dict_contains (Event.get_start_id e) (timeline d));
        destruct (dict_contains (Event.get_end_id e) _); simpl in Hel;
        repeat (apply elem_of_cons in Hel as [[= _ ->]|Hel]; [tauto|]);
        now apply elem_of_nil in Hel.
Qed.

Lemma add_tlis_entries (xs : list ET.Element) (tl : dict pyval Timepoint.t) :
  forall k tp, (k, tp) ∈ add_tlis xs tl ->
    (k, tp) ∈ tl \/ (k ∈ map tli_key xs /\ is_str (Timepoint.time_stamp tp) = true).
Proof.
  revert tl. induction xs as [|x xs IH]; intros tl k tp Hin; [now left|].
  simpl in Hin. apply IH in Hin as [Hin|[Hk Hs]].
  - apply dict_set_elem_of in Hin as [[-> ->]|Hin]; [|now left].
    right. split; [|reflexivity]. simpl. apply elem_of_cons. now left.
  - right. split; [|exact Hs]. simpl. apply elem_of_cons. now right.
Qed.

(** After [load] the timeline holds a string as time stamp under the
    identifiers of the [tli] elements and -1 under the others. *)
Lemma load_time_stamps (root : ET.Element) (running_id : Z) (d : t) (running_id' : Z)
    (out : list printed) :
  load root running_id = Ok (d, running_id', out) ->
  (forall k, k ∈ map tli_key (ET.iter "tli" root) -> k ∈ dict_keys (timeline d))
  /\ forall k tp, (k, tp) ∈ timeline d ->
       is_str (Timepoint.time_stamp tp) = bool_decide (k ∈ map tli_key (ET.iter "tli" root)).
Proof.
  intros Hrun. apply load_run in Hrun as (d2 & Htl & Hti & -> & _ & _).
  set (K := map tli_key (ET.iter "tli" root)).
  apply (add_tiers_invariant
    (fun d => (forall k, k ∈ K -> k ∈ dict_keys (timeline d))
              /\ forall k tp, (k, tp) ∈ timeline d ->
                   is_str (Timepoint.time_stamp tp) = bool_decide (k ∈ K))).
  - intros d i s c ty dn H. unfold add_tier. now destruct (negb _).
  - intros d y tid [Hk Hs]. destruct (add_event_timeline d (event_of_xml y) tid) as [Hmono Hel].
    split; [intros k Hin; now apply Hmono, Hk|].
    intros k tp Hin. apply Hel in Hin as [Hin|[Hni Htp]]; [now apply Hs|].
    rewrite bool_decide_eq_false_2 by (intros HK; now apply Hni, Hk).
    now destruct Htp as [-> | ->].
  - unfold with_timeline. cbn [timeline].
    destruct (add_tlis_keys (ET.iter "tli" root) []) as [_ Hkeys]; [constructor|].
    split.
    + intros k Hk. apply Hkeys. now right.
    + intros k tp Hin. apply add_tlis_entries in Hin as [Hin|[Hk ->]].
      * now apply elem_of_nil in Hin.
      * symmetry. now apply bool_decide_eq_true_2.
Qed.

Lemma load_all_events (root : ET.Element) (running_id : Z) (d : t) (running_id' : Z)
    (out : list printed) :
  load root running_id = Ok (d, running_id', out) ->
  all_events d ≡ₚ map event_of_xml (event_children root).
Proof.
  intros Hrun. apply load_run in Hrun as (d2 & Htl & Hti & -> & _ & _).
  rewrite all_events_add_tiers. unfold all_events at 1, with_timeline. cbn [tiers].
  now rewrite Hti.
Qed.

Lemma forallb_ext_in {A} (p q : A -> bool) (l : list A) :
  (forall x, x ∈ l -> p x = q x) -> forallb p l = forallb q l.
Proof.
  induction l as [|x l IH]; intros H; [reflexivity|]. simpl.
  rewrite (H x) by (apply elem_of_cons; now left).
  rewrite IH; [reflexivity|]. intros y Hy. apply H. apply elem_of_cons. now right.
Qed.

Lemma forallb_Permutation {A} (p : A -> bool) (l l' : list A) :
  l ≡ₚ l' -> forallb p l = forallb p l'.
Proof.
  intros Hp. induction Hp; simpl; try congruence.
  destruct (p x), (p y); reflexivity.
Qed.

Lemma forallb_map {A B} (p : B -> bool) (f : A -> B) (l : list A) :
  forallb p (map f l) = forallb (fun x => p (f x)) l.
Proof. induction l as [|x l IH]; [reflexivity|]. simpl. now rewrite IH. Qed.

Lemma tier_rows_length (ct : t) (tid : string) :
  length (tier_rows ct tid)
  = length (default [] (Tier.event_list <$> dict_get tid (tiers ct))).
Proof.
  unfold tier_rows. destruct (dict_get tid (tiers ct)) as [tier|]; [|reflexivity]. simpl.
  destruct (tier_columns_returns ct tid tier) as (cat & prefix & ->).
  apply length_map.
Qed.

Lemma rows_length (ct : t) :
  length (rows ct) = length (flat_map Tier.event_list (Tree.tier_list ct)).
Proof.
  unfold rows, Tree.tier_list, dict_at.
  induction (dict_keys (tiers ct)) as [|k ks IH]; [reflexivity|].
  cbn [flat_map omap list_omap]. fold (omap (fun k => dict_get k (tiers ct)) ks).
  rewrite length_app, tier_rows_length, IH.
  destruct (dict_get k (tiers ct)) as [tier|]; [|reflexivity].
  simpl. now rewrite length_app.
Qed.

(** [generate_cold_data_dump] on an input that [load] accepts: when every
    event element of the tiers starts and ends at an identifier that a
    [tli] element declares, it returns the header and one line for every
    event element; when an event refers to an identifier that is not
    declared, whose time point [add_event] has added with the time stamp
    -1, it raises [TypeError].  No lookup raises [KeyError]. *)
Theorem generate_cold_data_dump_outcome (root : ET.Element) (running_id : Z) (d : t)
    (running_id' : Z) (out : list printed) :
  load root running_id = Ok (d, running_id', out) ->
  generate_cold_data_dump root running_id
  = (if forallb (declared root) (event_children root)
     then Returns (header +:+ str_concat (rows d))
     else Raises RaisedTypeError)
  /\ length (rows d) = length (event_children root).
Proof.
  intros Hrun. unfold generate_cold_data_dump. rewrite Hrun.
  destruct (load_keyed _ _ _ _ _ Hrun) as (Hend & [Hnd _] & [Htl_nd _]).
  destruct (load_time_stamps _ _ _ _ _ Hrun) as [HK Hstamp].
  pose proof (load_all_events _ _ _ _ _ Hrun) as Hev.
  assert (Hlist : flat_map Tier.event_list (Tree.tier_list d) = all_events d).
  { unfold Tree.tier_list, all_events. now rewrite dict_at_keys. }
  split.
  - rewrite dump_transcript_outcome by exact Hend.
    rewrite Hlist, (forallb_Permutation _ _ _ Hev), forallb_map.
    rewrite (forallb_ext_in _ (declared root)); [reflexivity|].
    intros y Hy.
    assert (Hin : event_of_xml y ∈ all_events d).
    { rewrite Hev. apply list_elem_of_fmap. now exists y. }
    unfold all_events in Hin. apply list_elem_of_In, in_flat_map in Hin as (tier & Ht & He).
    apply list_elem_of_In in Ht, He. destruct (Hend tier _ Ht He) as [Hs Hf].
    apply dict_get_is_Some in Hs as [tp1 H1], Hf as [tp2 H2].
    unfold stamped, declared. rewrite H1, H2.
    apply dict_get_elem_of in H1, H2.
    now rewrite (Hstamp _ _ H1), (Hstamp _ _ H2).
  - rewrite rows_length, Hlist, (Permutation_length Hev). apply length_map.
Qed.

Lemma generate_cold_data_dump_outcome_witness :
  exists d running_id' out,
    load noisy_input 0 = Ok (d, running_id', out)
    /\ generate_cold_data_dump noisy_input 0 = Raises RaisedTypeError
    /\ length (rows d) = 2%nat.
Proof.
  eexists _, _, _. split; [vm_compute; reflexivity|].
  eapply (generate_cold_data_dump_outcome noisy_input 0). vm_compute. reflexivity.
Defined.

End dump_facts.

(** ** Equality and order of speakers and time points *)

Section value_facts.
Import SpeakerMethods TimepointOrder.

Lemma Speaker_eq_fields (a b : Speaker.t) :
  Speaker.__eq__ a b
  = String.eqb (Speaker.speaker_id a) (Speaker.speaker_id b)
    && String.eqb (Speaker.abbreviation a) (Speaker.abbreviation b)
    && String.eqb (Speaker.sex a) (Speaker.sex b)
    && py_set_eq (Speaker.languages_used a) (Speaker.languages_used b)
    && py_set_eq (Speaker.l1 a) (Speaker.l1 b)
    && py_set_eq (Speaker.l2 a) (Speaker.l2 b)
    && String.eqb (Speaker.ud_speaker_information a) (Speaker.ud_speaker_information b)
    && String.eqb (Speaker.comment a) (Speaker.comment b).
Proof.
  unfold Speaker.__eq__.
  destruct (String.eqb (Speaker.speaker_id a) (Speaker.speaker_id b)),
    (String.eqb (Speaker.abbreviation a) (Speaker.abbreviation b)),
    (String.eqb (Speaker.sex a) (Speaker.sex b)),
    (py_set_eq (Speaker.languages_used a) (Speaker.languages_used b)),
    (py_set_eq (Speaker.l1 a) (Speaker.l1 b)),
    (py_set_eq (Speaker.l2 a) (Speaker.l2 b)),
    (String.eqb (Speaker.ud_speaker_information a) (Speaker.ud_speaker_information b)),
    (String.eqb (Speaker.comment a) (Speaker.comment b)); reflexivity.
Qed.

Lemma py_set_eq_refl (a : list string) : py_set_eq a a = true.
Proof. now apply set_eq_true. Qed.

Lemma py_set_eq_sym (a b : list string) : py_set_eq a b = py_set_eq b a.
Proof.
  destruct (py_set_eq a b) eqn:H1, (py_set_eq b a) eqn:H2; try reflexivity.
  - rewrite set_eq_true in H1. assert (py_set_eq b a = true); [|congruence].
    apply set_eq_true. intros x. symmetry. apply H1.
  - rewrite set_eq_true in H2. assert (py_set_eq a b = true); [|congruence].
    apply set_eq_true. intros x. symmetry. apply H2.
Qed.

Lemma py_set_eq_trans (a b c : list string) :
  py_set_eq a b = true -> py_set_eq b c = true -> py_set_eq a c = true.
Proof.
  rewrite !set_eq_true. intros H1 H2 x. now rewrite H1.
Qed.

(** [==] on speakers is an equivalence relation, and [!=] is its
    negation. *)
Theorem Speaker_eq_equivalence :
  (forall a, Speaker.__eq__ a a = true)
  /\ (forall a b, Speaker.__eq__ a b = Speaker.__eq__ b a)
  /\ (forall a b c, Speaker.__eq__ a b = true -> Speaker.__eq__ b c = true ->
        Speaker.__eq__ a c = true)
  /\ (forall a b, Speaker.__ne__ a b = negb (Speaker.__eq__ a b)).
Proof.
  split; [|split; [|split]].
  - intros a. rewrite Speaker_eq_fields, !String.eqb_refl, !py_set_eq_refl. reflexivity.
  - intros a b. rewrite !Speaker_eq_fields.
    rewrite (String.eqb_sym (Speaker.speaker_id a)), (String.eqb_sym (Speaker.abbreviation a)),
      (String.eqb_sym (Speaker.sex a)), (String.eqb_sym (Speaker.ud_speaker_information a)),
      (String.eqb_sym (Speaker.comment a)),
      (py_set_eq_sym (Speaker.languages_used a)), (py_set_eq_sym (Speaker.l1 a)),
      (py_set_eq_sym (Speaker.l2 a)). reflexivity.
  - intros a b c. rewrite !Speaker_eq_fields, !andb_true_iff, !String.eqb_eq.
    intros (((((((H1 & H2) & H3) & H4) & H5) & H6) & H7) & H8)
           (((((((G1 & G2) & G3) & G4) & G5) & G6) & G7) & G8).
    repeat split; try congruence; eapply py_set_eq_trans; eassumption.
  - reflexivity.
Qed.



(** *** Time points *)

Lemma py_lt_le_defined (a b : pyval) :
  (is_Some (py_lt a b) <-> same_kind a b = true)
  /\ (is_Some (py_le a b) <-> same_kind a b = true).
Proof.
  destruct a, b; simpl; repeat split; try (intros _; eauto; fail);
    try discriminate; intros [? [=]].
Qed.

Lemma py_gt_ge_reflected (a b : pyval) : py_gt a b = py_lt b a /\ py_ge a b = py_le b a.
Proof.
  destruct a, b; simpl; split; try reflexivity; f_equal;
    [apply Z.gtb_ltb | apply Z.geb_leb].
Qed.

Lemma py_le_not_lt (a b : pyval) : py_le a b = negb <$> py_lt b a.
Proof.
  destruct a as [x|x], b as [y|y]; simpl; try reflexivity; f_equal.
  - apply Z.leb_antisym.
  - unfold str_le, str_lt, String.leb, String.ltb.
    rewrite (String.compare_antisym y x). now destruct (String.compare x y).
Qed.

Lemma py_le_refl (a : pyval) : py_le a a = Some true.
Proof. destruct a; simpl; f_equal; [apply Z.leb_refl | apply str_le_refl]. Qed.

(** The comparisons of time points look at the time stamps only: they
    raise [TypeError] exactly when one time stamp is an int and the other a
    string; where they return, [>] and [>=] are [<] and [<=] with the
    operands exchanged, [<=] is the negation of the reversed [<], and two
    time points that are equal are [<=] in both directions. *)
Theorem Timepoint_order (a b : Timepoint.t) :
  (is_Some (__lt__ a b)
     <-> same_kind (Timepoint.time_stamp a) (Timepoint.time_stamp b) = true)
  /\ (is_Some (__le__ a b)
        <-> same_kind (Timepoint.time_stamp a) (Timepoint.time_stamp b) = true)
  /\ __gt__ a b = __lt__ b a
  /\ __ge__ a b = __le__ b a
  /\ __le__ a b = negb <$> __lt__ b a
  /\ (Timepoint.__eq__ a b = true -> __le__ a b = Some true /\ __le__ b a = Some true).
Proof.
  unfold __lt__, __le__, __gt__, __ge__, Timepoint.__eq__, py_eq.
  split; [apply py_lt_le_defined|]. split; [apply py_lt_le_defined|].
  split; [apply py_gt_ge_reflected|]. split; [apply py_gt_ge_reflected|].
  split; [apply py_le_not_lt|].
  intros H. apply andb_true_iff in H as [_ H]. apply bool_decide_eq_true in H.
  rewrite H. split; apply py_le_refl.
Qed.

End value_facts.

(** ** The registries of speakers and tiers *)

Section registry_facts.
Import ExmaraldaTranscript.

(** Lookup after registration.  [overwrite_speaker] stores the new speaker
    under the identifier, at the place of the old one when there was one;
    [add_speaker] keeps the speaker that is registered already; neither
    touches the speakers under other identifiers. *)
Theorem speaker_registry_lookup (d : t) (i j a s : string) (lu l1 l2 : str_or_list)
    (ud c : string) :
  get_speaker (overwrite_speaker d i a s lu l1 l2 ud c) i
    = Some (Speaker.__init__ i a s lu l1 l2 ud c)
  /\ get_speaker (add_speaker d i a s lu l1 l2 ud c) i
     = Some (default (Speaker.__init__ i a s lu l1 l2 ud c) (get_speaker d i))
  /\ contains_speaker (overwrite_speaker d i a s lu l1 l2 ud c) i = true
  /\ contains_speaker (add_speaker d i a s lu l1 l2 ud c) i = true
  /\ (contains_speaker d i = true ->
        dict_keys (speaker_table (overwrite_speaker d i a s lu l1 l2 ud c))
        = dict_keys (speaker_table d))
  /\ (i <> j ->
        get_speaker (overwrite_speaker d i a s lu l1 l2 ud c) j = get_speaker d j
        /\ get_speaker (add_speaker d i a s lu l1 l2 ud c) j = get_speaker d j).
Proof.
  unfold get_speaker, contains_speaker, overwrite_speaker, add_speaker, contains_speaker.
  cbn [speaker_table with_speaker_table].
  assert (Hset : dict_contains i
                   (dict_set i (Speaker.__init__ i a s lu l1 l2 ud c) (speaker_table d)) = true).
  { apply dict_contains_true, dict_get_is_Some. rewrite dict_get_set_eq. eauto. }
  split; [apply dict_get_set_eq|]. split; [|split; [exact Hset|split; [|split]]].
  - destruct (dict_contains i (speaker_table d)) eqn:Hc; cbn [negb speaker_table].
    + apply dict_contains_true, dict_get_is_Some in Hc as [x Hx]. now rewrite Hx.
    + apply dict_contains_false, dict_get_None in Hc. rewrite Hc. apply dict_get_set_eq.
  - destruct (dict_contains i (speaker_table d)) eqn:Hc; cbn [negb speaker_table];
      [exact Hc | exact Hset].
  - intros Hc. apply dict_contains_true in Hc. now apply dict_keys_set_present.
  - intros Hne. split; [now apply dict_get_set_ne|].
    destruct (negb (dict_contains i (speaker_table d))); cbn [speaker_table];
      [now apply dict_get_set_ne | reflexivity].
Qed.

(** [add_tier] registers a tier without events under an identifier that is
    free and does nothing at all under one that is taken: the tier that is
    there keeps its attributes and its events. *)
Theorem tier_registry_lookup (d : t) (i j s c ty dn : string) :
  get_tier (add_tier d i s c ty dn) i
    = Some (default (Tier.__init__ i s c ty dn) (get_tier d i))
  /\ contains_tier (add_tier d i s c ty dn) i = true
  /\ (contains_tier d i = true -> add_tier d i s c ty dn = d)
  /\ (contains_tier d i = false ->
        tiers (add_tier d i s c ty dn) = tiers d ++ [(i, Tier.__init__ i s c ty dn)])
  /\ (i <> j -> get_tier (add_tier d i s c ty dn) j = get_tier d j).
Proof.
  unfold get_tier, contains_tier, add_tier.
  destruct (dict_contains i (tiers d)) eqn:Hc; cbn [negb tiers with_tiers].
  - pose proof Hc as Hc'. apply dict_contains_true, dict_get_is_Some in Hc' as [x Hx].
    rewrite Hx. repeat split; try reflexivity; try assumption. discriminate.
  - pose proof Hc as Hc'. apply dict_contains_false in Hc'.
    pose proof (proj2 (dict_get_None i (tiers d)) Hc') as Hg. rewrite Hg.
    split; [apply dict_get_set_eq|]. split; [|split; [discriminate|split]].
    + apply dict_contains_true, dict_get_is_Some. rewrite dict_get_set_eq. eauto.
    + intros _. now apply dict_set_absent.
    + intros Hne. now apply dict_get_set_ne.
Qed.

End registry_facts.

(** ** A reloaded transcript is a fixed point of the round trip *)

Section reload_stable.
Import ExmaraldaTranscript Build Markup Tree Clean Reload Loaded Demo.

(** *** [strip] *)

Lemma lstrip_forallb (p : ascii -> bool) (s : string) :
  str_forallb p s = true -> str_forallb p (lstrip s) = true.
Proof.
  induction s as [|c s IH]; [reflexivity|]. intros H. simpl.
  destruct (isspace c); [|exact H].
  simpl in H. apply andb_true_iff in H as [_ H]. now apply IH.
Qed.

Lemma rstrip_forallb (p : ascii -> bool) (s : string) :
  str_forallb p s = true -> str_forallb p (rstrip s) = true.
Proof.
  induction s as [|c s IH]; [reflexivity|]. intros H. simpl in *.
  apply andb_true_iff in H as [Hc H]. specialize (IH H).
  destruct (rstrip s) as [|c' r'].
  - destruct (isspace c); [reflexivity|]. simpl. now rewrite Hc.
  - simpl in *. now rewrite Hc, IH.
Qed.

Lemma strip_forallb (p : ascii -> bool) (s : string) :
  str_forallb p s = true -> str_forallb p (strip s) = true.
Proof. intros H. unfold strip. now apply rstrip_forallb, lstrip_forallb. Qed.

Lemma rstrip_idem (s : string) : rstrip (rstrip s) = rstrip s.
Proof.
  induction s as [|c s IH]; [reflexivity|]. simpl.
  destruct (rstrip s) as [|c' r'] eqn:Hr.
  - destruct (isspace c) eqn:Hc; [reflexivity|]. simpl. now rewrite Hc.
  - change (rstrip (String c (String c' r')))
      with (match rstrip (String c' r') with
            | "" => if isspace c then "" else String c ""
            | r'' => String c r''
            end).
    now rewrite IH.
Qed.

Lemma lstrip_head (s : string) :
  lstrip s = "" \/ exists c r, lstrip s = String c r /\ isspace c = false.
Proof.
  induction s as [|c s IH]; [now left|]. simpl.
  destruct (isspace c) eqn:Hc; [exact IH|]. right. now exists c, s.
Qed.

Lemma rstrip_head (c : ascii) (r : string) :
  isspace c = false -> exists r', rstrip (String c r) = String c r'.
Proof.
  intros Hc. simpl. destruct (rstrip r); rewrite ?Hc; eauto.
Qed.

Lemma strip_idem (s : string) : strip (strip s) = strip s.
Proof.
  unfold strip. destruct (lstrip_head s) as [->|(c & r & -> & Hc)]; [reflexivity|].
  destruct (rstrip_head c r Hc) as [r' Hr]. rewrite Hr.
  simpl lstrip. rewrite Hc, <- Hr. apply rstrip_idem.
Qed.

(** *** The parts of a reloaded transcript *)

Lemma sorted_idem (ks : list string) : sorted (sorted ks) = sorted ks.
Proof.
  unfold sorted. apply (StronglySorted_unique String.le).
  - apply StronglySorted_merge_sort; apply _.
  - apply StronglySorted_merge_sort; apply _.
  - now rewrite !merge_sort_Permutation.
Qed.

Lemma dict_of_list {K V X} `{EqDecision K} (key : X -> K) (val : X -> V) (l : list X) :
  dict_keys (map (fun x => (key x, val x)) l) = map key l
  /\ dict_values (map (fun x => (key x, val x)) l) = map val l.
Proof.
  unfold dict_keys, dict_values. split; induction l as [|x l IH]; [reflexivity| |reflexivity|];
    cbn [map fmap list_fmap fst snd]; f_equal; exact IH.
Qed.

Lemma dict_at_of_list {K V X} `{EqDecision K} (key : X -> K) (val : X -> V) (l : list X) :
  NoDup (map key l) ->
  dict_at (map (fun x => (key x, val x)) l) (map key l) = map val l.
Proof.
  intros Hnd. destruct (dict_of_list key val l) as [Hk Hv].
  rewrite <- Hk. rewrite dict_at_keys by (now rewrite Hk). exact Hv.
Qed.

Lemma rejoin_idem (l : list string) : rejoin (rejoin l) = rejoin l.
Proof.
  unfold rejoin. destruct (join ", " l) as [|c r]; [reflexivity|]. reflexivity.
Qed.

Lemma reload_speaker_idem (s : Speaker.t) : reload_speaker (reload_speaker s) = reload_speaker s.
Proof. unfold reload_speaker. simpl. now rewrite !rejoin_idem. Qed.

Lemma reload_event_idem (e : Event.t) : reload_event (reload_event e) = reload_event e.
Proof. reflexivity. Qed.

Lemma reload_tier_idem (tier : Tier.t) : reload_tier (reload_tier tier) = reload_tier tier.
Proof.
  unfold reload_tier. simpl. f_equal. rewrite map_map. apply map_ext. intros e. reflexivity.
Qed.

(** The speakers, time points and tiers of a reloaded transcript, in the
    order of the printed text. *)
Lemma reloaded_parts (d : t) :
  speakers_keyed d -> loadable d ->
  sorted_speakers (reloaded d) = map reload_speaker (sorted_speakers d)
  /\ timepoints (reloaded d) = map reload_timepoint (timepoints d)
  /\ tier_list (reloaded d) = map reload_tier (tier_list d).
Proof.
  intros [Hsp_nd Hsp_id] (_ & Hsp & Htl & Hti & _). split; [|split].
  - unfold sorted_speakers at 1. unfold reloaded. cbn [speaker_table].
    destruct (dict_of_list Speaker.speaker_id reload_speaker (sorted_speakers d)) as [Hk _].
    rewrite Hk.
    assert (Hids : map Speaker.speaker_id (sorted_speakers d)
                   = sorted (dict_keys (speaker_table d))).
    { unfold sorted_speakers. apply dict_at_ids; [exact Hsp_id|].
      intros k Hk'. unfold sorted in Hk'. now rewrite merge_sort_Permutation in Hk'. }
    rewrite Hids, sorted_idem, <- Hids. now apply dict_at_of_list.
  - unfold timepoints at 1. unfold reloaded. cbn [timeline].
    destruct (dict_of_list (fun tp => PyStr (py_format (Timepoint.time_id tp)))
                reload_timepoint (timepoints d)) as [Hk _].
    rewrite Hk. apply dict_at_of_list.
    rewrite <- (map_map (fun tp => py_format (Timepoint.time_id tp)) PyStr).
    apply NoDup_fmap_2; [|exact Htl]. intros x y H. now injection H.
  - unfold tier_list at 1. unfold reloaded. cbn [tiers].
    destruct (dict_of_list Tier.id reload_tier (tier_list d)) as [Hk _].
    rewrite Hk. now apply dict_at_of_list.
Qed.

Lemma reloaded_idem (d : t) :
  speakers_keyed d -> loadable d -> reloaded (reloaded d) = reloaded d.
Proof.
  intros Hkeyed Hload. destruct (reloaded_parts d Hkeyed Hload) as (Hs & Ht & Hti).
  unfold reloaded at 1. rewrite Hs, Ht, Hti, !map_map.
  unfold reloaded, get_project_name, get_transcription_name.
  cbn [meta_information project_name transcription_name]. rewrite !strip_idem.
  f_equal.
  - apply map_ext. intros s. now rewrite reload_speaker_idem.
  - apply map_ext. intros tier. now rewrite reload_tier_idem.
Qed.

Lemma forallb_map_impl {A} (p : A -> bool) (f : A -> A) (l : list A) :
  (forall x, p x = true -> p (f x) = true) ->
  forallb p l = true -> forallb p (map f l) = true.
Proof.
  intros Hf. induction l as [|x l IH]; [reflexivity|]. simpl.
  rewrite !andb_true_iff. intros [Hx Hl]. split; [now apply Hf | now apply IH].
Qed.

Lemma rejoin_clean (l : list string) :
  text_clean (join ", " l) = true -> text_clean (join ", " (rejoin l)) = true.
Proof.
  unfold rejoin. destruct (join ", " l) as [|c r]; [reflexivity|]. trivial.
Qed.

Lemma reload_speaker_clean (s : Speaker.t) :
  speaker_clean s = true -> speaker_clean (reload_speaker s) = true.
Proof.
  unfold speaker_clean, reload_speaker. cbn [Speaker.speaker_id Speaker.abbreviation
    Speaker.sex Speaker.languages_used Speaker.l1 Speaker.l2 Speaker.ud_speaker_information
    Speaker.comment].
  rewrite !andb_true_iff. intros (((((((H1 & H2) & H3) & H4) & H5) & H6) & H7) & H8).
  repeat split; try assumption; try (now apply rejoin_clean).
Qed.

Lemma reload_timepoint_clean (tp : Timepoint.t) :
  timepoint_clean tp = true -> timepoint_clean (reload_timepoint tp) = true.
Proof.
  unfold timepoint_clean, reload_timepoint.
  cbn [Timepoint.time_id Timepoint.time_stamp Timepoint.type py_format].
  rewrite !andb_true_iff. intros (((H1 & H2) & H3) & H4). repeat split; assumption || reflexivity.
Qed.

Lemma reload_tier_clean (tier : Tier.t) :
  tier_clean tier = true -> tier_clean (reload_tier tier) = true.
Proof.
  unfold tier_clean, reload_tier.
  cbn [Tier.id Tier.speaker Tier.category Tier.type Tier.display_name Tier.event_list].
  rewrite !andb_true_iff. intros (((((H1 & H2) & H3) & H4) & H5) & H6).
  repeat split; try assumption. rewrite forallb_map. exact H6.
Qed.

Lemma reloaded_clean (d : t) :
  speakers_keyed d -> loadable d -> clean d -> clean (reloaded d).
Proof.
  intros Hkeyed Hload (Hm & Hs & Ht & Hti).
  destruct (reloaded_parts d Hkeyed Hload) as (Es & Et & Eti).
  unfold clean. rewrite Es, Et, Eti. repeat split.
  - unfold meta_clean in *. unfold reloaded. cbn [meta_information project_name
      transcription_name referenced_file_url ud_meta_information comment
      transcription_convention forallb].
    rewrite !andb_true_iff in Hm. destruct Hm as (((((H1 & H2) & _) & _) & _) & _).
    unfold text_clean in *. unfold get_project_name, get_transcription_name.
    rewrite !strip_forallb by assumption. reflexivity.
  - now apply forallb_map_impl; [apply reload_speaker_clean|].
  - now apply forallb_map_impl; [apply reload_timepoint_clean|].
  - now apply forallb_map_impl; [apply reload_tier_clean|].
Qed.

Lemma flat_map_map {A B C} (f : B -> list C) (g : A -> B) (l : list A) :
  flat_map f (map g l) = flat_map (fun x => f (g x)) l.
Proof. induction l as [|x l IH]; [reflexivity|]. simpl. now rewrite IH. Qed.

Lemma reloaded_events (d : t) :
  speakers_keyed d -> loadable d ->
  flat_map Tier.event_list (tier_list (reloaded d))
  = map reload_event (flat_map Tier.event_list (tier_list d)).
Proof.
  intros Hkeyed Hload. destruct (reloaded_parts d Hkeyed Hload) as (_ & _ & ->).
  induction (tier_list d) as [|tier l IH]; [reflexivity|].
  simpl. now rewrite map_app, IH.
Qed.

Lemma reloaded_loadable (d : t) :
  speakers_keyed d -> loadable d -> loadable (reloaded d).
Proof.
  intros Hkeyed Hload. pose proof (reloaded_events d Hkeyed Hload) as Eev.
  destruct (reloaded_parts d Hkeyed Hload) as (Es & Et & Eti).
  destruct Hload as (Hts & Hsp & Htl & Hti & Hev).
  unfold loadable. rewrite Eev, Es, Et, Eti, !map_map. repeat split.
  - apply Forall_forall. intros tp Hin. apply list_elem_of_fmap in Hin as (tp0 & -> & _).
    reflexivity.
  - exact Hsp.
  - exact Htl.
  - exact Hti.
  - apply Forall_forall. intros e Hin. apply list_elem_of_fmap in Hin as (e0 & -> & Hin).
    rewrite Forall_forall in Hev. exact (Hev e0 Hin).
Qed.

(** A transcript that has been through the round trip comes out of the
    next one as it is: for a transcript built by the public operations,
    printing the reloaded transcript, parsing the text and loading the tree
    yields the reloaded transcript again. *)
Theorem round_trip_stable (a : init_args) (ops : list op)
    (indentation_level running_id : Z) (with_preface : bool) :
  clean (build a ops) ->
  NoDup (map (fun tp => py_format (Timepoint.time_id tp)) (timepoints (build a ops))) ->
  exists root,
    ET.parse (print_transcript (reloaded (build a ops)) indentation_level with_preface)
    = Some root
    /\ load root running_id
       = Ok (reloaded (build a ops),
             (running_id + Z.of_nat (length (timepoints (build a ops)))
                + 2 * event_count (build a ops))%Z, []).
Proof.
  intros Hclean Hfmt.
  assert (Hload : loadable (build a ops)).
  { apply build_loadable; [now apply clean_time_stamps | exact Hfmt]. }
  pose proof (build_speakers_keyed a ops) as Hkeyed.
  set (d := build a ops) in *.
  exists (document_tree indentation_level (reloaded d)). split.
  - destruct (print_transcript_text (reloaded d) indentation_level with_preface)
      as (s & -> & Hs); [now apply reloaded_clean|].
    apply (parse_printed with_preface s (str_mul tab indentation_level) nl);
      [exact Hs | apply spaces_tabs | reflexivity].
  - rewrite load_document by (now apply reloaded_loadable).
    rewrite reloaded_idem by assumption.
    destruct (reloaded_parts d Hkeyed Hload) as (_ & Et & _).
    unfold event_count. rewrite reloaded_events, Et, !length_map by assumption.
    reflexivity.
Qed.

Lemma round_trip_stable_witness :
  exists root,
    ET.parse (print_transcript (reloaded (build demo_args demo_ops)) 0 false) = Some root
    /\ load root 0 = Ok (reloaded (build demo_args demo_ops), 4%Z, []).
Proof.
  apply (round_trip_stable demo_args demo_ops 0 0 false).
  - repeat split; vm_compute; reflexivity.
  - apply (bool_decide_unpack _). vm_compute. exact I.
Defined.

End reload_stable.

(** ** When [load] raises *)

Section loader_raises.
Import ExmaraldaTranscript Build Loaded Loading.

(** A loop that returns has run every round, and every round has
    returned. *)
Lemma for_each_rounds {S X} (body : S -> X -> result S) (xs : list X) (s s' : S) :
  for_each body xs s = Ok s' ->
  forall x, x ∈ xs -> exists s0 s1, body s0 x = Ok s1.
Proof.
  revert s. induction xs as [|x xs IH]; intros s Hrun y Hy.
  - now apply elem_of_nil in Hy.
  - rewrite for_each_cons in Hrun. destruct (body s x) as [s1|k] eqn:Hb; [|discriminate].
    simpl in Hrun. apply elem_of_cons in Hy as [->|Hy].
    + now exists s, s1.
    + now apply (IH s1).
Qed.

(** A loop that raises has a round that raises the same. *)
Lemma for_each_raises {S X} (body : S -> X -> result S) (xs : list X) (s : S) (k : string) :
  for_each body xs s = KeyError k -> exists s0 x, x ∈ xs /\ body s0 x = KeyError k.
Proof.
  revert s. induction xs as [|x xs IH]; intros s Hrun; [discriminate|].
  rewrite for_each_cons in Hrun. destruct (body s x) as [s1|k'] eqn:Hb; simpl in Hrun.
  - destruct (IH s1 Hrun) as (s0 & y & Hy & Hk). exists s0, y. split; [|exact Hk].
    apply elem_of_cons. now right.
  - injection Hrun as ->. exists s, x. split; [apply elem_of_cons; now left | exact Hb].
Qed.

Lemma attr_raises (k k' : string) (e : ET.Element) : ET.attr k e = KeyError k' -> k' = k.
Proof. unfold ET.attr. destruct (dict_get k (ET.attrib e)); [discriminate | congruence]. Qed.

Lemma load_event_raises (tid : string) (st : load_state) (y : ET.Element) (k : string) :
  load_event tid st y = KeyError k -> k = "start" \/ k = "end".
Proof.
  destruct st as [[d c] o]. unfold load_event.
  destruct (negb (String.eqb (ET.tag y) "event")); [discriminate|]. simpl.
  destruct (ET.attr "start" y) as [a|k1] eqn:Ha; simpl.
  - destruct (ET.attr "end" y) as [b|k2] eqn:Hb; simpl.
    + destruct (add_event _ _ _). discriminate.
    + intros [= <-]. right. now apply attr_raises in Hb.
  - intros [= <-]. left. now apply attr_raises in Ha.
Qed.

(** [load] returns exactly when the attributes that it reads without a
    guard are there: [id] on every speaker element, [time] and [id] on
    every [tli] element, [start] and [end] on every event of a tier.  On
    every other input it raises [KeyError], with the name of such an
    attribute. *)
Theorem load_returns_iff (root : ET.Element) (running_id : Z) :
  ((exists st, load root running_id = Ok st) <-> required_attributes root)
  /\ forall k, load root running_id = KeyError k ->
       k = "id" \/ k = "time" \/ k = "start" \/ k = "end".
Proof.
  split; [split; [|apply load_returns]|].
  - intros [st Hrun].
    destruct (load_phases _ _ _ Hrun) as (d1 & d2 & st3 & _ & H2 & H3 & H4).
    split; [|split].
    + intros x Hx. destruct (for_each_rounds _ _ _ _ H2 x Hx) as (s0 & s1 & Hb).
      now apply load_speaker_Ok in Hb as (Hid & _).
    + intros x Hx. destruct (for_each_rounds _ _ _ _ H3 x Hx) as ([d c] & s1 & Hb).
      unfold load_tli in Hb.
      destruct (ET.attr "time" x) as [tm|k] eqn:Ht; [|discriminate].
      destruct (ET.attr "id" x) as [i|k] eqn:Hi; [|discriminate].
      apply attr_Ok in Ht as [Ht _], Hi as [Hi _]. now split.
    + intros x y Hx Hy Htag.
      destruct (for_each_rounds _ _ _ _ H4 x Hx) as ([[d c] o] & s1 & Hb).
      unfold load_tier in Hb.
      destruct (for_each_rounds _ _ _ _ Hb y Hy) as ([[d' c'] o'] & s2 & He).
      unfold load_event in He. rewrite Htag in He. simpl in He.
      destruct (ET.attr "start" y) as [a|k] eqn:Ha; [|discriminate].
      destruct (ET.attr "end" y) as [b|k] eqn:Hb'; [|discriminate].
      apply attr_Ok in Ha as [Ha _], Hb' as [Hb' _]. now split.
  - intros k. unfold load.
    match goal with |- context [for_each load_speaker _ ?d] => generalize d end. intros d1.
    destruct (for_each load_speaker (ET.iter "speaker" root) d1) as [d2|k2] eqn:H2; simpl.
    2:{ intros [= <-]. apply for_each_raises in H2 as (s0 & x & _ & Hb).
        unfold load_speaker in Hb.
        destruct (ET.attr "id" x) as [i|k'] eqn:Hi; [discriminate|].
        simpl in Hb. injection Hb as <-. left. now apply attr_raises in Hi. }
    destruct (for_each load_tli (ET.iter "tli" root) (d2, running_id)) as [st3|k3] eqn:H3;
      simpl.
    2:{ intros [= <-]. apply for_each_raises in H3 as ([d c] & x & _ & Hb).
        unfold load_tli in Hb.
        destruct (ET.attr "time" x) as [tm|k'] eqn:Ht; simpl in Hb.
        - destruct (ET.attr "id" x) as [i|k''] eqn:Hi; simpl in Hb; [discriminate|].
          injection Hb as <-. left. now apply attr_raises in Hi.
        - injection Hb as <-. right. left. now apply attr_raises in Ht. }
    intros H4. apply for_each_raises in H4 as ([[d c] o] & x & _ & Hb).
    unfold load_tier in Hb. apply for_each_raises in Hb as (s0 & y & _ & He).
    apply load_event_raises in He. tauto.
Qed.

End loader_raises.

(** ** The order of registration and the printed speaker table *)

Section registration_order.
Import ExmaraldaTranscript Build.

Lemma print_speaker_table_registration_order_witness :
  print_speaker_table
    (build (mk_init_args "" "" "" "" "" "")
       [AddSpeaker "SPK1" "B" "m" (Lst []) (Lst []) (Lst []) "" "";
        AddSpeaker "SPK0" "A" "f" (Lst []) (Lst []) (Lst []) "" ""]) 2
  = print_speaker_table
      (build (mk_init_args "" "" "" "" "" "")
         [AddSpeaker "SPK0" "A" "f" (Lst []) (Lst []) (Lst []) "" "";
          AddSpeaker "SPK1" "B" "m" (Lst []) (Lst []) (Lst []) "" ""]) 2.
Proof.
  apply (print_speaker_table_registration_order _ _ 2).
  - apply (bool_decide_unpack _). vm_compute. exact I.
  - apply Permutation_swap.
Defined.

End registration_order.

(** ** The files that the converter reads and writes *)

Section converter_facts.
Import Markup TSVDump GeneralHelper MainConverter.

Lemma substring_split (n : nat) (s : string) :
  (n <= String.length s)%nat ->
  s = String.substring 0 n s +:+ String.substring n (String.length s - n) s.
Proof.
  revert n. induction s as [|c s IH]; intros n Hn.
  - destruct n; [reflexivity | simpl in Hn; lia].
  - destruct n as [|n].
    + rewrite str_app_nil_l. simpl. f_equal.
      clear. induction s as [|c' s IH]; [reflexivity|]. simpl. now rewrite <- IH.
    + simpl in *. rewrite str_app_cons. f_equal. apply IH. lia.
Qed.

(** A string that ends with a suffix is something followed by it. *)
Lemma endswith_app (s suffix : string) :
  endswith s suffix = true -> exists pre, s = pre +:+ suffix.
Proof.
  unfold endswith. rewrite andb_true_iff, Nat.leb_le, String.eqb_eq. intros [Hle Hsub].
  exists (String.substring 0 (String.length s - String.length suffix) s).
  pose proof (substring_split (String.length s - String.length suffix) s) as E.
  replace (String.length s - (String.length s - String.length suffix))%nat
    with (String.length suffix) in E by lia.
  rewrite Hsub in E. apply E. lia.
Qed.

Lemma prefix_empty (s : string) : String.prefix "" s = true.
Proof. now destruct s. Qed.

Lemma rfind_from_absent (name : string) (i : Z) :
  file_name name = true -> rfind_from name "/" i = (-1)%Z.
Proof.
  revert i. induction name as [|c r IH]; intros i H; [reflexivity|].
  simpl in H. apply andb_true_iff in H as [Hc H].
  cbn [rfind_from]. rewrite (IH _ H). cbn [Z.leb Z.compare].
  change (String.prefix "/" (String c r)) with
    (if Ascii.ascii_dec "/" c then String.prefix "" r else false).
  destruct (Ascii.ascii_dec "/" c) as [<-|_]; [discriminate | reflexivity].
Qed.

(** The last separator of a path that ends in a file name. *)
Lemma rfind_sep (root name : string) (i : Z) :
  (0 <= i)%Z -> file_name name = true ->
  rfind_from (root +:+ "/" +:+ name) "/" i = (i + len root)%Z.
Proof.
  intros Hi Hname. revert i Hi. induction root as [|c r IH]; intros i Hi.
  - rewrite str_app_nil_l. change ("/" +:+ name) with (String "/" name).
    cbn [rfind_from]. rewrite rfind_from_absent by exact Hname. cbn [Z.leb Z.compare].
    change (String.prefix "/" (String "/" name)) with (String.prefix "" name).
    rewrite prefix_empty. unfold len. simpl. lia.
  - rewrite str_app_cons. cbn [rfind_from]. rewrite IH by lia.
    unfold len. simpl String.length.
    destruct (Z.leb_spec 0 (i + 1 + Z.of_nat (String.length r))); lia.
Qed.

(** The last occurrence of an ending (with a first character) in a string
    that ends with it is at its end. *)
Lemma rfind_from_short (s sub : string) (i : Z) :
  (String.length s < String.length sub)%nat -> rfind_from s sub i = (-1)%Z.
Proof.
  revert i. induction s as [|c r IH]; intros i Hlen.
  - destruct sub; [simpl in Hlen; lia | reflexivity].
  - cbn [rfind_from]. rewrite IH by (simpl in Hlen; lia). cbn [Z.leb Z.compare].
    assert (Hp : String.prefix sub (String c r) = false); [|now rewrite Hp].
    destruct (String.prefix sub (String c r)) eqn:Hp; [|reflexivity].
    apply String.prefix_correct in Hp.
    assert (Hl : String.length (String.substring 0 (String.length sub) (String c r))
                 = String.length sub) by (now rewrite Hp).
    clear Hp IH. exfalso. revert Hl Hlen. generalize (String c r) as s. clear.
    induction sub as [|x sub IH]; intros s; [simpl; lia|].
    destruct s as [|y s]; simpl; [lia|]. intros Hl Hlen.
    apply (IH s); [congruence | lia].
Qed.

Lemma prefix_app (sub rest : string) : String.prefix sub (sub +:+ rest) = true.
Proof.
  induction sub as [|c sub IH]; [apply prefix_empty|].
  rewrite str_app_cons. simpl. destruct (Ascii.ascii_dec c c); [exact IH | congruence].
Qed.

Lemma rfind_ending (pre sub : string) (i : Z) :
  (0 <= i)%Z -> sub <> "" ->
  rfind_from (pre +:+ sub) sub i = (i + len pre)%Z.
Proof.
  intros Hi Hsub. revert i Hi. induction pre as [|c r IH]; intros i Hi.
  - rewrite str_app_nil_l. destruct sub as [|x sub]; [congruence|].
    cbn [rfind_from]. rewrite rfind_from_short by (simpl; lia). cbn [Z.leb Z.compare].
    rewrite <- (str_app_nil_r (String x sub)) at 2. rewrite prefix_app.
    unfold len. simpl. lia.
  - rewrite str_app_cons. cbn [rfind_from]. rewrite IH by lia.
    unfold len. simpl String.length.
    destruct (Z.leb_spec 0 (i + 1 + Z.of_nat (String.length r))); lia.
Qed.

Lemma substring_middle (pre mid post : string) :
  String.substring (String.length pre) (String.length mid) (pre +:+ mid +:+ post) = mid.
Proof.
  induction pre as [|c pre IH].
  - rewrite str_app_nil_l. change (String.length "") with 0%nat.
    induction mid as [|x mid IHm].
    + now destruct post.
    + rewrite str_app_cons. simpl. now rewrite IHm.
  - rewrite str_app_cons. simpl. exact IH.
Qed.

Lemma slice_middle (pre mid post : string) :
  slice (pre +:+ mid +:+ post) (len pre) (len pre + len mid) = mid.
Proof.
  unfold slice, clamp, len. rewrite !str_length_app.
  destruct (Z.ltb_spec (Z.of_nat (String.length pre)) 0); [lia|].
  destruct (Z.ltb_spec (Z.of_nat (String.length pre) + Z.of_nat (String.length mid)) 0); [lia|].
  rewrite !Nat2Z.inj_add.
  rewrite (Z.min_l (Z.of_nat (String.length pre))) by lia.
  rewrite (Z.min_l (Z.of_nat (String.length pre) + Z.of_nat (String.length mid))) by lia.
  destruct (Z.ltb_spec (Z.of_nat (String.length pre))
              (Z.of_nat (String.length pre) + Z.of_nat (String.length mid))) as [Hlt|Hge].
  - replace (Z.of_nat (String.length pre) + Z.of_nat (String.length mid)
               - Z.of_nat (String.length pre))%Z with (Z.of_nat (String.length mid)) by lia.
    rewrite !Nat2Z.id. apply substring_middle.
  - destruct mid; [reflexivity | simpl in Hge; lia].
Qed.

Lemma file_name_not_absolute (name : string) :
  file_name name = true -> startswith name "/" = false.
Proof.
  destruct name as [|c r]; [reflexivity|]. unfold file_name. cbn [str_forallb].
  rewrite andb_true_iff. intros [Hc _]. unfold startswith.
  change (String.prefix "/" (String c r)) with
    (if Ascii.ascii_dec "/" c then String.prefix "" r else false).
  destruct (Ascii.ascii_dec "/" c) as [<-|_]; [discriminate | reflexivity].
Qed.

Lemma out_file_path (pre stem : string) :
  (pre = "" \/ exists r0, pre = r0 +:+ "/") -> file_name (stem +:+ ".exb") = true ->
  out_file (pre +:+ stem +:+ ".exb") = stem +:+ ".tsv".
Proof.
  intros Hpre Hname. unfold out_file, rfind, in_file_ending, out_file_ending. f_equal.
  assert (Hsep : (rfind_from (pre +:+ stem +:+ ".exb") "/" 0 + 1)%Z = len pre).
  { destruct Hpre as [->|[r0 ->]].
    - rewrite str_app_nil_l, rfind_from_absent by exact Hname. reflexivity.
    - rewrite !str_app_assoc, rfind_sep by (lia || exact Hname).
      unfold len. rewrite str_length_app. simpl. lia. }
  assert (Hend : rfind_from (pre +:+ stem +:+ ".exb") ".exb" 0 = (len pre + len stem)%Z).
  { rewrite <- str_app_assoc, rfind_ending by (lia || discriminate).
    unfold len. rewrite str_length_app. lia. }
  rewrite Hsep, Hend. apply slice_middle.
Qed.

(** The output file of an input file [root/name] is named after [name]
    alone. *)
Lemma out_file_join (root stem : string) :
  file_name (stem +:+ ".exb") = true ->
  out_file (path_join root (stem +:+ ".exb")) = stem +:+ ".tsv".
Proof.
  intros Hname. unfold path_join. rewrite file_name_not_absolute by exact Hname.
  destruct (String.eqb root "") eqn:He; simpl.
  - apply String.eqb_eq in He. subst root. apply out_file_path; [now left | exact Hname].
  - destruct (endswith root "/") eqn:Hs.
    + apply endswith_app in Hs as [r0 ->]. apply out_file_path; [|exact Hname].
      right. now exists r0.
    + rewrite <- (str_app_assoc root "/"). apply out_file_path; [|exact Hname].
      right. now exists root.
Qed.

Lemma rec_read_files_closed (walk : list (string * list string * list string))
    (file_ending : string) :
  rec_read_files walk file_ending
  = flat_map (fun '(root, _, files) =>
                map (path_join root)
                  (List.filter (fun f => negb (startswith f "."
                                               || negb (endswith f file_ending))) files))
      walk.
Proof.
  unfold rec_read_files.
  assert (Hin : forall root files rval,
            fold_left (fun rval f =>
                         if startswith f "." || negb (endswith f file_ending) then rval
                         else rval ++ [path_join root f]) files rval
            = rval ++ map (path_join root)
                        (List.filter (fun f => negb (startswith f "."
                                                     || negb (endswith f file_ending)))
                           files)).
  { intros root files. induction files as [|f files IH]; intros rval.
    - simpl. now rewrite app_nil_r.
    - simpl. rewrite IH. destruct (startswith f "." || negb (endswith f file_ending)); simpl.
      + reflexivity.
      + now rewrite <- app_assoc. }
  assert (Hout : forall rval,
            fold_left (fun rval '(root, _, files) =>
                         fold_left (fun rval f =>
                                      if startswith f "." || negb (endswith f file_ending)
                                      then rval else rval ++ [path_join root f]) files rval)
              walk rval
            = rval ++ flat_map (fun '(root, _, files) =>
                                  map (path_join root)
                                    (List.filter
                                       (fun f => negb (startswith f "."
                                                       || negb (endswith f file_ending)))
                                       files))
                        walk).
  { induction walk as [|[[root dirs] files] walk IH]; intros rval.
    - simpl. now rewrite app_nil_r.
    - simpl. rewrite IH, Hin. now rewrite <- app_assoc. }
  apply (Hout []).
Qed.

(** The files that the converter reads are the files of the walk whose
    name ends in [.exb] and does not start with a dot, and the output of
    each is named after the file name alone, [.tsv] for [.exb]: input files
    of the same name in different directories are written to the same
    output file. *)
Theorem converter_out_files (walk : list (string * list string * list string)) :
  Forall (fun entry => Forall (fun f => file_name f = true) (snd entry)) walk ->
  forall f, f ∈ rec_read_files walk in_file_ending ->
    exists root dirs files stem,
      (root, dirs, files) ∈ walk /\ stem +:+ ".exb" ∈ files
      /\ startswith (stem +:+ ".exb") "." = false
      /\ f = path_join root (stem +:+ ".exb")
      /\ out_file f = stem +:+ ".tsv"
      /\ forall root', out_file (path_join root' (stem +:+ ".exb")) = out_file f.
Proof.
  intros Hwalk f Hf. rewrite rec_read_files_closed in Hf.
  apply list_elem_of_In, in_flat_map in Hf as ([[root dirs] files] & Hentry & Hf).
  apply in_map_iff in Hf as (name & <- & Hname). apply filter_In in Hname as [Hin Hkeep].
  apply negb_true_iff, orb_false_iff in Hkeep as [Hdot Hend].
  apply negb_false_iff, endswith_app in Hend as [stem ->].
  rewrite Forall_forall in Hwalk. apply list_elem_of_In in Hentry, Hin.
  specialize (Hwalk _ Hentry). simpl in Hwalk. rewrite Forall_forall in Hwalk.
  specialize (Hwalk _ Hin).
  exists root, dirs, files, stem. unfold in_file_ending in *.
  repeat split; try assumption.
  - now apply out_file_join.
  - intros root'. now rewrite !out_file_join.
Qed.

Lemma converter_out_files_witness :
  exists root dirs files stem,
    (root, dirs, files)
      ∈ [("in", ["sub"], ["a.exb"; ".b.exb"; "c.txt"]); ("in/sub", [], ["a.exb"])]
    /\ stem +:+ ".exb" ∈ files
    /\ startswith (stem +:+ ".exb") "." = false
    /\ "in/sub/a.exb" = path_join root (stem +:+ ".exb")
    /\ out_file "in/sub/a.exb" = stem +:+ ".tsv"
    /\ forall root', out_file (path_join root' (stem +:+ ".exb")) = out_file "in/sub/a.exb".
Proof.
  apply (converter_out_files
           [("in", ["sub"], ["a.exb"; ".b.exb"; "c.txt"]); ("in/sub", [], ["a.exb"])]).
  - repeat constructor.
  - apply (bool_decide_unpack _). vm_compute. exact I.
Defined.

End converter_facts.
